(** * Pipeline tutorial notebooks: custom factors and pipeline construction

    The notebooks build pipeline expressions (factors, filters, screens and
    masks), define three custom factors whose [compute] methods are numpy
    reductions over a trailing window, and hand the pipelines to
    [run_pipeline].  Prices are numpy [float64] values: they are modelled by
    the kernel's binary64 floats, so that [NaN], signed zeros, infinities and
    rounding are the ones the code meets.

    The pipeline engine itself ([Pipeline], [run_pipeline], masks, [top],
    [bottom]) belongs to the library the notebooks import; its source is not
    part of the repository.  The definitions that stand for it are marked
    "Modelled from the spec". *)

From Stdlib Require Import ZArith Lia Floats Uint63 String.
From stdpp Require Import base list gmap strings.

Local Open Scope Z_scope.

(** ** numpy arrays as the [compute] methods see them *)

Module numpy.

(** A one-dimensional [float64] array. *)
Abbreviation ndarray1 := (list float).

(** The order in which a two-dimensional array lies in memory: row after
    row ([C]) or column after column ([F]).  Arithmetic does not see it, but
    the order in which [numpy.sum] adds does. *)
Inductive memory_order := C_order | F_order.

(** A two-dimensional [float64] array: [shape0] rows (the length of [rows]),
    each of [shape1] entries.  The second dimension is kept so that an array
    with no row still has its number of columns. *)
Record ndarray2 := mk_ndarray2 {
  order : memory_order;
  shape1 : nat;
  rows : list ndarray1
}.

Definition shape0 (a : ndarray2) : nat := length (rows a).

(** Every row has [shape1] entries. *)
Definition well_shaped (a : ndarray2) : Prop :=
  Forall (fun r => length r = shape1 a) (rows a).

(** [a[:, j]], with [NaN] where a row is too short. *)
Definition column (j : nat) (a : ndarray2) : ndarray1 :=
  map (fun r => nth j r nan) (rows a).

(** Python indexing [l[i]] with a possibly negative index; [None] is the
    [IndexError]. *)
Definition getitem {A} (l : list A) (i : Z) : option A :=
  if 0 <=? i then l !! Z.to_nat i
  else if - Z.of_nat (length l) <=? i then l !! Z.to_nat (Z.of_nat (length l) + i)
  else None.

(** [out[:] = v] for one-dimensional arrays of equal length; any other case (a
    broadcast or a [ValueError]) is outside the model and gives [None]. *)
Definition setitem_all (out v : ndarray1) : option ndarray1 :=
  if decide (length v = length out) then Some v else None.

Definition isnan (x : float) : bool := PrimFloat.is_nan x.

(** Elementwise operations on rows of equal length. *)
Definition add1 : ndarray1 -> ndarray1 -> ndarray1 := zip_with PrimFloat.add.
Definition sub1 : ndarray1 -> ndarray1 -> ndarray1 := zip_with PrimFloat.sub.
Definition mul1 : ndarray1 -> ndarray1 -> ndarray1 := zip_with PrimFloat.mul.
Definition div1 : ndarray1 -> ndarray1 -> ndarray1 := zip_with PrimFloat.div.

(** The order of the result of an elementwise operation on two arrays: the
    one of the operands, and [C] when they differ. *)
Definition result_order (a b : ndarray2) : memory_order :=
  match order a, order b with
  | F_order, F_order => F_order
  | _, _ => C_order
  end.

(** [a - b] for two-dimensional arrays of the same shape; [None] otherwise. *)
Definition sub2 (a b : ndarray2) : option ndarray2 :=
  if decide (shape1 a = shape1 b /\ shape0 a = shape0 b)
  then Some (mk_ndarray2 (result_order a b) (shape1 a) (zip_with sub1 (rows a) (rows b)))
  else None.

(** An integer count as [float64], as [true_divide] casts it.  Counts are
    [intp] values, below [2^63]. *)
Definition of_count (n : nat) : float :=
  PrimFloat.of_uint63 (Uint63.of_Z (Z.of_nat n)).

(** *** The order of the additions of [numpy.sum]

    Along an axis that is contiguous in memory, the [add] loop of numpy sums
    the [n] values of a run by its [pairwise_sum]: one after the other when
    [n < 8]; with eight running sums, added two by two at the end, and the
    last [n mod 8] values after them, when [n <= 128]; and by halves (the
    first of a multiple of eight values) above. *)

(** [((r0 + r1) + (r2 + r3)) + ((r4 + r5) + (r6 + r7))]. *)
Definition add8 (r : list float) : float :=
  match r with
  | [r0; r1; r2; r3; r4; r5; r6; r7] =>
      (((r0 + r1) + (r2 + r3)) + ((r4 + r5) + (r6 + r7)))%float
  | _ => 0%float
  end.

(** [k] times: [r[i] += a[i]] for the next eight values of [a]. *)
Fixpoint accumulate8 (k : nat) (r a : list float) : list float :=
  match k with
  | O => r
  | S k => accumulate8 k (zip_with PrimFloat.add r (take 8 a)) (drop 8 a)
  end.

(** The block of at least 8 values: the eight running sums start at the
    first eight values. *)
Definition block_sum (a : list float) : float :=
  let q := (length a / 8)%nat in
  let r := accumulate8 (q - 1) (take 8 a) (drop 8 a) in
  fold_left PrimFloat.add (drop (8 * q) a) (add8 r).

(** The recursion on the halves, [fuel] bounding its depth. *)
Fixpoint pairwise_sum_rec (fuel : nat) (a : list float) : float :=
  let n := length a in
  if (n <? 8)%nat then fold_left PrimFloat.add a 0%float
  else if (n <=? 128)%nat then block_sum a
  else
    match fuel with
    | O => block_sum a
    | S fuel =>
        let n2 := (n / 2 - (n / 2) mod 8)%nat in
        (pairwise_sum_rec fuel (take n2 a) + pairwise_sum_rec fuel (drop n2 a))%float
    end.

(** [pairwise_sum(a, n, stride)]; each half is shorter, so the length of [a]
    is fuel enough. *)
Definition pairwise_sum (a : list float) : float := pairwise_sum_rec (length a) a.

(** The sum of one column, as [numpy.sum(a, axis=0)] takes it: into a result
    that starts at zero, either the pairwise sum of the column (axis 0 is
    contiguous), or one entry after the other. *)
Definition column_sum (pairwise : bool) (col : ndarray1) : float :=
  if pairwise then (0 + pairwise_sum col)%float
  else fold_left PrimFloat.add col 0%float.

(** Whether the reduction along axis 0 runs along memory: the array lies
    column after column, or has a single column. *)
Definition axis0_contiguous (a : ndarray2) : bool :=
  match order a with
  | F_order => true
  | C_order => (shape1 a =? 1)%nat
  end.

(** [numpy.sum(a, axis=0)].  Along memory, each column is summed by
    [pairwise_sum]; otherwise the rows are accumulated one after the other
    into a row of zeros. *)
Definition sum_axis0 (a : ndarray2) : ndarray1 :=
  if axis0_contiguous a
  then map (fun j => column_sum true (column j a)) (seq 0 (shape1 a))
  else fold_left add1 (rows a) (replicate (shape1 a) 0%float).

(** One step of [numpy.sum(~mask, axis=0)]: a row raises the count of every
    column where it is not [NaN]. *)
Definition count_row (cnt : list nat) (r : ndarray1) : list nat :=
  zip_with (fun c x => if isnan x then c else S c) cnt r.

Definition count_axis0 (a : ndarray2) : list nat :=
  fold_left count_row (rows a) (replicate (shape1 a) 0%nat).

(** [_replace_nan(a, 0)]: a copy, in the order of [a]. *)
Definition replace_nan (x : float) : float := if isnan x then 0%float else x.

Definition replace_nan2 (a : ndarray2) : ndarray2 :=
  mk_ndarray2 (order a) (shape1 a) (map (map replace_nan) (rows a)).

(** [_divide_by_count]. *)
Definition divide_by_count (tot : ndarray1) (cnt : list nat) : ndarray1 :=
  zip_with (fun t c => (t / of_count c)%float) tot cnt.

(** [numpy.nanmean(a, axis=0)]: [NaN]s replaced by zero, summed, divided by
    the number of entries that are not [NaN]. *)
Definition nanmean_axis0 (a : ndarray2) : ndarray1 :=
  divide_by_count (sum_axis0 (replace_nan2 a)) (count_axis0 a).

(** The deviations of a row from the means, set to zero where the entry is
    [NaN] ([nanvar]'s [subtract] followed by [_copyto(arr, 0, mask)]). *)
Definition deviations (avg : ndarray1) (r : ndarray1) : ndarray1 :=
  zip_with (fun x m => if isnan x then 0%float else (x - m)%float) r avg.

(** [numpy.nanvar(a, axis=0)] with [ddof = 0]; a column with no entry left
    is [NaN].  The squares are taken in place, in the copy of [a]. *)
Definition nanvar_axis0 (a : ndarray2) : ndarray1 :=
  let cnt := count_axis0 a in
  let avg := nanmean_axis0 a in
  let dev := map (deviations avg) (rows a) in
  let sqr := mk_ndarray2 (order a) (shape1 a) (map (fun r => mul1 r r) dev) in
  zip_with (fun (v : float) (c : nat) => if decide (c = 0%nat) then nan else v)
           (divide_by_count (sum_axis0 sqr) cnt) cnt.

(** [numpy.nanstd(a, axis=0)]: the square root of [nanvar]. *)
Definition nanstd_axis0 (a : ndarray2) : ndarray1 :=
  map PrimFloat.sqrt (nanvar_axis0 a).

(** The squared deviation [nanvar] adds for one entry of a column whose mean
    is [m]: zero for a [NaN]. *)
Definition squared_deviation (m x : float) : float :=
  ((if isnan x then 0 else x - m) * (if isnan x then 0 else x - m))%float.

(** *** What the reductions are said to compute, column by column *)

(** The entries of a column that are not [NaN]. *)
Definition drop_nan (col : ndarray1) : ndarray1 :=
  filter (fun x => isnan x = false) col.

(** The mean of a column, ignoring [NaN] values: a [NaN] adds nothing to the
    sum and is not counted.  The sum is taken in the order [sum] tells. *)
Definition mean_ignoring_nan (sum : ndarray1 -> float) (col : ndarray1) : float :=
  (sum (map replace_nan col) / of_count (length (drop_nan col)))%float.

(** The standard deviation of a column, ignoring [NaN] values: the square
    root of the mean squared deviation from the mean, where a [NaN] adds
    nothing and is not counted. *)
Definition std_ignoring_nan (sum : ndarray1 -> float) (col : ndarray1) : float :=
  let m := mean_ignoring_nan sum col in
  if decide (length (drop_nan col) = 0%nat) then nan
  else PrimFloat.sqrt (sum (map (squared_deviation m) col)
                       / of_count (length (drop_nan col)))%float.

(** The sum of the values one after the other, from zero. *)
Definition total (xs : ndarray1) : float := fold_left PrimFloat.add xs 0%float.

(** Mean and standard deviation of the entries that are left when the [NaN]
    values are taken out, summed one after the other. *)
Definition mean_of_present (col : ndarray1) : float :=
  (total (drop_nan col) / of_count (length (drop_nan col)))%float.

Definition std_of_present (col : ndarray1) : float :=
  let xs := drop_nan col in
  let m := mean_of_present col in
  let sq := map (fun x => ((x - m) * (x - m))%float) xs in
  if decide (length xs = 0%nat) then nan
  else PrimFloat.sqrt (total sq / of_count (length xs))%float.

(** The additions of [numpy.sum] along axis 0 follow the rows when the axis
    is not contiguous, and also when there are fewer than 8 rows. *)
Definition sums_in_order (a : ndarray2) : bool :=
  negb (axis0_contiguous a) || (shape0 a <? 8)%nat.

End numpy.

(** ** Pipeline terms

    The notebooks build factors and filters by calling the library's
    constructors and its overloaded operators; the objects they obtain are
    terms, which [run_pipeline] later evaluates. *)

Module Terms.
Import numpy.

(** A trading day, by its number in the calendar, and an asset, by its
    security identifier ([Equity(24 [AAPL])] is [24]). *)
Definition date := Z.
Definition asset := Z.

(** A column of a data set, such as [USEquityPricing.close]. *)
Record BoundColumn := mk_column { dataset : string; field : string }.

#[global] Instance BoundColumn_eq_dec : EqDecision BoundColumn.
Proof. solve_decision. Defined.

(** The signature of a [compute] method after [self]:
    [compute(today, asset_ids, out, *inputs)].  The result is the content of
    [out] when the method returns, [None] when it raises. *)
Definition Compute : Type :=
  date -> list asset -> ndarray1 -> list ndarray2 -> option ndarray1.

Inductive binop := OpAdd | OpSub | OpMul | OpDiv.
Inductive cmpop := OpLt | OpLe | OpGt | OpGe.

(** Factors and filters.  [mask] is the optional [mask=] argument. *)
#[warnings="-register-all"]
Inductive Factor : Type :=
| Latest (c : BoundColumn)
| CustomFactor (compute : Compute) (inputs : list BoundColumn)
    (window_length : nat) (mask : option Filter)
| BinOp (op : binop) (l r : Factor)
with Filter : Type :=
| LatestFilter (c : BoundColumn)
| Compare (op : cmpop) (f : Factor) (c : float)
| IsNull (f : Factor)
| NotNull (f : Factor)
| StringTest (test : string -> bool) (c : BoundColumn)
| And (l r : Filter)
| Or (l r : Filter)
| Not (f : Filter)
| Top (n : nat) (f : Factor) (mask : option Filter)
| Bottom (n : nat) (f : Factor) (mask : option Filter)
| PercentileBetween (lo hi : float) (f : Factor) (mask : option Filter)
| Builtin (name : string).

(** A pipeline column is a factor or a filter. *)
Inductive Term := TFactor (f : Factor) | TFilter (f : Filter).

(** [Pipeline(columns=..., screen=...)]: named output columns (a Python
    [dict]) and an optional screen. *)
Record pipeline := Pipeline { columns : gmap string Term; screen : option Filter }.

(** [Pipeline()]: no column, no screen. *)
Definition empty_pipeline : pipeline := Pipeline ∅ None.

End Terms.

(** ** The data sets the notebooks import *)

Module USEquityPricing.
Import Terms.
Definition close := mk_column "USEquityPricing" "close".
Definition open := mk_column "USEquityPricing" "open".
Definition high := mk_column "USEquityPricing" "high".
Definition low := mk_column "USEquityPricing" "low".
Definition volume := mk_column "USEquityPricing" "volume".
End USEquityPricing.

Module Fundamentals.
Import Terms.
Definition security_type := mk_column "Fundamentals" "security_type".
Definition is_depositary_receipt := mk_column "Fundamentals" "is_depositary_receipt".
Definition exchange_id := mk_column "Fundamentals" "exchange_id".
Definition symbol := mk_column "Fundamentals" "symbol".
Definition standard_name := mk_column "Fundamentals" "standard_name".
Definition limited_partnership := mk_column "Fundamentals" "limited_partnership".
Definition market_cap := mk_column "Fundamentals" "market_cap".
End Fundamentals.

(** ** The custom factors of the notebooks *)

Module CustomFactors.
Import numpy Terms.

(** [StdDev.compute(self, today, asset_ids, out, values)]:
    [out[:] = numpy.nanstd(values, axis=0)]. *)
Definition StdDev_compute (today : date) (asset_ids : list asset)
    (out : ndarray1) (values : ndarray2) : option ndarray1 :=
  setitem_all out (nanstd_axis0 values).

(** [ThirtyDayMeanDifference.compute(self, today, asset_ids, out, close, open)]:
    [out[:] = numpy.nanmean(close - open, axis=0)]. *)
Definition ThirtyDayMeanDifference_compute (today : date) (asset_ids : list asset)
    (out : ndarray1) (close open : ndarray2) : option ndarray1 :=
  d ← sub2 close open;
  setitem_all out (nanmean_axis0 d).

(** [Momentum.compute(self, today, assets, out, close)]:
    [out[:] = close[-1] / close[0]]. *)
Definition Momentum_compute (today : date) (assets : list asset)
    (out : ndarray1) (close : ndarray2) : option ndarray1 :=
  last ← getitem (rows close) (-1);
  first ← getitem (rows close) 0;
  setitem_all out (div1 last first).

(** The call [compute(today, asset_ids, out, *inputs)]: a method of one
    window takes one input, a method of two takes two; any other number of
    inputs is a [TypeError]. *)
Definition call1 (f : date -> list asset -> ndarray1 -> ndarray2 -> option ndarray1)
  : Compute :=
  fun today assets out inputs =>
    match inputs with [a] => f today assets out a | _ => None end.

Definition call2
    (f : date -> list asset -> ndarray1 -> ndarray2 -> ndarray2 -> option ndarray1)
  : Compute :=
  fun today assets out inputs =>
    match inputs with [a; b] => f today assets out a b | _ => None end.

(** [class StdDev(CustomFactor)]: no default; [inputs] and [window_length]
    are given at each instantiation. *)
Definition StdDev (inputs : list BoundColumn) (window_length : nat)
    (mask : option Filter) : Factor :=
  CustomFactor (call1 StdDev_compute) inputs window_length mask.

(** [class ThirtyDayMeanDifference(CustomFactor)] with its class attributes
    [inputs = [USEquityPricing.close, USEquityPricing.open]] and
    [window_length = 30], used where the constructor is given [None]. *)
Definition ThirtyDayMeanDifference_inputs : list BoundColumn :=
  [USEquityPricing.close; USEquityPricing.open].

Definition ThirtyDayMeanDifference_window_length : nat := 30.

Definition ThirtyDayMeanDifference (inputs : option (list BoundColumn))
    (window_length : option nat) (mask : option Filter) : Factor :=
  CustomFactor (call2 ThirtyDayMeanDifference_compute)
    (default ThirtyDayMeanDifference_inputs inputs)
    (default ThirtyDayMeanDifference_window_length window_length) mask.

(** [class Momentum(CustomFactor)] with [inputs = [USEquityPricing.close]];
    [window_length] is given at each instantiation. *)
Definition Momentum (window_length : nat) (mask : option Filter) : Factor :=
  CustomFactor (call1 Momentum_compute) [USEquityPricing.close] window_length mask.

End CustomFactors.

(** ** The engine *)

Module Engine.
Import numpy Terms.

(** A cell of a data set or of a result table. *)
Inductive value := Float (x : float) | Boolean (b : bool) | Text (s : string) | Null.

Definition as_float (v : value) : float :=
  match v with Float x => x | _ => nan end.

Definition as_bool (v : value) : bool :=
  match v with Boolean b => b | _ => false end.

(** The data the service holds: the securities in the database on each day,
    the cells of the data sets, and the built-in universe filters
    ([IsPrimaryShare], [QTradableStocksUS]), which are data to the notebooks. *)
Record DataBase := {
  securities : date -> list asset;
  cell : BoundColumn -> date -> asset -> value;
  builtin : string -> date -> asset -> bool
}.

(** The functions of the library the notebooks use without defining them:
    the [compute] methods of the built-in factors, the percentile test of
    [percentile_between] over a cross-section, and regular expressions. *)
Record Library := {
  SimpleMovingAverage_compute : Compute;
  AverageDollarVolume_compute : Compute;
  percentile_test : float -> float -> list float -> float -> bool;
  regex_matches : string -> string -> bool
}.

(** The result of [run_pipeline]: a table with named columns whose rows are
    indexed by (date, asset) pairs. *)
Record Table := {
  table_columns : gset string;
  table_rows : list (date * asset * gmap string value)
}.

Definition index (t : Table) : list (date * asset) := map fst (table_rows t).

Definition apply_binop (op : binop) (x y : float) : float :=
  match op with
  | OpAdd => x + y | OpSub => x - y | OpMul => x * y | OpDiv => x / y
  end%float.

Definition apply_cmpop (op : cmpop) (x c : float) : bool :=
  match op with
  | OpLt => x <? c | OpLe => x <=? c | OpGt => c <? x | OpGe => c <=? x
  end%float.

(** The place of an asset in a list of assets. *)
Definition position (a : asset) (assets : list asset) : option nat :=
  fst <$> list_find (fun b => b = a) assets.

(** Modelled from the spec: the values a factor computed for [assets] are
    laid out per asset; an asset that was not computed has no value ([NaN]). *)
Definition scatter (assets : list asset) (out : ndarray1) : asset -> float :=
  fun a =>
    match position a assets with
    | Some j => default nan (out !! j)
    | None => nan
    end.

(** Two values neither of which is before the other. *)
Definition tied (x y : float) : bool := (negb (x <? y) && negb (y <? x))%float.

(** Modelled from the spec: the library's ordinal rank, which [top] and
    [bottom] select by.  The rank of the value [x] at place [i] of [vs] is one
    more than the number of values that come before it in the order, ties
    being broken by the place in the list. *)
Definition ordinal_rank (before : float -> float -> bool) (vs : list float)
    (i : nat) (x : float) : nat :=
  S (length (filter (fun y => before y x = true) vs)
     + length (filter (fun y => tied y x = true) (take i vs))).

(** The values of a list are pairwise apart: no two of them are tied. *)
Fixpoint distinct_values (vs : list float) : bool :=
  match vs with
  | [] => true
  | x :: r => forallb (fun y => negb (tied y x)) r && distinct_values r
  end.

Definition ascending (y x : float) : bool := (y <? x)%float.
Definition descending (y x : float) : bool := (x <? y)%float.

(** The assets a cross-sectional method ranks: those the mask keeps and whose
    value is defined. *)
Definition candidates (m : asset -> bool) (v : asset -> float)
    (assets : list asset) : list asset :=
  filter (fun a => m a = true /\ isnan (v a) = false) assets.

Definition select_rank (before : float -> float -> bool) (n : nat)
    (v : asset -> float) (cands : list asset) : asset -> bool :=
  let vs := map v cands in
  fun a =>
    match position a cands with
    | Some i => bool_decide (ordinal_rank before vs i (v a) <= n)%nat
    | None => false
    end.

Section Eval.
Context (lib : Library) (db : DataBase).

(** Modelled from the spec: the trailing window of a column on day [d], one
    row per day from [d - w] to [d - 1], one entry per asset of [assets].
    The library takes the columns of these assets out of its own window by
    an index ([window[:, mask]]), and numpy lays the result of such an
    indexing out column after column. *)
Definition window (c : BoundColumn) (d : date) (w : nat) (assets : list asset)
  : ndarray2 :=
  mk_ndarray2 F_order (length assets)
    (map (fun k => map (fun a => as_float (cell db c (d - Z.of_nat w + Z.of_nat k) a)) assets)
         (seq 0 w)).

(** Modelled from the spec: the evaluation of factors and filters on a day,
    which the library performs and the repository does not contain.  A
    factor gives a number per asset and a filter a boolean per asset.  A
    factor with a mask is computed over the assets of the mask alone: its
    [compute] receives one column per such asset and the other assets get no
    value.  [None] stands for a [compute] that raised. *)
Fixpoint eval_factor (f : Factor) (d : date) {struct f} : option (asset -> float) :=
  match f with
  | Latest c => Some (fun a => as_float (cell db c (d - 1) a))
  | CustomFactor compute inputs w mask =>
      m ← match mask with
          | Some mf => eval_filter mf d
          | None => Some (fun _ => true)
          end;
      let assets := filter (fun a => m a = true) (securities db d) in
      out ← compute d assets (replicate (length assets) nan)
              (map (fun c => window c d w assets) inputs);
      Some (scatter assets out)
  | BinOp op l r =>
      x ← eval_factor l d;
      y ← eval_factor r d;
      Some (fun a => apply_binop op (x a) (y a))
  end
with eval_filter (f : Filter) (d : date) {struct f} : option (asset -> bool) :=
  match f with
  | LatestFilter c => Some (fun a => as_bool (cell db c (d - 1) a))
  | Compare op g c =>
      v ← eval_factor g d; Some (fun a => apply_cmpop op (v a) c)
  | IsNull g => v ← eval_factor g d; Some (fun a => isnan (v a))
  | NotNull g => v ← eval_factor g d; Some (fun a => negb (isnan (v a)))
  | StringTest test c =>
      Some (fun a => match cell db c (d - 1) a with Text s => test s | _ => false end)
  | And l r =>
      x ← eval_filter l d; y ← eval_filter r d; Some (fun a => x a && y a)
  | Or l r =>
      x ← eval_filter l d; y ← eval_filter r d; Some (fun a => x a || y a)
  | Not g => x ← eval_filter g d; Some (fun a => negb (x a))
  | Top n g mask =>
      m ← match mask with
          | Some mf => eval_filter mf d
          | None => Some (fun _ => true)
          end;
      v ← eval_factor g d;
      Some (select_rank descending n v (candidates m v (securities db d)))
  | Bottom n g mask =>
      m ← match mask with
          | Some mf => eval_filter mf d
          | None => Some (fun _ => true)
          end;
      v ← eval_factor g d;
      Some (select_rank ascending n v (candidates m v (securities db d)))
  | PercentileBetween lo hi g mask =>
      m ← match mask with
          | Some mf => eval_filter mf d
          | None => Some (fun _ => true)
          end;
      v ← eval_factor g d;
      let cands := candidates m v (securities db d) in
      let vs := map v cands in
      Some (fun a =>
              match position a cands with
              | Some _ => percentile_test lib lo hi vs (v a)
              | None => false
              end)
  | Builtin name => Some (builtin db name d)
  end.

Definition eval_term (t : Term) (d : date) : option (asset -> value) :=
  match t with
  | TFactor f => g ← eval_factor f d; Some (fun a => Float (g a))
  | TFilter f => g ← eval_filter f d; Some (fun a => Boolean (g a))
  end.

Definition eval_screen (s : option Filter) (d : date) : option (asset -> bool) :=
  match s with
  | Some f => eval_filter f d
  | None => Some (fun _ => true)
  end.

(** All the columns of a pipeline on a day; [None] when one of them raised. *)
Definition eval_columns (cols : gmap string Term) (d : date)
  : option (gmap string (asset -> value)) :=
  let m := (fun t => eval_term t d) <$> cols in
  if decide (map_Forall (fun _ o => is_Some o) m) then Some (omap id m) else None.

(** Modelled from the spec: one day of a run.  The rows of the day are the
    securities of the database that the screen keeps (all of them when there
    is no screen), each with one cell per column. *)
Definition run_day (p : pipeline) (d : date)
  : option (list (date * asset * gmap string value)) :=
  match eval_screen (screen p) d, eval_columns (columns p) d with
  | Some s, Some cols =>
      Some (map (fun a => (d, a, (fun g : asset -> value => g a) <$> cols))
                (filter (fun a => s a = true) (securities db d)))
  | _, _ => None
  end.

(** The days from [start] to [end], both included. *)
Definition sessions (start_date end_date : date) : list date :=
  seqZ start_date (end_date - start_date + 1).

(** Modelled from the spec: [run_pipeline(pipeline, start_date, end_date)],
    the entry point of the library.  It returns a table indexed by
    (date, asset) with one column per named output column. *)
Definition run_pipeline (p : pipeline) (start_date end_date : date) : option Table :=
  days ← mapM (run_day p) (sessions start_date end_date);
  Some {| table_columns := dom (columns p); table_rows := concat days |}.

End Eval.

End Engine.

(** ** The pipelines of the notebooks *)

Module Builtins.
Import Terms Engine.

(** [SimpleMovingAverage(inputs=..., window_length=..., mask=...)]. *)
Definition SimpleMovingAverage (lib : Library) (inputs : list BoundColumn)
    (window_length : nat) (mask : option Filter) : Factor :=
  CustomFactor (SimpleMovingAverage_compute lib) inputs window_length mask.

(** [AverageDollarVolume(window_length=..., mask=...)], over close and volume. *)
Definition AverageDollarVolume (lib : Library) (window_length : nat)
    (mask : option Filter) : Factor :=
  CustomFactor (AverageDollarVolume_compute lib)
    [USEquityPricing.close; USEquityPricing.volume] window_length mask.

Definition IsPrimaryShare : Filter := Builtin "IsPrimaryShare".
Definition QTradableStocksUS : Filter := Builtin "QTradableStocksUS".

(** [s.endswith(suffix)]. *)
Definition endswith (suffix s : string) : bool :=
  let n := String.length s in
  let m := String.length suffix in
  (m <=? n)%nat && String.eqb (String.substring (n - m) m s) suffix.

End Builtins.

(** Creating a pipeline: [def make_pipeline(): return Pipeline()]. *)
Module CreatingAPipeline.
Import Terms.
Definition make_pipeline : pipeline := empty_pipeline.
Definition my_pipe : pipeline := make_pipeline.
End CreatingAPipeline.

(** Combining factors (lesson 4). *)
Module CombiningFactors.
Import Terms Engine Builtins.
Section Lesson.
Context (lib : Library).

Definition mean_close_15 := SimpleMovingAverage lib [USEquityPricing.close] 15 None.
Definition mean_close_60 := SimpleMovingAverage lib [USEquityPricing.close] 60 None.

Definition percent_difference :=
  BinOp OpDiv (BinOp OpSub mean_close_15 mean_close_60) mean_close_60.

Definition make_pipeline : pipeline :=
  Pipeline {[ "percent_difference" := TFactor percent_difference ]} None.

End Lesson.
End CombiningFactors.

(** Combining filters (lesson 6). *)
Module CombiningFilters.
Import Terms Engine Builtins.
Section Lesson.
Context (lib : Library).

Definition dollar_volume := AverageDollarVolume lib 60 None.
Definition high_dollar_volume := PercentileBetween 95 100 dollar_volume None.
Definition latest_close := Latest USEquityPricing.close.
Definition above_90 := Compare OpGt latest_close 90.
Definition tradeable_filter := And high_dollar_volume above_90.

Definition mean_close_60 := SimpleMovingAverage lib [USEquityPricing.close] 60 None.
Definition mean_close_30 := SimpleMovingAverage lib [USEquityPricing.close] 30 None.

Definition percent_difference :=
  BinOp OpDiv (BinOp OpSub mean_close_60 mean_close_30) mean_close_60.

Definition make_pipeline : pipeline :=
  Pipeline {[ "percent_difference" := TFactor percent_difference;
              "close" := TFactor (Latest USEquityPricing.close) ]}
           (Some tradeable_filter).

End Lesson.
End CombiningFilters.

(** Masking (lesson 7). *)
Module Masking.
Import Terms Engine Builtins.

Module Factors.
Section Lesson.
Context (lib : Library).

Definition dollar_volume := AverageDollarVolume lib 60 None.
Definition high_dollar_volume := Compare OpGt dollar_volume 20000000.

Definition mean_close_60 :=
  SimpleMovingAverage lib [USEquityPricing.close] 60 (Some high_dollar_volume).
Definition mean_close_30 :=
  SimpleMovingAverage lib [USEquityPricing.close] 30 (Some high_dollar_volume).

Definition percent_difference :=
  BinOp OpDiv (BinOp OpSub mean_close_30 mean_close_60) mean_close_60.

Definition make_pipeline : pipeline :=
  Pipeline {[ "percent difference" := TFactor percent_difference ]} None.

End Lesson.
End Factors.

Module Filters.
Section Lesson.
Context (lib : Library).

Definition dollar_volume := AverageDollarVolume lib 30 None.
Definition high_dollar_volume := PercentileBetween 90 100 dollar_volume None.
Definition top_open_price :=
  Top 50 (Latest USEquityPricing.open) (Some high_dollar_volume).
Definition high_close_price :=
  PercentileBetween 90 100 (Latest USEquityPricing.close) (Some top_open_price).

Definition make_pipeline : pipeline := Pipeline ∅ (Some high_close_price).

End Lesson.
End Filters.

End Masking.

(** Custom factors (the second notebook of the lesson 7 file). *)
Module CustomFactorPipelines.
Import Terms Engine CustomFactors.

Module StdDevPipeline.
Definition std_dev := StdDev [USEquityPricing.close] 30 None.
Definition make_pipeline : pipeline :=
  Pipeline {[ "std dev" := TFactor std_dev ]} None.
End StdDevPipeline.

Module CloseOpen.
Definition close_open_diff := ThirtyDayMeanDifference None None None.
Definition make_pipeline : pipeline :=
  Pipeline {[ "close-open diff" := TFactor close_open_diff ]} None.
End CloseOpen.

Module HighLow.
Definition high_low_diff :=
  ThirtyDayMeanDifference (Some [USEquityPricing.high; USEquityPricing.low]) None None.
Definition make_pipeline : pipeline :=
  Pipeline {[ "high-low diff" := TFactor high_low_diff ]} None.
End HighLow.

Module MomentumPipeline.
Definition thirty_day_momentum := Momentum 30 None.
Definition sixty_day_momentum := Momentum 60 None.
Definition positive_momentum :=
  And (Compare OpGe thirty_day_momentum 0) (Compare OpGe sixty_day_momentum 0).
Definition std_dev := StdDev [USEquityPricing.close] 5 None.
Definition make_pipeline : pipeline :=
  Pipeline {[ "std dev" := TFactor std_dev;
              "thirty day momentum" := TFactor thirty_day_momentum;
              "sixty day momentum" := TFactor sixty_day_momentum ]}
           (Some positive_momentum).
End MomentumPipeline.

End CustomFactorPipelines.

(** Putting it all together (lesson 11). *)
Module PuttingItAllTogether.
Import Terms Engine Builtins.
Section Lesson.
Context (lib : Library).

Definition primary_share := IsPrimaryShare.
Definition common_stock :=
  StringTest (String.eqb "ST00000001") Fundamentals.security_type.
Definition not_depositary := Not (LatestFilter Fundamentals.is_depositary_receipt).
Definition not_otc := Not (StringTest (String.prefix "OTC") Fundamentals.exchange_id).
Definition not_wi := Not (StringTest (endswith ".WI") Fundamentals.symbol).
Definition not_lp_name :=
  Not (StringTest (regex_matches lib ".* L[. ]?P.?$") Fundamentals.standard_name).
Definition not_lp_balance_sheet := IsNull (Latest Fundamentals.limited_partnership).
Definition have_market_cap := NotNull (Latest Fundamentals.market_cap).

Definition tradeable_stocks :=
  And (And (And (And (And (And (And primary_share common_stock) not_depositary)
    not_otc) not_wi) not_lp_name) not_lp_balance_sheet) have_market_cap.

End Lesson.

(** The first pipeline: the top tenth of the tradeable stocks by dollar volume. *)
Module BaseUniverse.
Section Lesson.
Context (lib : Library).
Definition base_universe :=
  PercentileBetween 90 100
    (AverageDollarVolume lib 30 (Some (tradeable_stocks lib))) None.
Definition make_pipeline : pipeline :=
  Pipeline {[ "base universe" := TFilter base_universe ]} (Some base_universe).
End Lesson.
End BaseUniverse.

(** The second pipeline, on the built-in universe. *)
Module BuiltinUniverse.
Definition base_universe := QTradableStocksUS.
Definition make_pipeline : pipeline :=
  Pipeline {[ "QTradableStockUS" := TFilter base_universe ]} (Some base_universe).
End BuiltinUniverse.

(** The final long/short pipeline. *)
Module LongShort.
Section Lesson.
Context (lib : Library).

Definition base_universe := QTradableStocksUS.
Definition mean_30 :=
  SimpleMovingAverage lib [USEquityPricing.close] 30 (Some base_universe).
Definition mean_60 :=
  SimpleMovingAverage lib [USEquityPricing.close] 60 (Some base_universe).
Definition percent_difference := BinOp OpDiv (BinOp OpSub mean_30 mean_60) mean_60.
Definition shorts := Top 50 percent_difference None.
Definition longs := Bottom 50 percent_difference None.
Definition securities_to_trade := Or shorts longs.

Definition make_pipeline : pipeline :=
  Pipeline {[ "longs" := TFilter longs; "shorts" := TFilter shorts ]}
           (Some securities_to_trade).

End Lesson.
End LongShort.

End PuttingItAllTogether.

(** ** Signs and classes of binary64 values

    The sign facts about the custom factors are read on the specification
    of the floating-point operations ([spec_float]). *)

Module Binary64.

(** Zero of either sign, or a positive number or infinity: [0 <= x]. *)
Definition sf_nonneg (x : spec_float) : bool :=
  match x with
  | S754_zero _ => true
  | S754_infinity s | S754_finite s _ _ => negb s
  | S754_nan => false
  end.

Definition sf_pos_finite (x : spec_float) : bool :=
  match x with S754_finite false _ _ => true | _ => false end.

Definition sf_finite (x : spec_float) : bool :=
  match x with S754_zero _ | S754_finite _ _ _ => true | _ => false end.

Definition sf_is_zero (x : spec_float) : bool :=
  match x with S754_zero _ => true | _ => false end.

Definition sf_neg_zero (x : spec_float) : bool :=
  match x with S754_zero true => true | _ => false end.

Definition is_neg_zero (x : float) : bool := sf_neg_zero (Prim2SF x).

(** The same infinity twice: the one case of [x <= y] in which [y - x] is
    [NaN]. *)
Definition same_infinity (x y : float) : bool :=
  (is_infinity x && (x =? y))%float.

(** A price: a finite number above zero. *)
Definition positive_price (x : float) : bool :=
  ((0 <? x) && (x <? infinity))%float.

End Binary64.

(** ** The order of binary64 values

    [top] and [bottom] rank by the order of the floats; the ranks are read
    on a key that places every value that is not [NaN]. *)

Module Order64.

(** The place of a value in the order of the floats: the class (negative
    infinity, negative, zero, positive, positive infinity), then exponent and
    mantissa, counted downwards for the negative numbers. *)
Definition sf_key (x : spec_float) : Z * Z * Z :=
  match x with
  | S754_zero _ | S754_nan => (0, 0, 0)
  | S754_infinity s => (if s then -2 else 2, 0, 0)
  | S754_finite s m e => if s then (-1, - e, - Zpos m) else (1, e, Zpos m)
  end.

(** The lexicographic order of the keys. *)
Definition key_lt (a b : Z * Z * Z) : Prop :=
  a.1.1 < b.1.1
  \/ (a.1.1 = b.1.1 /\ (a.1.2 < b.1.2 \/ (a.1.2 = b.1.2 /\ a.2 < b.2))).

(** The key of a float. *)
Definition key (x : float) : Z * Z * Z := sf_key (Prim2SF x).

End Order64.

(** ** Data for the examples

    A small database and stand-ins for the functions of the library, on
    which the pipelines of the notebooks run. *)

Module Examples.
Import numpy Terms Engine CustomFactors.

(** [nanmean] of the single input, as the moving average of the library. *)
Definition mean_compute : Compute :=
  call1 (fun _ _ out a => setitem_all out (nanmean_axis0 a)).

(** The mean over the window of close times volume. *)
Definition dollar_volume_compute : Compute :=
  call2 (fun _ _ out c v =>
           setitem_all out
             (nanmean_axis0 (mk_ndarray2 (result_order c v) (shape1 c)
                               (zip_with mul1 (rows c) (rows v))))).

(** The share of the values that are at most [v], read in percent. *)
Definition percentile_share (lo hi : float) (vs : list float) (v : float) : bool :=
  let k := of_count (length (filter (fun x => (x <=? v)%float = true) vs)) in
  let n := of_count (length vs) in
  ((lo * n <=? 100 * k) && (100 * k <=? hi * n))%float.

Definition library : Library := {|
  SimpleMovingAverage_compute := mean_compute;
  AverageDollarVolume_compute := dollar_volume_compute;
  percentile_test := percentile_share;
  regex_matches := fun _ _ => false
|}.

Definition of_Z (z : Z) : float := PrimFloat.of_uint63 (Uint63.of_Z z).

(** Three securities; the close of asset [a] on day [d] is [100 + a * d], its
    open one less, its volume [1000]; the built-in universe leaves asset 21
    out. *)
Definition small : DataBase := {|
  securities := fun _ => [2; 21; 24];
  cell := fun c d a =>
    if decide (c = USEquityPricing.close) then Float (of_Z (100 + a * d))
    else if decide (c = USEquityPricing.open) then Float (of_Z (99 + a * d))
    else if decide (c = USEquityPricing.volume) then Float 1000
    else Null;
  builtin := fun _ _ a => bool_decide (a <> 21)
|}.

(** A hundred and one securities; every column holds the same series, which
    for asset [a] is [100 + a * d] on day [d]: the closes grow at different
    paces, so that the percent differences are pairwise apart. *)
Definition wide : DataBase := {|
  securities := fun _ => seqZ 1 101;
  cell := fun _ d a => Float (of_Z (100 + a * d));
  builtin := fun _ _ _ => true
|}.

(** A hundred and one securities with the same flat series. *)
Definition flat : DataBase := {|
  securities := fun _ => seqZ 1 101;
  cell := fun _ _ _ => Float 100;
  builtin := fun _ _ _ => true
|}.

(** A window of two days over one asset whose close falls from [2] to the
    least positive number. *)
Definition collapse : ndarray2 := mk_ndarray2 F_order 1 [[2%float]; [0x1p-1074%float]].

(** Windows of three days over two assets. *)
Definition closes : ndarray2 :=
  mk_ndarray2 F_order 2 [[1; 2]; [3; nan]; [5; 1]]%float.
Definition opens : ndarray2 :=
  mk_ndarray2 F_order 2 [[1; 2]; [3; 3]; [0.5; 1]]%float.
Definition highs : ndarray2 :=
  mk_ndarray2 F_order 2 [[2; 2]; [3.5; 4]; [5; 1]]%float.
Definition lows : ndarray2 :=
  mk_ndarray2 F_order 2 [[1; 2]; [3; 3]; [0.5; 1]]%float.

Definition no_table : Table := {| table_columns := ∅; table_rows := [] |}.

(** The tables of some runs on day 100. *)
Definition universe_table : Table :=
  Eval vm_compute in
    default no_table
      (run_pipeline library small PuttingItAllTogether.BuiltinUniverse.make_pipeline 100 100).

Definition difference_table : Table :=
  Eval vm_compute in
    default no_table
      (run_pipeline library small (CombiningFactors.make_pipeline library) 100 100).

End Examples.

(** ** More data for the examples *)

Module Cases.
Import numpy Terms Engine CustomFactors Examples.

(** Windows of three days over two assets: in [no_closes] the first asset
    has no close at all; in [there_and_back] it ends where it started. *)
Definition no_closes : ndarray2 :=
  mk_ndarray2 F_order 2 [[nan; 2]; [nan; 3]; [nan; 1]]%float.
Definition there_and_back : ndarray2 :=
  mk_ndarray2 F_order 2 [[5; 2]; [7; 3]; [5; 1]]%float.

(** A window of no day over two assets. *)
Definition no_day : ndarray2 := mk_ndarray2 F_order 2 [].

(** Windows of nine days over two assets, as the library hands them over.
    The first asset is worth [2^53] on the first day, nothing on the second,
    [1] on the third and the fourth, and nothing afterwards; the second one
    has no price on the last day. *)
Definition nine_days : ndarray2 :=
  mk_ndarray2 F_order 2
    [[0x1p53; 1]; [0; 2]; [1; 3]; [1; 4]; [0; 5]; [0; 6]; [0; 7]; [0; 8];
     [0; nan]]%float.
Definition nine_zeros : ndarray2 :=
  mk_ndarray2 F_order 2
    [[0; 0]; [0; 0]; [0; 0]; [0; 0]; [0; 0]; [0; 0]; [0; 0]; [0; 0]; [0; 0]]%float.

(** The same nine days laid out row after row. *)
Definition nine_days_by_row : ndarray2 := mk_ndarray2 C_order 2 (rows nine_days).
Definition nine_zeros_by_row : ndarray2 := mk_ndarray2 C_order 2 (rows nine_zeros).

(** A window of two days over one asset whose price is [+inf]. *)
Definition endless : ndarray2 := mk_ndarray2 F_order 1 [[infinity]; [infinity]].

(** Windows of three days over one asset, the high missing on the second
    day. *)
Definition gapped_highs : ndarray2 := mk_ndarray2 F_order 1 [[3]; [nan]; [4.5]]%float.
Definition gapped_lows : ndarray2 := mk_ndarray2 F_order 1 [[1]; [1]; [1]]%float.

(** The small database with the fundamentals of common stocks listed on an
    exchange. *)
Definition listed : DataBase := {|
  securities := fun _ => [2; 21; 24];
  cell := fun c d a =>
    if decide (c = USEquityPricing.close) then Float (of_Z (100 + a * d))
    else if decide (c = USEquityPricing.volume) then Float 1000
    else if decide (c = Fundamentals.security_type) then Text "ST00000001"
    else if decide (c = Fundamentals.is_depositary_receipt) then Boolean false
    else if decide (c = Fundamentals.exchange_id) then Text "NYS"
    else if decide (c = Fundamentals.symbol) then Text "ABC"
    else if decide (c = Fundamentals.standard_name) then Text "ABC CORP"
    else if decide (c = Fundamentals.market_cap) then Float 1000000
    else Null;
  builtin := fun _ _ _ => true
|}.

(** Whether a run over one day returns a table that has a row for each
    asset of a list. *)
Definition emits (db : DataBase) (p : pipeline) (d : date) (l : list asset) : bool :=
  match run_pipeline library db p d d with
  | Some t =>
      forallb (fun a => existsb (fun r => (r.1 =? d) && (r.2 =? a)) (index t)) l
  | None => false
  end.

End Cases.

(** * Proofs *)

Import Binary64 Engine.

(** ** Binary64: signs through rounding *)

Lemma Prim2SF_zero : Prim2SF 0 = S754_zero false.
Proof. reflexivity. Qed.

Lemma leb_zero_nonneg (v : float) : (0 <=? v)%float = sf_nonneg (Prim2SF v).
Proof.
  rewrite FloatAxioms.leb_spec, Prim2SF_zero.
  destruct (Prim2SF v) as [s|s| |s m e]; try destruct s; reflexivity.
Qed.

(** Right shifts keep a mantissa that is not negative so. *)
Lemma shr_1_nonneg mrs : 0 <= shr_m mrs -> 0 <= shr_m (shr_1 mrs).
Proof.
  destruct mrs as [m r s]; simpl.
  destruct m as [|p|p]; [| destruct p | lia]; simpl; lia.
Qed.

Lemma iter_shr_1_nonneg n : forall mrs,
  0 <= shr_m mrs -> 0 <= shr_m (SpecFloat.iter_pos shr_1 n mrs).
Proof.
  induction n as [n IH|n IH|]; intros mrs H; simpl.
  - apply IH, IH, shr_1_nonneg, H.
  - apply IH, IH, H.
  - apply shr_1_nonneg, H.
Qed.

Lemma shr_m_record_of_loc m l : shr_m (shr_record_of_loc m l) = m.
Proof. destruct l as [|[]]; reflexivity. Qed.

Lemma shr_fexp_nonneg m e l :
  0 <= m -> 0 <= shr_m (fst (shr_fexp prec emax m e l)).
Proof.
  intros H. unfold shr_fexp, shr.
  destruct (fexp prec emax (Zdigits2 m + e) - e) as [|n|n]; simpl;
    rewrite ?shr_m_record_of_loc; try assumption.
  apply iter_shr_1_nonneg. now rewrite shr_m_record_of_loc.
Qed.

Lemma round_nearest_even_nonneg m l : 0 <= m -> 0 <= round_nearest_even m l.
Proof.
  intros H. destruct l as [|[]]; simpl; try lia.
  destruct (Z.even m); lia.
Qed.

(** Rounding a mantissa that is not negative gives the sign it was given. *)
Lemma binary_round_aux_sign s m e l :
  0 <= m ->
  match binary_round_aux prec emax s m e l with
  | S754_zero s' | S754_infinity s' | S754_finite s' _ _ => s' = s
  | S754_nan => False
  end.
Proof.
  intros H. unfold binary_round_aux.
  pose proof (shr_fexp_nonneg m e l H) as H1.
  destruct (shr_fexp prec emax m e l) as [mrs' e']. simpl in H1.
  pose proof (shr_fexp_nonneg _ e' loc_Exact
                (round_nearest_even_nonneg _ (loc_of_shr_record mrs') H1)) as H2.
  destruct (shr_fexp prec emax _ e' loc_Exact) as [mrs'' e'']. simpl in H2.
  destruct (shr_m mrs'') as [|p|p]; [reflexivity| |lia].
  destruct (e'' <=? emax - prec); reflexivity.
Qed.

Lemma binary_round_sign s m e :
  match binary_round prec emax s m e with
  | S754_zero s' | S754_infinity s' | S754_finite s' _ _ => s' = s
  | S754_nan => False
  end.
Proof.
  unfold binary_round.
  destruct (shl_align m e _) as [mz ez].
  apply binary_round_aux_sign. lia.
Qed.


(** *** Division *)

Lemma div_core_nonneg m1 e1 m2 e2 :
  0 <= fst (fst (SFdiv_core_binary prec emax (Zpos m1) e1 (Zpos m2) e2)).
Proof.
  unfold SFdiv_core_binary.
  set (s := _ - _ - _).
  set (m' := match s with Zpos _ => _ | Z0 => _ | Zneg _ => _ end).
  assert (Hm : 0 <= m').
  { subst m'. destruct s; try lia. apply Z.shiftl_nonneg. lia. }
  pose proof (Z_div_mod m' (Zpos m2) ltac:(lia)) as H.
  destruct (Z.div_eucl m' (Zpos m2)) as [q r]. simpl. nia.
Qed.

Lemma SFdiv_nonneg x y :
  sf_nonneg x = true -> sf_pos_finite y = true ->
  sf_nonneg (SFdiv prec emax x y) = true.
Proof.
  destruct x as [sx|[]| |[] mx ex]; destruct y as [sy|sy| |[] my ey];
    try discriminate; intros _ _; try reflexivity.
  all: try (destruct sx; reflexivity).
  unfold SFdiv.
    pose proof (div_core_nonneg mx ex my ey) as H.
    destruct (SFdiv_core_binary _ _ _ _ _ _) as [[mz ez] lz]. simpl in H.
    pose proof (binary_round_aux_sign (xorb false false) mz ez lz H) as Hs.
    destruct (binary_round_aux _ _ _ _ _ _); simpl in *; subst; tauto.
Qed.

(** *** Addition of values that are not negative *)

Lemma binary_normalize_pos_nonneg p e :
  sf_nonneg (binary_normalize prec emax (Zpos p) e false) = true.
Proof.
  simpl. pose proof (binary_round_sign false p e) as Hs.
  destruct (binary_round _ _ _ _ _); simpl in *; subst; tauto.
Qed.

Lemma SFadd_nonneg x y :
  sf_nonneg x = true -> sf_nonneg y = true ->
  sf_nonneg (SFadd prec emax x y) = true.
Proof.
  destruct x as [sx|[]| |[] mx ex]; destruct y as [sy|[]| |[] my ey];
    try discriminate; intros _ _; try reflexivity.
  all: try (destruct sx, sy; reflexivity).
  unfold SFadd. simpl cond_Zopp. apply binary_normalize_pos_nonneg.
Qed.


(** *** Rounding does not flush to zero above the least exponent *)

Abbreviation emin := (SpecFloat.emin prec emax).

Lemma digits2_pos_bounds p :
  2 ^ (Zpos (digits2_pos p) - 1) <= Zpos p < 2 ^ Zpos (digits2_pos p).
Proof.
  induction p as [p IH|p IH|]; simpl digits2_pos.
  - rewrite Pos2Z.inj_succ.
    replace (Z.succ (Zpos (digits2_pos p)) - 1) with (Z.succ (Zpos (digits2_pos p) - 1)) by lia.
    rewrite !Z.pow_succ_r by lia. lia.
  - rewrite Pos2Z.inj_succ.
    replace (Z.succ (Zpos (digits2_pos p)) - 1) with (Z.succ (Zpos (digits2_pos p) - 1)) by lia.
    rewrite !Z.pow_succ_r by lia. lia.
  - simpl. lia.
Qed.

Lemma shr_1_div2 mrs : 0 <= shr_m mrs -> shr_m (shr_1 mrs) = shr_m mrs / 2.
Proof.
  destruct mrs as [m r s]; simpl.
  destruct m as [|p|p]; [reflexivity| |lia]; intros _.
  destruct p as [p|p|]; simpl shr_m.
  - rewrite Pos2Z.inj_xI. apply Z.div_unique with 1; lia.
  - rewrite Pos2Z.inj_xO. apply Z.div_unique with 0; lia.
  - reflexivity.
Qed.

Lemma iter_shr_1_div n : forall mrs,
  0 <= shr_m mrs ->
  shr_m (SpecFloat.iter_pos shr_1 n mrs) = shr_m mrs / 2 ^ Zpos n.
Proof.
  induction n as [n IH|n IH|]; intros mrs H; simpl SpecFloat.iter_pos.
  - rewrite IH by (apply iter_shr_1_nonneg, shr_1_nonneg, H).
    rewrite IH by (apply shr_1_nonneg, H).
    rewrite shr_1_div2 by exact H.
    rewrite !Z.div_div by lia.
    f_equal. rewrite <- Z.pow_add_r by lia.
    rewrite <- (Z.pow_1_r 2) at 1. rewrite <- Z.pow_add_r by lia. f_equal. lia.
  - rewrite IH by (apply iter_shr_1_nonneg, H).
    rewrite IH by exact H.
    rewrite Z.div_div by lia.
    f_equal. rewrite <- Z.pow_add_r by lia. f_equal. lia.
  - rewrite shr_1_div2 by exact H. reflexivity.
Qed.

Lemma shr_fexp_pos m e l :
  emin <= e ->
  0 < shr_m (fst (shr_fexp prec emax (Zpos m) e l))
  /\ emin <= snd (shr_fexp prec emax (Zpos m) e l).
Proof.
  intros He. unfold shr_fexp, shr, fexp. fold emin.
  simpl Zdigits2.
  pose proof (digits2_pos_bounds m) as [Hlo _].
  set (D := Zpos (digits2_pos m)) in *.
  destruct (Z.max (D + e - prec) emin - e) as [|n|n] eqn:Hn; simpl;
    rewrite ?shr_m_record_of_loc; try lia.
  assert (Zpos n = D - prec) as En by lia.
  rewrite iter_shr_1_div by (rewrite shr_m_record_of_loc; lia).
  rewrite shr_m_record_of_loc, En. split; [|lia].
  apply Z.lt_le_trans with (2 ^ (prec - 1)).
  - reflexivity.
  - apply Z.div_le_lower_bound.
    + apply Z.pow_pos_nonneg; lia.
    + unfold prec in *. rewrite <- Z.pow_add_r by lia.
      replace (D - 53 + (53 - 1)) with (D - 1) by lia. exact Hlo.
Qed.

Lemma round_nearest_even_pos m l : 0 < m -> 0 < round_nearest_even m l.
Proof.
  intros H. destruct l as [|[]]; simpl; try lia.
  destruct (Z.even m); lia.
Qed.

Lemma binary_round_aux_not_zero s m e l :
  emin <= e ->
  sf_is_zero (binary_round_aux prec emax s (Zpos m) e l) = false.
Proof.
  intros He. unfold binary_round_aux.
  pose proof (shr_fexp_pos m e l He) as [H1 H1e].
  destruct (shr_fexp prec emax (Z.pos m) e l) as [mrs' e']. simpl in H1, H1e.
  pose proof (round_nearest_even_pos _ (loc_of_shr_record mrs') H1) as Hr.
  destruct (round_nearest_even (shr_m mrs') (loc_of_shr_record mrs')) as [|r|r]; try lia.
  pose proof (shr_fexp_pos r e' loc_Exact H1e) as [H2 _].
  destruct (shr_fexp prec emax (Z.pos r) e' loc_Exact) as [mrs'' e'']. simpl in H2.
  destruct (shr_m mrs'') as [|p|p]; try lia.
  destruct (e'' <=? emax - prec); reflexivity.
Qed.

Lemma binary_round_not_zero s m e :
  emin <= e -> sf_is_zero (binary_round prec emax s m e) = false.
Proof.
  intros He. unfold binary_round, shl_align.
  set (f := fexp prec emax (Zpos (digits2_pos m) + e)).
  assert (Hf : emin <= f) by (subst f; unfold fexp; fold emin; lia).
  destruct (f - e) as [|d|d]; apply binary_round_aux_not_zero; assumption.
Qed.

(** The exponent of a valid finite number is at least [emin]. *)
Lemma valid_finite_emin s m e :
  valid_binary (S754_finite s m e) = true -> emin <= e.
Proof.
  simpl. unfold bounded, canonical_mantissa, fexp. fold emin.
  intros H. apply andb_prop in H as [H _]. apply Z.eqb_eq in H. lia.
Qed.

(** A sum is the negative zero only when both terms are. *)
Lemma SFadd_neg_zero x y :
  valid_binary x = true -> valid_binary y = true ->
  sf_neg_zero x = false ->
  sf_neg_zero (SFadd prec emax x y) = false.
Proof.
  intros Vx Vy.
  destruct x as [[]|[]| |sx mx ex]; destruct y as [[]|[]| |sy my ey];
    try discriminate; intros _; try reflexivity.
  unfold SFadd.
  apply valid_finite_emin in Vx, Vy.
  set (ez := Z.min ex ey). assert (emin <= ez) by lia.
  destruct (_ + _) as [|p|p]; try reflexivity; simpl binary_normalize.
  - pose proof (binary_round_not_zero false p ez ltac:(assumption)).
    destruct (binary_round _ _ _ _ _) as [[]| | |]; try reflexivity; discriminate.
  - pose proof (binary_round_not_zero true p ez ltac:(assumption)).
    destruct (binary_round _ _ _ _ _) as [[]| | |]; try reflexivity; discriminate.
Qed.

Lemma SFadd_zero_r x :
  sf_neg_zero x = false -> SFadd prec emax x (S754_zero false) = x.
Proof. destruct x as [[]|[]| |sx mx ex]; try discriminate; reflexivity. Qed.

Lemma add_zero_r (x : float) : is_neg_zero x = false -> (x + 0)%float = x.
Proof.
  intros H. apply Prim2SF_inj. rewrite FloatAxioms.add_spec.
  change (Prim2SF 0) with (S754_zero false). now apply SFadd_zero_r.
Qed.

Lemma add_not_neg_zero (x y : float) :
  is_neg_zero x = false -> is_neg_zero (x + y) = false.
Proof.
  intros H. unfold is_neg_zero. rewrite FloatAxioms.add_spec.
  apply SFadd_neg_zero; auto using Prim2SF_valid.
Qed.


(** *** Subtraction of a smaller value *)

Lemma iter_xO_pow m d : Zpos (Pos.iter xO m d) = Zpos m * 2 ^ Zpos d.
Proof.
  induction d as [|d IH] using Pos.peano_ind.
  - simpl. lia.
  - rewrite Pos.iter_succ, Pos2Z.inj_xO, IH, Pos2Z.inj_succ, Z.pow_succ_r by lia. lia.
Qed.

Lemma shl_align_value m e e' :
  e' <= e -> Zpos (fst (shl_align m e e')) = Zpos m * 2 ^ (e - e').
Proof.
  intros H. unfold shl_align.
  destruct (e' - e) as [|d|d] eqn:E; simpl fst; try lia.
  - replace (e - e') with 0 by lia. lia.
  - rewrite iter_xO_pow. f_equal. f_equal. lia.
Qed.

Lemma valid_finite_mantissa s m e :
  valid_binary (S754_finite s m e) = true ->
  Zpos m < 2 ^ prec /\ (emin < e -> 2 ^ (prec - 1) <= Zpos m).
Proof.
  simpl. unfold bounded, canonical_mantissa, fexp. fold emin.
  intros H. apply andb_prop in H as [H _]. apply Z.eqb_eq in H.
  pose proof (digits2_pos_bounds m) as [Hlo Hhi].
  set (D := Zpos (digits2_pos m)) in *. split.
  - apply Z.lt_le_trans with (2 ^ D); [exact Hhi|].
    apply Z.pow_le_mono_r; lia.
  - intros He. assert (D = prec) as <- by lia. exact Hlo.
Qed.

(** With a larger exponent, a valid number has the larger aligned mantissa. *)
Lemma valid_exponent_lt s1 m1 e1 s2 m2 e2 :
  valid_binary (S754_finite s1 m1 e1) = true ->
  valid_binary (S754_finite s2 m2 e2) = true ->
  e2 < e1 -> Zpos m2 < Zpos m1 * 2 ^ (e1 - e2).
Proof.
  intros V1 V2 H.
  pose proof (valid_finite_emin _ _ _ V2) as He2.
  apply valid_finite_mantissa in V1 as [_ V1], V2 as [V2 _].
  specialize (V1 ltac:(lia)).
  assert (2 ^ 1 <= 2 ^ (e1 - e2)) by (apply Z.pow_le_mono_r; lia).
  change (2 ^ 1) with 2 in *.
  assert (2 ^ prec = 2 ^ (prec - 1) * 2) by reflexivity.
  nia.
Qed.

Lemma SFsub_nonneg x y :
  valid_binary x = true -> valid_binary y = true ->
  sf_finite x = true -> sf_finite y = true ->
  SFleb y x = true ->
  sf_nonneg (SFsub prec emax x y) = true.
Proof.
  intros Vx Vy Fx Fy.
  destruct x as [sx| | |sx mx ex]; destruct y as [sy| | |sy my ey];
    try discriminate; clear Fx Fy.
  - intros _. destruct sx, sy; reflexivity.
  - unfold SFleb; simpl. destruct sy; [reflexivity|discriminate].
  - unfold SFleb; simpl. destruct sx; [discriminate|reflexivity].
  - unfold SFleb, SFsub. simpl SFcompare.
    set (ez := Z.min ex ey).
    rewrite !shl_align_value by lia.
    intros Hc.
    assert (Hd : 0 <= cond_Zopp sx (Zpos mx * 2 ^ (ex - ez))
                      - cond_Zopp sy (Zpos my * 2 ^ (ey - ez))).
    { assert (0 < 2 ^ (ex - ez)) by (apply Z.pow_pos_nonneg; lia).
      assert (0 < 2 ^ (ey - ez)) by (apply Z.pow_pos_nonneg; lia).
      change PosDef.Pos.compare_cont with Pos.compare_cont in Hc.
      rewrite !Pos.compare_cont_spec in Hc. simpl Pos.switch_Eq in Hc.
      destruct sx, sy; simpl cond_Zopp; try discriminate Hc; try nia.
      - destruct (Z.compare_spec ey ex) as [E|E|E]; try discriminate Hc.
        + subst ey. replace (ex - ez) with 0 by lia.
          destruct (Pos.compare_spec my mx) as [E'|E'|E']; try discriminate Hc; lia.
        + pose proof (valid_exponent_lt _ _ _ _ _ _ Vy Vx E).
          replace ez with ex in * by lia. rewrite Z.sub_diag. lia.
      - destruct (Z.compare_spec ey ex) as [E|E|E]; try discriminate Hc.
        + subst ey. replace (ex - ez) with 0 by lia.
          destruct (Pos.compare_spec my mx) as [E'|E'|E']; try discriminate Hc; lia.
        + pose proof (valid_exponent_lt _ _ _ _ _ _ Vx Vy E).
          replace ez with ey in * by lia. rewrite Z.sub_diag. lia. }
    destruct (_ - _) as [|p|p]; [reflexivity| |lia].
    apply binary_normalize_pos_nonneg.
Qed.


(** *** Counts as floats *)

Lemma digits2_pos_le p k : Zpos p < 2 ^ k -> Zpos (digits2_pos p) <= k.
Proof.
  intros H. pose proof (digits2_pos_bounds p) as [Hlo _].
  destruct (Z.le_gt_cases (Zpos (digits2_pos p)) k) as [|Hk]; [assumption|].
  assert (2 ^ k <= 2 ^ (Zpos (digits2_pos p) - 1)).
  { destruct (Z.le_gt_cases 0 k).
    - apply Z.pow_le_mono_r; lia.
    - rewrite (Z.pow_neg_r 2 k) by lia. apply Z.pow_nonneg. lia. }
  lia.
Qed.

Lemma shr_fexp_bounds m e l k :
  emin <= e -> Zpos m < 2 ^ k ->
  0 < shr_m (fst (shr_fexp prec emax (Zpos m) e l)) <= Zpos m
  /\ emin <= snd (shr_fexp prec emax (Zpos m) e l) <= Z.max e (e + k - prec).
Proof.
  intros He Hk.
  pose proof (shr_fexp_pos m e l He) as [Hp He'].
  pose proof (digits2_pos_le m k Hk) as HD.
  revert Hp He'. unfold shr_fexp, shr, fexp. fold emin. simpl Zdigits2.
  set (D := Zpos (digits2_pos m)) in *.
  destruct (Z.max (D + e - prec) emin - e) as [|n|n] eqn:Hn; simpl;
    rewrite ?shr_m_record_of_loc; try lia.
  assert (Zpos n = D - prec) as En by lia.
  rewrite iter_shr_1_div by (rewrite shr_m_record_of_loc; lia).
  rewrite shr_m_record_of_loc. intros Hp He'.
  repeat split; try lia.
  apply Z.div_le_upper_bound.
  - apply Z.pow_pos_nonneg; lia.
  - assert (0 < 2 ^ Zpos n) by (apply Z.pow_pos_nonneg; lia). nia.
Qed.

Lemma round_nearest_even_le m l : round_nearest_even m l <= m + 1.
Proof. destruct l as [|[]]; simpl; try lia. destruct (Z.even m); lia. Qed.

Lemma binary_round_aux_finite m e l :
  emin <= e <= 0 -> Zpos m < 2 ^ 63 ->
  sf_pos_finite (binary_round_aux prec emax false (Zpos m) e l) = true.
Proof.
  intros He Hm. unfold binary_round_aux.
  pose proof (shr_fexp_bounds m e l 63 ltac:(lia) Hm) as [H1 H1e].
  destruct (shr_fexp prec emax (Z.pos m) e l) as [mrs' e']. simpl in H1, H1e.
  pose proof (round_nearest_even_pos (shr_m mrs') (loc_of_shr_record mrs') ltac:(lia)) as Hr.
  pose proof (round_nearest_even_le (shr_m mrs') (loc_of_shr_record mrs')) as Hr'.
  destruct (round_nearest_even (shr_m mrs') (loc_of_shr_record mrs')) as [|r|r]; try lia.
  assert (Hr64 : Zpos r < 2 ^ 64).
  { change (2 ^ 64) with (2 * 2 ^ 63). lia. }
  pose proof (shr_fexp_bounds r e' loc_Exact 64 ltac:(lia) Hr64) as [H2 H2e].
  destruct (shr_fexp prec emax (Z.pos r) e' loc_Exact) as [mrs'' e'']. simpl in H2, H2e.
  destruct (shr_m mrs'') as [|p|p]; try lia.
  assert (e'' <= emax - prec) as ->%Z.leb_le; [|reflexivity].
  unfold prec, emax in *. lia.
Qed.

Lemma binary_normalize_count p :
  Zpos p < 2 ^ 63 ->
  sf_pos_finite (binary_normalize prec emax (Zpos p) 0 false) = true.
Proof.
  intros Hp. simpl binary_normalize. unfold binary_round, shl_align.
  pose proof (digits2_pos_bounds p) as [Hlo Hhi].
  set (D := Zpos (digits2_pos p)) in *.
  assert (HD : 1 <= D) by (subst D; lia).
  unfold fexp. fold emin. rewrite Z.add_0_r.
  destruct (Z.max (D - prec) emin - 0) as [|d|d] eqn:Hd.
  - apply binary_round_aux_finite; [unfold SpecFloat.emin, prec, emax; lia|assumption].
  - apply binary_round_aux_finite; [unfold SpecFloat.emin, prec, emax; lia|assumption].
  - assert (Ed : Zpos d = prec - D).
    { unfold SpecFloat.emin, prec, emax in *. lia. }
    apply binary_round_aux_finite.
    + unfold SpecFloat.emin, prec, emax in *. lia.
    + rewrite iter_xO_pow, Ed. unfold prec in *.
      apply Z.lt_le_trans with (2 ^ D * 2 ^ (53 - D)).
      * apply Z.mul_lt_mono_pos_r; [apply Z.pow_pos_nonneg; lia|exact Hhi].
      * rewrite <- Z.pow_add_r by lia.
        apply Z.pow_le_mono_r; lia.
Qed.


(** *** The primitive floats *)

Lemma SFcompare_refl x : x <> S754_nan -> SFcompare x x = Some Eq.
Proof.
  destruct x as [s|s| |s m e]; try congruence; intros _; simpl.
  - reflexivity.
  - destruct s; reflexivity.
  - destruct s; rewrite Z.compare_refl;
      change PosDef.Pos.compare_cont with Pos.compare_cont;
      rewrite Pos.compare_cont_refl; reflexivity.
Qed.

Lemma SFcompare_antisym x y :
  SFcompare y x = option_map CompOpp (SFcompare x y).
Proof.
  destruct x as [sx|sx| |sx mx ex]; destruct y as [sy|sy| |sy my ey];
    simpl; try reflexivity; try (destruct sx; reflexivity);
    try (destruct sy; reflexivity); try (destruct sx, sy; reflexivity).
  change PosDef.Pos.compare_cont with Pos.compare_cont.
  rewrite (Z.compare_antisym ex ey).
  assert (Pos.compare_cont Eq my mx = CompOpp (Pos.compare_cont Eq mx my)) as ->
    by (rewrite Pos.compare_cont_antisym; reflexivity).
  destruct sx, sy; try reflexivity;
    destruct (ex ?= ey); simpl; try reflexivity;
    destruct (Pos.compare_cont Eq mx my); reflexivity.
Qed.

Lemma isnan_spec (x : float) : numpy.isnan x = true <-> Prim2SF x = S754_nan.
Proof.
  unfold numpy.isnan, is_nan. rewrite FloatAxioms.eqb_spec. unfold SFeqb.
  destruct (Prim2SF x) as [s|s| |s m e] eqn:E.
  all: try (rewrite SFcompare_refl by discriminate; simpl; split; discriminate).
  simpl. tauto.
Qed.

Lemma isnan_false_spec (x : float) :
  numpy.isnan x = false <-> Prim2SF x <> S754_nan.
Proof.
  rewrite <- isnan_spec. destruct (numpy.isnan x); split; congruence.
Qed.

Lemma is_finite_spec (x : float) : is_finite x = sf_finite (Prim2SF x).
Proof.
  unfold is_finite, is_infinity, is_nan. rewrite !FloatAxioms.eqb_spec, FloatAxioms.abs_spec.
  change (Prim2SF infinity) with (S754_infinity false). unfold SFeqb.
  destruct (Prim2SF x) as [s|s| |s m e] eqn:E;
    rewrite ?SFcompare_refl by discriminate; try destruct s; reflexivity.
Qed.

Lemma positive_price_spec (x : float) :
  positive_price x = sf_pos_finite (Prim2SF x).
Proof.
  unfold positive_price. rewrite !FloatAxioms.ltb_spec.
  change (Prim2SF infinity) with (S754_infinity false).
  change (Prim2SF 0) with (S754_zero false). unfold SFltb.
  destruct (Prim2SF x) as [s|s| |s m e]; try destruct s; reflexivity.
Qed.

Lemma of_count_positive (n : nat) :
  (0 < n)%nat -> Z.of_nat n < 2 ^ 63 ->
  sf_pos_finite (Prim2SF (numpy.of_count n)) = true.
Proof.
  intros Hn Hb. unfold numpy.of_count.
  rewrite FloatAxioms.of_uint63_spec, Uint63.of_Z_spec.
  rewrite Z.mod_small by (change wB with (2 ^ 63); lia).
  destruct (Z.of_nat n) as [|p|p] eqn:E; try lia.
  now apply binary_normalize_count.
Qed.

Lemma nonneg_not_nan (x : float) : (0 <=? x)%float = true -> numpy.isnan x = false.
Proof.
  rewrite leb_zero_nonneg, isnan_false_spec.
  destruct (Prim2SF x); simpl; congruence.
Qed.

Lemma div_nonneg (x y : float) :
  (0 <=? x)%float = true -> sf_pos_finite (Prim2SF y) = true ->
  (0 <=? x / y)%float = true.
Proof.
  rewrite !leb_zero_nonneg, FloatAxioms.div_spec. apply SFdiv_nonneg.
Qed.

Lemma add_nonneg (x y : float) :
  (0 <=? x)%float = true -> (0 <=? y)%float = true -> (0 <=? x + y)%float = true.
Proof.
  rewrite !leb_zero_nonneg, FloatAxioms.add_spec. apply SFadd_nonneg.
Qed.

Lemma sub_nonneg (x y : float) :
  is_finite x = true -> is_finite y = true -> (y <=? x)%float = true ->
  (0 <=? x - y)%float = true.
Proof.
  rewrite !is_finite_spec, FloatAxioms.leb_spec, leb_zero_nonneg, FloatAxioms.sub_spec.
  apply SFsub_nonneg; apply Prim2SF_valid.
Qed.

Lemma is_infinity_spec (x : float) :
  is_infinity x = match Prim2SF x with S754_infinity _ => true | _ => false end.
Proof.
  unfold is_infinity. rewrite FloatAxioms.eqb_spec, FloatAxioms.abs_spec.
  change (Prim2SF infinity) with (S754_infinity false). unfold SFeqb.
  destruct (Prim2SF x) as [s|s| |s m e] eqn:E;
    rewrite ?SFcompare_refl by discriminate; try destruct s; reflexivity.
Qed.

(** [y <= x], and not the same infinity: [x - y] is not negative. *)
Lemma sub_nonneg_apart (x y : float) :
  (y <=? x)%float = true -> same_infinity y x = false ->
  (0 <=? x - y)%float = true.
Proof.
  unfold same_infinity.
  rewrite is_infinity_spec, FloatAxioms.eqb_spec, FloatAxioms.leb_spec,
    leb_zero_nonneg, FloatAxioms.sub_spec.
  pose proof (Prim2SF_valid x) as Vx. pose proof (Prim2SF_valid y) as Vy.
  destruct (Prim2SF x) as [sx|sx| |sx mx ex] eqn:Ex;
    destruct (Prim2SF y) as [sy|sy| |sy my ey] eqn:Ey;
    try (intros Hle _; apply SFsub_nonneg; auto; fail);
    try (intros Hle; discriminate Hle);
    unfold SFleb, SFeqb, SF64sub, SFsub; simpl;
    try destruct sx; try destruct sy; simpl; congruence.
Qed.

Lemma positive_price_nonneg (x : float) :
  positive_price x = true -> (0 <=? x)%float = true.
Proof.
  rewrite positive_price_spec, leb_zero_nonneg.
  destruct (Prim2SF x) as [s|s| |[] m e]; simpl; congruence.
Qed.

(** [NaN] spreads through the arithmetic operators. *)
Lemma binop_nan_l op (x y : float) :
  numpy.isnan x = true -> numpy.isnan (apply_binop op x y) = true.
Proof.
  rewrite !isnan_spec. intros H.
  destruct op; simpl; rewrite ?FloatAxioms.add_spec, ?FloatAxioms.sub_spec, ?FloatAxioms.mul_spec, ?FloatAxioms.div_spec, H;
    reflexivity.
Qed.

Lemma binop_nan_r op (x y : float) :
  numpy.isnan y = true -> numpy.isnan (apply_binop op x y) = true.
Proof.
  rewrite !isnan_spec. intros H.
  destruct op; simpl; rewrite ?FloatAxioms.add_spec, ?FloatAxioms.sub_spec, ?FloatAxioms.mul_spec, ?FloatAxioms.div_spec, H;
    destruct (Prim2SF x) as [s|s| |s m e]; reflexivity.
Qed.

(** The order of the floats is strict. *)
Lemma ltb_asym (x y : float) : (x <? y)%float = true -> (y <? x)%float = false.
Proof.
  rewrite !FloatAxioms.ltb_spec. unfold SFltb. rewrite (SFcompare_antisym (Prim2SF x) (Prim2SF y)).
  destruct (SFcompare (Prim2SF x) (Prim2SF y)) as [[]|]; simpl; congruence.
Qed.

Lemma tied_refl (x : float) : tied x x = true.
Proof.
  unfold tied. destruct (x <? x)%float eqn:E; [|reflexivity].
  pose proof (ltb_asym x x E). congruence.
Qed.

Lemma tied_sym (x y : float) : tied x y = tied y x.
Proof. unfold tied. apply andb_comm. Qed.


(** ** The additions of [pairwise_sum] *)

Section Pairwise.
Import numpy.

(** The halves of the recursion are shorter. *)
Lemma pairwise_half_bounds (n : nat) :
  (128 < n)%nat ->
  (0 < n / 2 - (n / 2) mod 8 < n)%nat.
Proof.
  intros Hn.
  pose proof (Nat.mod_upper_bound (n / 2) 8 ltac:(lia)).
  pose proof (Nat.Div0.div_lt_upper_bound n 2 n ltac:(lia)).
  assert (64 <= n / 2)%nat by (apply Nat.div_le_lower_bound; lia).
  lia.
Qed.

(** Any fuel at least the length gives the same sum. *)
Lemma pairwise_sum_rec_fuel : forall (f1 f2 : nat) (a : ndarray1),
  (length a <= f1)%nat -> (length a <= f2)%nat ->
  pairwise_sum_rec f1 a = pairwise_sum_rec f2 a.
Proof.
  induction f1 as [|f1 IH]; intros f2 a H1 H2.
  - destruct a; [|simpl in H1; lia]. destruct f2; reflexivity.
  - destruct f2 as [|f2].
    { destruct a; [|simpl in H2; lia]. reflexivity. }
    cbn [pairwise_sum_rec].
    destruct (length a <? 8)%nat; [reflexivity|].
    destruct (length a <=? 128)%nat eqn:E; [reflexivity|].
    apply Nat.leb_gt in E. pose proof (pairwise_half_bounds _ E) as Hb.
    f_equal; apply IH; rewrite ?length_take, ?length_drop; lia.
Qed.

(** The three cases of [pairwise_sum]. *)
Lemma pairwise_sum_short (a : ndarray1) :
  (length a < 8)%nat -> pairwise_sum a = fold_left PrimFloat.add a 0%float.
Proof.
  intros H. unfold pairwise_sum.
  destruct (length a) as [|n] eqn:E; cbn [pairwise_sum_rec]; rewrite E;
    apply Nat.ltb_lt in H; now rewrite H.
Qed.

Lemma pairwise_sum_block (a : ndarray1) :
  (8 <= length a <= 128)%nat -> pairwise_sum a = block_sum a.
Proof.
  intros [H1 H2]. unfold pairwise_sum.
  destruct (length a) as [|n] eqn:E; [lia|]. cbn [pairwise_sum_rec]. rewrite E.
  apply Nat.ltb_ge in H1. apply Nat.leb_le in H2. now rewrite H1, H2.
Qed.

Lemma pairwise_sum_halves (a : ndarray1) :
  (128 < length a)%nat ->
  pairwise_sum a
  = (pairwise_sum (take (length a / 2 - (length a / 2) mod 8) a)
     + pairwise_sum (drop (length a / 2 - (length a / 2) mod 8) a))%float.
Proof.
  intros H. pose proof (pairwise_half_bounds _ H) as Hb. unfold pairwise_sum at 1.
  destruct (length a) as [|n] eqn:E; [lia|]. cbn [pairwise_sum_rec]. rewrite E.
  assert (H8 : (S n <? 8)%nat = false) by (apply Nat.ltb_ge; lia).
  assert (H128 : (S n <=? 128)%nat = false) by (apply Nat.leb_gt; lia).
  rewrite H8, H128. unfold pairwise_sum.
  f_equal; apply pairwise_sum_rec_fuel; rewrite ?length_take, ?length_drop; lia.
Qed.

(** What holds of zero and of the sum of any two values it holds of, holds
    of the sums of such values, in whatever order they are added. *)
Section Closed.
Context (P : float -> Prop).
Context (P_zero : P 0%float).
Context (P_add : forall x y, P x -> P y -> P (x + y)%float).

Lemma fold_add_closed (xs : ndarray1) : forall acc,
  P acc -> Forall P xs -> P (fold_left PrimFloat.add xs acc).
Proof.
  induction xs as [|x xs IH]; intros acc Hacc Hxs; simpl; [exact Hacc|].
  apply Forall_cons in Hxs as [Hx Hxs]. apply IH; auto.
Qed.

Lemma zip_add_closed (r c : ndarray1) :
  Forall P r -> Forall P c -> Forall P (zip_with PrimFloat.add r c).
Proof.
  intros Hr. revert c. induction Hr as [|x r Hx Hr IH]; intros c Hc; [constructor|].
  destruct Hc as [|y c Hy Hc]; simpl; constructor; auto.
Qed.

Lemma accumulate8_closed (k : nat) : forall r a,
  Forall P r -> Forall P a -> Forall P (accumulate8 k r a).
Proof.
  induction k as [|k IH]; intros r a Hr Ha; simpl; [exact Hr|].
  apply IH.
  - apply zip_add_closed; [exact Hr|]. now apply Forall_take.
  - now apply Forall_drop.
Qed.

Lemma add8_closed (r : ndarray1) : Forall P r -> P (add8 r).
Proof.
  intros Hr. unfold add8.
  repeat (destruct Hr as [|? r ? Hr]; [exact P_zero|]).
  destruct Hr; auto 10.
Qed.

Lemma block_sum_closed (a : ndarray1) : Forall P a -> P (block_sum a).
Proof.
  intros Ha. unfold block_sum. apply fold_add_closed.
  - apply add8_closed, accumulate8_closed.
    + now apply Forall_take.
    + now apply Forall_drop.
  - now apply Forall_drop.
Qed.

Lemma pairwise_sum_rec_closed (fuel : nat) : forall a,
  Forall P a -> P (pairwise_sum_rec fuel a).
Proof.
  induction fuel as [|fuel IH]; intros a Ha; cbn [pairwise_sum_rec];
    destruct (length a <? 8)%nat; try (now apply fold_add_closed);
    destruct (length a <=? 128)%nat; try (now apply block_sum_closed).
  apply P_add; apply IH; [now apply Forall_take|now apply Forall_drop].
Qed.

Lemma column_sum_closed (pairwise : bool) (col : ndarray1) :
  Forall P col -> P (column_sum pairwise col).
Proof.
  intros H. unfold column_sum. destruct pairwise.
  - apply P_add; [exact P_zero|]. now apply pairwise_sum_rec_closed.
  - now apply fold_add_closed.
Qed.

End Closed.

(** Zero added to a value that is not the negative zero leaves it. *)
Lemma SFadd_zero_l x :
  sf_neg_zero x = false -> SFadd prec emax (S754_zero false) x = x.
Proof. destruct x as [[]|[]| |sx mx ex]; try discriminate; reflexivity. Qed.

Lemma add_zero_l (x : float) : is_neg_zero x = false -> (0 + x)%float = x.
Proof.
  intros H. apply Prim2SF_inj. rewrite FloatAxioms.add_spec.
  change (Prim2SF 0) with (S754_zero false). now apply SFadd_zero_l.
Qed.

(** A sum from a value that is not the negative zero is not it either. *)
Lemma fold_add_not_neg_zero (xs : ndarray1) : forall acc,
  is_neg_zero acc = false -> is_neg_zero (fold_left PrimFloat.add xs acc) = false.
Proof.
  induction xs as [|x xs IH]; intros acc Hacc; simpl; [exact Hacc|].
  apply IH. now apply add_not_neg_zero.
Qed.

(** Below 8 values the pairwise sum adds them one after the other. *)
Lemma column_sum_short (col : ndarray1) :
  (length col < 8)%nat -> column_sum true col = total col.
Proof.
  intros H. unfold column_sum. rewrite (pairwise_sum_short col H).
  apply add_zero_l. now apply fold_add_not_neg_zero.
Qed.

End Pairwise.


(** ** Reductions along axis 0, column by column *)

Section Axis0.
Import numpy.

(** Accumulating rows entry by entry accumulates each column. *)
Lemma fold_zip_with_lookup {A B} (f : A -> B -> A) (d : B) (N j : nat)
    (rs : list (list B)) :
  forall (acc : list A) (x : A),
    Forall (fun r => length r = N) rs -> length acc = N -> acc !! j = Some x ->
    fold_left (zip_with f) rs acc !! j
    = Some (fold_left f (map (fun r => nth j r d) rs) x).
Proof.
  induction rs as [|r rs IH]; intros acc x Hrs Hacc Hx; simpl.
  - exact Hx.
  - apply Forall_cons in Hrs as [Hr Hrs].
    assert (Hj : (j < length r)%nat).
    { rewrite Hr, <- Hacc. apply lookup_lt_is_Some. eauto. }
    apply lookup_lt_is_Some in Hj as [y Hy].
    apply IH; [assumption| |].
    + rewrite length_zip_with. lia.
    + rewrite lookup_zip_with, Hx, Hy. simpl.
      now rewrite (nth_lookup_Some _ _ _ _ Hy).
Qed.

(** [numpy.sum] along axis 0 sums each column, in the order the memory
    order of the array tells. *)
Lemma sum_axis0_lookup (a : ndarray2) (j : nat) :
  well_shaped a -> (j < shape1 a)%nat ->
  sum_axis0 a !! j = Some (column_sum (axis0_contiguous a) (column j a)).
Proof.
  intros Ha Hj. unfold sum_axis0. destruct (axis0_contiguous a).
  - change (map ?f ?l) with (f <$> l) at 1.
    rewrite list_lookup_fmap, lookup_seq_lt by exact Hj. reflexivity.
  - unfold add1, column, column_sum.
    apply fold_zip_with_lookup with (N := shape1 a); [exact Ha| |].
    + apply length_replicate.
    + now apply lookup_replicate_2.
Qed.

Lemma count_fold (col : ndarray1) : forall c,
  fold_left (fun c x => if isnan x then c else S c) col c
  = (c + length (drop_nan col))%nat.
Proof.
  unfold drop_nan.
  induction col as [|x col IH]; intros c; simpl; [lia|].
  rewrite IH, filter_cons. destruct (isnan x) eqn:E.
  - rewrite decide_False by congruence. reflexivity.
  - rewrite decide_True by reflexivity. simpl. lia.
Qed.

Lemma count_axis0_lookup (a : ndarray2) (j : nat) :
  well_shaped a -> (j < shape1 a)%nat ->
  count_axis0 a !! j = Some (length (drop_nan (column j a))).
Proof.
  intros Ha Hj. unfold count_axis0, count_row.
  rewrite (fold_zip_with_lookup _ nan (shape1 a) j _ _ 0%nat Ha).
  - now rewrite count_fold.
  - apply length_replicate.
  - now apply lookup_replicate_2.
Qed.

Lemma length_sum_axis0 (a : ndarray2) :
  well_shaped a -> length (sum_axis0 a) = shape1 a.
Proof.
  unfold sum_axis0, well_shaped. destruct (axis0_contiguous a).
  { intros _. now rewrite length_map, length_seq. }
  generalize (shape1 a) as N. intros N.
  assert (H : length (replicate N 0%float) = N) by apply length_replicate.
  revert H. generalize (replicate N 0%float) as acc.
  induction (rows a) as [|r rs IH]; intros acc Hacc Hrs; simpl; [exact Hacc|].
  apply Forall_cons in Hrs as [Hr Hrs].
  apply IH; [|exact Hrs]. unfold add1. rewrite length_zip_with. lia.
Qed.

Lemma length_count_axis0 (a : ndarray2) :
  well_shaped a -> length (count_axis0 a) = shape1 a.
Proof.
  unfold count_axis0, well_shaped. generalize (shape1 a) as N. intros N.
  assert (H : length (replicate N 0%nat) = N) by apply length_replicate.
  revert H. generalize (replicate N 0%nat) as acc.
  induction (rows a) as [|r rs IH]; intros acc Hacc Hrs; simpl; [exact Hacc|].
  apply Forall_cons in Hrs as [Hr Hrs].
  apply IH; [|exact Hrs]. unfold count_row. rewrite length_zip_with. lia.
Qed.

(** Mapping a function over the entries maps it over each column. *)
Lemma column_map (f : float -> float) (a : ndarray2) (j : nat) :
  well_shaped a -> (j < shape1 a)%nat ->
  column j (mk_ndarray2 (order a) (shape1 a) (map (map f) (rows a)))
  = map f (column j a).
Proof.
  intros Ha Hj. unfold column. simpl. rewrite !map_map.
  apply map_ext_Forall. eapply Forall_impl; [exact Ha|].
  intros r Hr. simpl in Hr.
  assert (Hl : (j < length r)%nat) by lia.
  apply lookup_lt_is_Some in Hl as [y Hy].
  rewrite (nth_lookup_Some _ _ _ _ Hy).
  apply nth_lookup_Some. change (map f r) with (f <$> r).
  now rewrite list_lookup_fmap, Hy.
Qed.

Lemma well_shaped_map (f : float -> float) (a : ndarray2) :
  well_shaped a ->
  well_shaped (mk_ndarray2 (order a) (shape1 a) (map (map f) (rows a))).
Proof.
  unfold well_shaped. simpl. intros Ha.
  apply Forall_forall. intros r Hr.
  apply list_elem_of_In, in_map_iff in Hr as (r0 & <- & Hr0).
  rewrite length_map. rewrite Forall_forall in Ha.
  apply Ha. now apply list_elem_of_In.
Qed.

(** Adding the zeros that stand for [NaN]s changes no sum taken one value
    after the other. *)
Lemma total_replace_nan (col : ndarray1) : forall acc,
  Binary64.is_neg_zero acc = false ->
  fold_left PrimFloat.add (map replace_nan col) acc
  = fold_left PrimFloat.add (drop_nan col) acc.
Proof.
  unfold drop_nan.
  induction col as [|x col IH]; intros acc Hacc; simpl; [reflexivity|].
  rewrite filter_cons. destruct (isnan x) eqn:E.
  - rewrite decide_False by congruence.
    replace (replace_nan x) with 0%float by (unfold replace_nan; now rewrite E).
    rewrite add_zero_r by exact Hacc. now apply IH.
  - rewrite decide_True by reflexivity. cbn [fold_left].
    replace (replace_nan x) with x by (unfold replace_nan; now rewrite E).
    apply IH. now apply add_not_neg_zero.
Qed.

Lemma nanmean_axis0_lookup (a : ndarray2) (j : nat) :
  well_shaped a -> (j < shape1 a)%nat ->
  nanmean_axis0 a !! j
  = Some (mean_ignoring_nan (column_sum (axis0_contiguous a)) (column j a)).
Proof.
  intros Ha Hj. unfold nanmean_axis0, divide_by_count, replace_nan2.
  rewrite lookup_zip_with.
  rewrite sum_axis0_lookup by (try apply well_shaped_map; assumption).
  rewrite count_axis0_lookup by assumption. simpl.
  rewrite column_map by assumption. reflexivity.
Qed.

Lemma length_nanmean_axis0 (a : ndarray2) :
  well_shaped a -> length (nanmean_axis0 a) = shape1 a.
Proof.
  intros Ha. unfold nanmean_axis0, divide_by_count.
  rewrite length_zip_with, length_count_axis0 by assumption.
  unfold replace_nan2.
  rewrite (length_sum_axis0 _ (well_shaped_map _ _ Ha)). simpl. lia.
Qed.

End Axis0.


Section Variance.
Import numpy.

Lemma squares_row_lookup (avg r : ndarray1) (j : nat) (m x : float) :
  avg !! j = Some m -> r !! j = Some x ->
  mul1 (deviations avg r) (deviations avg r) !! j = Some (squared_deviation m x).
Proof.
  intros Hm Hx. unfold mul1, deviations.
  rewrite !lookup_zip_with, Hx, Hm. reflexivity.
Qed.

Lemma total_squares (m : float) (col : ndarray1) : forall acc,
  Binary64.is_neg_zero acc = false ->
  fold_left PrimFloat.add (map (squared_deviation m) col) acc
  = fold_left PrimFloat.add
      (map (fun x => ((x - m) * (x - m))%float) (drop_nan col)) acc.
Proof.
  unfold drop_nan.
  induction col as [|x col IH]; intros acc Hacc; simpl; [reflexivity|].
  rewrite filter_cons. unfold squared_deviation at 2. destruct (isnan x) eqn:E.
  - rewrite decide_False by congruence.
    change (0 * 0)%float with 0%float.
    rewrite add_zero_r by exact Hacc. now apply IH.
  - rewrite decide_True by reflexivity. cbn [map fold_left].
    apply IH. now apply add_not_neg_zero.
Qed.

Lemma nanvar_axis0_lookup (a : ndarray2) (j : nat) :
  well_shaped a -> (j < shape1 a)%nat ->
  nanvar_axis0 a !! j
  = Some (let sum := column_sum (axis0_contiguous a) in
          let m := mean_ignoring_nan sum (column j a) in
          if decide (length (drop_nan (column j a)) = 0%nat) then nan
          else (sum (map (squared_deviation m) (column j a))
                / of_count (length (drop_nan (column j a))))%float).
Proof.
  intros Ha Hj. unfold nanvar_axis0.
  set (avg := nanmean_axis0 a).
  assert (Havg : avg !! j
                 = Some (mean_ignoring_nan (column_sum (axis0_contiguous a)) (column j a)))
    by now apply nanmean_axis0_lookup.
  assert (Hlen : length avg = shape1 a) by now apply length_nanmean_axis0.
  set (sqr := mk_ndarray2 _ _ _).
  assert (Hsqr : well_shaped sqr).
  { unfold well_shaped, sqr. simpl. rewrite !Forall_map.
    eapply Forall_impl; [exact Ha|]. intros r Hr. simpl in Hr |- *.
    unfold mul1, deviations. rewrite !length_zip_with. lia. }
  assert (Hcol : column j sqr
                 = map (squared_deviation
                          (mean_ignoring_nan (column_sum (axis0_contiguous a)) (column j a)))
                       (column j a)).
  { unfold column, sqr. simpl. rewrite !map_map.
    apply map_ext_Forall. eapply Forall_impl; [exact Ha|].
    intros r Hr. simpl in Hr.
    assert (Hl : (j < length r)%nat) by lia.
    apply lookup_lt_is_Some in Hl as [x Hx].
    rewrite (nth_lookup_Some _ _ _ _ Hx).
    apply nth_lookup_Some. now apply squares_row_lookup. }
  rewrite lookup_zip_with. unfold divide_by_count at 1.
  rewrite lookup_zip_with.
  rewrite (sum_axis0_lookup sqr j Hsqr Hj), Hcol.
  rewrite count_axis0_lookup by assumption. reflexivity.
Qed.

Lemma length_nanvar_axis0 (a : ndarray2) :
  well_shaped a -> length (nanvar_axis0 a) = shape1 a.
Proof.
  intros Ha. unfold nanvar_axis0, divide_by_count.
  rewrite !length_zip_with, length_count_axis0 by assumption.
  rewrite length_sum_axis0.
  - simpl. lia.
  - unfold well_shaped. simpl. rewrite !Forall_map.
    eapply Forall_impl; [exact Ha|]. intros r Hr. simpl in Hr |- *.
    unfold mul1, deviations. rewrite !length_zip_with.
    rewrite length_nanmean_axis0 by assumption. lia.
Qed.

Lemma nanstd_axis0_lookup (a : ndarray2) (j : nat) :
  well_shaped a -> (j < shape1 a)%nat ->
  nanstd_axis0 a !! j
  = Some (std_ignoring_nan (column_sum (axis0_contiguous a)) (column j a)).
Proof.
  intros Ha Hj. unfold nanstd_axis0.
  change (map PrimFloat.sqrt (nanvar_axis0 a)) with (PrimFloat.sqrt <$> nanvar_axis0 a).
  rewrite list_lookup_fmap, nanvar_axis0_lookup by assumption.
  unfold std_ignoring_nan. simpl.
  destruct (decide (length (drop_nan (column j a)) = 0%nat)); reflexivity.
Qed.

Lemma length_nanstd_axis0 (a : ndarray2) :
  well_shaped a -> length (nanstd_axis0 a) = shape1 a.
Proof.
  intros Ha. unfold nanstd_axis0. rewrite length_map.
  now apply length_nanvar_axis0.
Qed.

(** Where the additions follow the rows, the [NaN] values may as well be
    taken out of the column: mean and standard deviation are those of the
    entries that are left, summed one after the other. *)
Lemma column_sum_in_order (a : ndarray2) (col : ndarray1) :
  sums_in_order a = true -> length col = shape0 a ->
  column_sum (axis0_contiguous a) col = total col.
Proof.
  unfold sums_in_order. intros H Hl.
  destruct (axis0_contiguous a); [|reflexivity].
  simpl in H. apply Nat.ltb_lt in H. apply column_sum_short. lia.
Qed.

Lemma mean_in_order (a : ndarray2) (col : ndarray1) :
  sums_in_order a = true -> length col = shape0 a ->
  mean_ignoring_nan (column_sum (axis0_contiguous a)) col = mean_of_present col.
Proof.
  intros H Hl. unfold mean_ignoring_nan, mean_of_present.
  rewrite (column_sum_in_order a) by (rewrite ?length_map; assumption).
  unfold total. now rewrite total_replace_nan.
Qed.

Lemma std_in_order (a : ndarray2) (col : ndarray1) :
  sums_in_order a = true -> length col = shape0 a ->
  std_ignoring_nan (column_sum (axis0_contiguous a)) col = std_of_present col.
Proof.
  intros H Hl. unfold std_ignoring_nan, std_of_present. cbv zeta.
  rewrite (mean_in_order a col H Hl).
  rewrite (column_sum_in_order a) by (rewrite ?length_map; assumption).
  unfold total at 1. now rewrite total_squares.
Qed.

End Variance.


(** ** The [compute] methods of the custom factors *)

Section Compute.
Import numpy CustomFactors Binary64.

Lemma setitem_all_Some (out v : ndarray1) :
  length v = length out -> setitem_all out v = Some v.
Proof. intros H. unfold setitem_all. now rewrite decide_True. Qed.

Lemma getitem_first {A} (l : list A) : getitem l 0 = head l.
Proof. unfold getitem. simpl. now rewrite head_lookup. Qed.

Lemma getitem_last {A} (l : list A) : getitem l (-1) = last l.
Proof.
  unfold getitem. simpl (0 <=? -1). cbv iota.
  destruct l as [|x l]; [reflexivity|].
  rewrite last_lookup.
  assert ((- Z.of_nat (length (x :: l)) <=? -1) = true) as ->.
  { apply Z.leb_le. simpl length. lia. }
  f_equal. simpl length. lia.
Qed.

Lemma column_lookup (a : ndarray2) (j i : nat) (r : ndarray1) :
  rows a !! i = Some r -> column j a !! i = Some (nth j r nan).
Proof.
  intros H. unfold column. change (map ?f ?l) with (f <$> l).
  now rewrite list_lookup_fmap, H.
Qed.

Lemma length_column (a : ndarray2) (j : nat) : length (column j a) = shape0 a.
Proof. unfold column, shape0. apply length_map. Qed.

Lemma column_sub (j : nat) (N : nat) (ra rb : list ndarray1) :
  Forall (fun r => length r = N) ra -> Forall (fun r => length r = N) rb ->
  length ra = length rb -> (j < N)%nat ->
  map (fun r => nth j r nan) (zip_with sub1 ra rb)
  = zip_with PrimFloat.sub (map (fun r => nth j r nan) ra) (map (fun r => nth j r nan) rb).
Proof.
  intros Ha. revert rb.
  induction Ha as [|r ra Hr Ha IH]; intros rb Hb Hl Hj;
    destruct Hb as [|r' rb Hr' Hb]; try discriminate; simpl; [reflexivity|].
  f_equal.
  - assert (H1 : (j < length r)%nat) by lia.
    assert (H2 : (j < length r')%nat) by lia.
    apply lookup_lt_is_Some in H1 as [x Hx], H2 as [y Hy].
    rewrite (nth_lookup_Some _ _ _ _ Hx), (nth_lookup_Some _ _ _ _ Hy).
    apply nth_lookup_Some. unfold sub1. now rewrite lookup_zip_with, Hx, Hy.
  - apply IH; auto.
Qed.

(** What [StdDev.compute] leaves in [out]. *)
Lemma StdDev_compute_lookup (today : Terms.date) (asset_ids : list Terms.asset)
    (out : ndarray1) (values : ndarray2) :
  well_shaped values -> length out = shape1 values ->
  exists out',
    StdDev_compute today asset_ids out values = Some out'
    /\ length out' = length out
    /\ forall j, (j < shape1 values)%nat ->
         out' !! j
         = Some (std_ignoring_nan (column_sum (axis0_contiguous values))
                   (column j values)).
Proof.
  intros Ha Hout. exists (nanstd_axis0 values).
  assert (Hl : length (nanstd_axis0 values) = length out)
    by (rewrite length_nanstd_axis0 by exact Ha; now rewrite Hout).
  split; [now apply setitem_all_Some|]. split; [exact Hl|].
  intros j Hj. now apply nanstd_axis0_lookup.
Qed.

(** The difference of two windows of the same shape, column by column. *)
Lemma sub2_Some (a b : ndarray2) :
  well_shaped a -> well_shaped b ->
  shape1 a = shape1 b -> shape0 a = shape0 b ->
  exists d,
    sub2 a b = Some d
    /\ well_shaped d /\ shape1 d = shape1 a /\ shape0 d = shape0 a
    /\ order d = result_order a b
    /\ forall j, (j < shape1 a)%nat ->
         column j d = zip_with PrimFloat.sub (column j a) (column j b).
Proof.
  intros Ha Hb H1 H0. unfold sub2. rewrite decide_True by auto.
  eexists. split; [reflexivity|]. split; [|split; [reflexivity|split]].
  - unfold well_shaped. simpl. apply Forall_forall. intros r Hr.
    apply list_elem_of_lookup in Hr as [i Hi].
    apply lookup_zip_with_Some in Hi as (x & y & -> & Hx & Hy).
    unfold sub1. rewrite length_zip_with.
    unfold well_shaped in Ha, Hb. rewrite Forall_forall in Ha, Hb.
    rewrite (Ha x), (Hb y) by (eapply list_elem_of_lookup_2; eauto). lia.
  - unfold shape0 in *. simpl. rewrite length_zip_with. lia.
  - split; [reflexivity|]. intros j Hj. unfold column. simpl.
    apply column_sub with (N := shape1 a); auto.
    unfold well_shaped in Hb. now rewrite H1.
Qed.

(** What [ThirtyDayMeanDifference.compute] leaves in [out]. *)
Lemma mean_difference_lookup (today : Terms.date) (assets : list Terms.asset)
    (out : ndarray1) (a b : ndarray2) :
  well_shaped a -> well_shaped b ->
  shape1 a = shape1 b -> shape0 a = shape0 b -> length out = shape1 a ->
  exists d out',
    sub2 a b = Some d
    /\ shape0 d = shape0 a
    /\ order d = result_order a b
    /\ ThirtyDayMeanDifference_compute today assets out a b = Some out'
    /\ length out' = length out
    /\ forall j, (j < shape1 a)%nat ->
         column j d = zip_with PrimFloat.sub (column j a) (column j b)
         /\ out' !! j
            = Some (mean_ignoring_nan (column_sum (axis0_contiguous d)) (column j d)).
Proof.
  intros Ha Hb H1 H0 Hout.
  destruct (sub2_Some a b Ha Hb H1 H0) as (d & Hd & Wd & S1 & S0 & Od & Hcol).
  exists d, (nanmean_axis0 d).
  split; [exact Hd|]. split; [exact S0|]. split; [exact Od|].
  unfold ThirtyDayMeanDifference_compute. rewrite Hd. simpl.
  assert (Hl : length (nanmean_axis0 d) = length out)
    by (rewrite length_nanmean_axis0 by exact Wd; lia).
  split; [now apply setitem_all_Some|]. split; [exact Hl|].
  intros j Hj. split; [now apply Hcol|].
  apply nanmean_axis0_lookup; [exact Wd|lia].
Qed.

(** What [Momentum.compute] leaves in [out]. *)
Lemma momentum_lookup (today : Terms.date) (assets : list Terms.asset)
    (out : ndarray1) (close : ndarray2) :
  well_shaped close -> (0 < shape0 close)%nat -> length out = shape1 close ->
  exists out',
    Momentum_compute today assets out close = Some out'
    /\ length out' = length out
    /\ forall j, (j < shape1 close)%nat ->
         exists newest oldest,
           last (column j close) = Some newest
           /\ head (column j close) = Some oldest
           /\ out' !! j = Some (newest / oldest)%float.
Proof.
  intros Ha Hm Hout. unfold Momentum_compute.
  rewrite getitem_last, getitem_first.
  unfold shape0 in Hm.
  destruct (last (rows close)) as [rl|] eqn:El.
  2: { apply last_None in El. rewrite El in Hm. simpl in Hm. lia. }
  destruct (head (rows close)) as [rf|] eqn:Ef.
  2: { apply head_None in Ef. rewrite Ef in Hm. simpl in Hm. lia. }
  simpl.
  unfold well_shaped in Ha. rewrite Forall_forall in Ha.
  assert (Hl : length rl = shape1 close).
  { apply Ha. rewrite last_lookup in El. eapply list_elem_of_lookup_2; eauto. }
  assert (Hf : length rf = shape1 close).
  { apply Ha. rewrite head_lookup in Ef. eapply list_elem_of_lookup_2; eauto. }
  exists (div1 rl rf).
  assert (Hd : length (div1 rl rf) = length out).
  { unfold div1. rewrite length_zip_with. lia. }
  split; [now apply setitem_all_Some|]. split; [exact Hd|].
  intros j Hj.
  exists (nth j rl nan), (nth j rf nan). split; [|split].
  - rewrite last_lookup.
    replace (length (column j close)) with (length (rows close))
      by (unfold column; now rewrite length_map).
    apply column_lookup. now rewrite <- last_lookup.
  - rewrite head_lookup. apply column_lookup. now rewrite <- head_lookup.
  - unfold div1. rewrite lookup_zip_with.
    assert (H1 : (j < length rl)%nat) by lia.
    assert (H2 : (j < length rf)%nat) by lia.
    apply lookup_lt_is_Some in H1 as [x Hx], H2 as [y Hy].
    rewrite Hx, Hy, (nth_lookup_Some _ _ _ _ Hx), (nth_lookup_Some _ _ _ _ Hy).
    reflexivity.
Qed.

Lemma drop_nan_all (xs : ndarray1) :
  Forall (fun x => isnan x = false) xs -> drop_nan xs = xs.
Proof.
  unfold drop_nan. induction 1 as [|x xs Hx Hxs IH]; [reflexivity|].
  now rewrite filter_cons_True, IH.
Qed.

(** The mean of values that are not negative is not negative, in whatever
    order they are summed. *)
Lemma mean_nonneg (pairwise : bool) (xs : ndarray1) :
  (0 < length xs)%nat -> Z.of_nat (length xs) < 2 ^ 63 ->
  Forall (fun x => (0 <=? x)%float = true) xs ->
  (0 <=? mean_ignoring_nan (column_sum pairwise) xs)%float = true.
Proof.
  intros Hl Hb Hxs. unfold mean_ignoring_nan.
  assert (Hn : Forall (fun x => isnan x = false) xs).
  { eapply Forall_impl; [exact Hxs|]. intros x. apply nonneg_not_nan. }
  rewrite drop_nan_all by exact Hn.
  apply div_nonneg.
  - apply (column_sum_closed (fun x => (0 <=? x)%float = true));
      [reflexivity|apply add_nonneg|].
    apply Forall_forall. intros y Hy.
    apply list_elem_of_In, in_map_iff in Hy as (x & <- & Hx).
    apply list_elem_of_In in Hx. rewrite Forall_forall in Hxs, Hn.
    unfold replace_nan. rewrite (Hn x Hx). now apply Hxs.
  - now apply of_count_positive.
Qed.

Lemma momentum_nonneg (today : Terms.date) (assets : list Terms.asset)
    (out : ndarray1) (close : ndarray2) (j : nat) :
  well_shaped close -> (0 < shape0 close)%nat ->
  length out = shape1 close -> (j < shape1 close)%nat ->
  Forall (fun x => positive_price x = true) (column j close) ->
  exists out' v,
    Momentum_compute today assets out close = Some out'
    /\ out' !! j = Some v
    /\ (0 <=? v)%float = true.
Proof.
  intros Ha Hm Hout Hj Hpos.
  destruct (momentum_lookup today assets out close Ha Hm Hout)
    as (out' & Hc & _ & Hlook).
  destruct (Hlook j Hj) as (newest & oldest & Hn & Ho & Hv).
  exists out', (newest / oldest)%float. split; [exact Hc|]. split; [exact Hv|].
  rewrite Forall_forall in Hpos.
  apply div_nonneg.
  - apply positive_price_nonneg, Hpos.
    rewrite last_lookup in Hn. eapply list_elem_of_lookup_2; eauto.
  - rewrite <- positive_price_spec. apply Hpos.
    rewrite head_lookup in Ho. eapply list_elem_of_lookup_2; eauto.
Qed.

End Compute.


(** ** Runs of the engine *)

Section Runs.
Import numpy Terms Engine.
Context (lib : Library) (db : DataBase).

Lemma elem_of_sessions (s e d : date) : d ∈ sessions s e <-> s <= d <= e.
Proof. unfold sessions. rewrite elem_of_seqZ. lia. Qed.

Lemma eval_columns_lookup (cols : gmap string Term) (d : date)
    (m : gmap string (asset -> value)) (k : string) :
  eval_columns lib db cols d = Some m ->
  m !! k = cols !! k ≫= (fun t => eval_term lib db t d).
Proof.
  unfold eval_columns. intros H.
  destruct (decide _) as [_|_]; [|discriminate].
  injection H as <-.
  rewrite lookup_omap, lookup_fmap.
  destruct (cols !! k); reflexivity.
Qed.

Lemma eval_columns_dom (cols : gmap string Term) (d : date)
    (m : gmap string (asset -> value)) :
  eval_columns lib db cols d = Some m -> dom m = dom cols.
Proof.
  intros H. apply set_eq. intros k. rewrite !elem_of_dom.
  rewrite (eval_columns_lookup _ _ _ k H).
  unfold eval_columns in H.
  destruct (decide _) as [Hall|_]; [|discriminate].
  destruct (cols !! k) as [t|] eqn:E; simpl.
  - split; [eauto|intros _].
    apply (Hall k). now rewrite lookup_fmap, E.
  - split; intros [? ?]; discriminate.
Qed.

Lemma run_day_Some (p : pipeline) (d : date)
    (day : list (date * asset * gmap string value)) :
  run_day lib db p d = Some day ->
  exists s cols,
    eval_screen lib db (screen p) d = Some s
    /\ eval_columns lib db (columns p) d = Some cols
    /\ day = map (fun a => (d, a, (fun g : asset -> value => g a) <$> cols))
                 (filter (fun a => s a = true) (securities db d)).
Proof.
  unfold run_day. intros H.
  destruct (eval_screen _ _ _ _) as [s|]; [|discriminate].
  destruct (eval_columns _ _ _ _) as [cols|]; [|discriminate].
  injection H as <-. eauto.
Qed.

(** The rows of a run are the rows of its days. *)
Lemma run_pipeline_rows (p : pipeline) (s e : date) (t : Table) :
  run_pipeline lib db p s e = Some t ->
  table_columns t = dom (columns p)
  /\ (forall d, s <= d <= e -> exists day, run_day lib db p d = Some day)
  /\ forall row, row ∈ table_rows t <->
       exists d day, s <= d <= e /\ run_day lib db p d = Some day /\ row ∈ day.
Proof.
  unfold run_pipeline. intros H.
  destruct (mapM _ _) as [days|] eqn:E; [|discriminate].
  injection H as <-. simpl. apply mapM_Some in E.
  split; [reflexivity|]. split.
  - intros d Hd. apply elem_of_sessions, list_elem_of_lookup in Hd as [i Hi].
    destruct (Forall2_lookup_l _ _ _ _ _ E Hi) as (day & _ & Hday). eauto.
  - intros row. rewrite list_elem_of_In, in_concat. split.
    + intros (day & Hday & Hrow).
      apply list_elem_of_In, list_elem_of_lookup in Hday as [i Hi].
      destruct (Forall2_lookup_r _ _ _ _ _ E Hi) as (d & Hd & Hrun).
      exists d, day. split; [|split].
      * apply elem_of_sessions. eapply list_elem_of_lookup_2; eauto.
      * exact Hrun.
      * now apply list_elem_of_In.
    + intros (d & day & Hd & Hrun & Hrow).
      apply elem_of_sessions, list_elem_of_lookup in Hd as [i Hi].
      destruct (Forall2_lookup_l _ _ _ _ _ E Hi) as (day' & Hday' & Hrun').
      assert (day' = day) as -> by congruence.
      exists day. split; apply list_elem_of_In; [|assumption].
      eapply list_elem_of_lookup_2; eauto.
Qed.

(** The rows of a run, read on the screen and the columns of their day. *)
Lemma run_pipeline_row (p : pipeline) (s e : date) (t : Table)
    (d : date) (a : asset) (cells : gmap string value) :
  run_pipeline lib db p s e = Some t ->
  (d, a, cells) ∈ table_rows t <->
  s <= d <= e /\ a ∈ securities db d
  /\ exists keep cols,
       eval_screen lib db (screen p) d = Some keep
       /\ eval_columns lib db (columns p) d = Some cols
       /\ keep a = true
       /\ cells = (fun g : asset -> value => g a) <$> cols.
Proof.
  intros Hrun. destruct (run_pipeline_rows _ _ _ _ Hrun) as (_ & Hall & Hrows).
  rewrite Hrows. split.
  - intros (d' & day & Hd & Hday & Hrow).
    apply run_day_Some in Hday as (keep & cols & Hs & Hc & ->).
    apply list_elem_of_In, in_map_iff in Hrow as (a' & Heq & Ha').
    injection Heq as -> -> <-.
    apply list_elem_of_In, list_elem_of_filter in Ha' as [Hk Ha'].
    repeat split; try lia; try assumption. eauto 10.
  - intros (Hd & Ha & keep & cols & Hs & Hc & Hk & ->).
    destruct (Hall d Hd) as [day Hday].
    exists d, day. repeat split; try lia; try assumption.
    apply run_day_Some in Hday as (keep' & cols' & Hs' & Hc' & ->).
    assert (keep' = keep) as -> by congruence.
    assert (cols' = cols) as -> by congruence.
    apply list_elem_of_In, in_map_iff. exists a. split; [reflexivity|].
    apply list_elem_of_In, list_elem_of_filter. auto.
Qed.

Lemma elem_of_index (t : Table) (d : date) (a : asset) :
  (d, a) ∈ index t <-> exists cells, (d, a, cells) ∈ table_rows t.
Proof.
  unfold index. rewrite list_elem_of_In, in_map_iff. split.
  - intros ([[d' a'] cells] & Heq & Hin). simpl in Heq. injection Heq as -> ->.
    exists cells. now apply list_elem_of_In.
  - intros [cells Hin]. exists (d, a, cells). split; [reflexivity|].
    now apply list_elem_of_In.
Qed.

(** With a screen, the index is made of the pairs the screen keeps. *)
Lemma index_of_screened_run (p : pipeline) (f : Filter) (s e : date) (t : Table)
    (d : date) (a : asset) :
  screen p = Some f ->
  run_pipeline lib db p s e = Some t ->
  (d, a) ∈ index t <->
  s <= d <= e /\ a ∈ securities db d
  /\ exists keep, eval_filter lib db f d = Some keep /\ keep a = true.
Proof.
  intros Hf Hrun. rewrite elem_of_index. split.
  - intros [cells Hrow].
    apply (run_pipeline_row _ _ _ _ _ _ _ Hrun) in Hrow
      as (Hd & Ha & keep & cols & Hs & _ & Hk & _).
    rewrite Hf in Hs. simpl in Hs. eauto.
  - intros (Hd & Ha & keep & Hs & Hk).
    destruct (run_pipeline_rows _ _ _ _ Hrun) as (_ & Hall & _).
    destruct (Hall d Hd) as [day Hday].
    apply run_day_Some in Hday as (keep' & cols & Hs' & Hc & _).
    exists ((fun g : asset -> value => g a) <$> cols).
    apply (run_pipeline_row _ _ _ _ _ _ _ Hrun).
    rewrite Hf. simpl. eauto 10.
Qed.

End Runs.


(** ** Screens, columns and masks *)

Section EngineClaims.
Import numpy Terms Engine Binary64.
Context (lib : Library) (db : DataBase).

(** C1.  A pipeline with a screen emits exactly the (date, asset) rows on
    which the screen is [True]: a pair is in the index of the result if and
    only if the date is in the range of the run, the asset is a security of
    that date and the screen evaluates to [True] on it; a pair on which the
    screen is [False] is not in the index. *)
Theorem screen_selects_rows (p : pipeline) (f : Filter) (s e : date) (t : Table) :
  screen p = Some f ->
  run_pipeline lib db p s e = Some t ->
  (forall d a,
     (d, a) ∈ index t <->
     s <= d <= e /\ a ∈ securities db d
     /\ exists keep, eval_filter lib db f d = Some keep /\ keep a = true)
  /\ (forall d a keep,
        eval_filter lib db f d = Some keep -> keep a = false -> (d, a) ∉ index t).
Proof.
  intros Hf Hrun.
  assert (H : forall d a,
     (d, a) ∈ index t <->
     s <= d <= e /\ a ∈ securities db d
     /\ exists keep, eval_filter lib db f d = Some keep /\ keep a = true)
    by (intros d a; eapply index_of_screened_run; eauto).
  split; [exact H|].
  intros d a keep Hk Hfalse Hin.
  apply H in Hin as (_ & _ & keep' & Hk' & Htrue). congruence.
Qed.

Lemma run_empty_pipeline (s e : date) :
  exists t0,
    run_pipeline lib db CreatingAPipeline.make_pipeline s e = Some t0
    /\ table_columns t0 = ∅
    /\ forall d a, (d, a) ∈ index t0 <-> s <= d <= e /\ a ∈ securities db d.
Proof.
  assert (Hday : forall d,
    run_day lib db CreatingAPipeline.make_pipeline d
    = Some (map (fun a => (d, a, ∅)) (filter (fun a => true = true) (securities db d)))).
  { intros d. unfold run_day, eval_columns. simpl.
    rewrite fmap_empty. rewrite decide_True by apply map_Forall_empty.
    rewrite omap_empty. reflexivity. }
  destruct (run_pipeline lib db CreatingAPipeline.make_pipeline s e) as [t0|] eqn:E.
  - exists t0. split; [reflexivity|].
    destruct (run_pipeline_rows lib db _ _ _ _ E) as (Hc & _ & _).
    split; [rewrite Hc; apply dom_empty_L|].
    intros d a. rewrite elem_of_index. split.
    + intros [cells Hrow].
      apply (run_pipeline_row lib db _ _ _ _ _ _ _ E) in Hrow. tauto.
    + intros [Hd Ha]. exists ∅.
      apply (run_pipeline_row lib db _ _ _ _ _ _ _ E).
      split; [exact Hd|]. split; [exact Ha|].
      exists (fun _ => true), ∅. simpl. unfold eval_columns.
      rewrite fmap_empty. rewrite decide_True by apply map_Forall_empty.
      rewrite omap_empty, fmap_empty. auto.
  - exfalso. unfold run_pipeline in E.
    destruct (mapM _ _) eqn:E'; [discriminate|].
    apply mapM_None_1, Exists_exists in E' as (d & _ & Hd).
    rewrite Hday in Hd. discriminate.
Qed.

(** C2.  The table [run_pipeline] returns is indexed by (date, asset) pairs
    of the run and has exactly one column per named output column of the
    pipeline, with one cell per column in each row; the run of the empty
    pipeline returns a table with no column, whose index holds, for each
    date of the run, every security of the database on that date. *)
Theorem run_pipeline_table (p : pipeline) (s e : date) (t : Table) :
  run_pipeline lib db p s e = Some t ->
  table_columns t = dom (columns p)
  /\ (forall d a cells,
        (d, a, cells) ∈ table_rows t ->
        s <= d <= e /\ a ∈ securities db d /\ dom cells = dom (columns p))
  /\ exists t0,
       run_pipeline lib db CreatingAPipeline.make_pipeline s e = Some t0
       /\ table_columns t0 = ∅
       /\ forall d a, (d, a) ∈ index t0 <-> s <= d <= e /\ a ∈ securities db d.
Proof.
  intros Hrun. split; [|split].
  - now destruct (run_pipeline_rows lib db _ _ _ _ Hrun).
  - intros d a cells Hrow.
    apply (run_pipeline_row lib db _ _ _ _ _ _ _ Hrun) in Hrow
      as (Hd & Ha & keep & cols & _ & Hc & _ & ->).
    repeat split; try lia; try assumption.
    rewrite dom_fmap_L. now apply eval_columns_dom in Hc.
  - apply run_empty_pipeline.
Qed.

End EngineClaims.


Section Masks.
Import numpy Terms Engine Binary64.
Context (lib : Library).

Lemma position_Some (a : asset) (assets : list asset) (j : nat) :
  position a assets = Some j -> assets !! j = Some a.
Proof.
  unfold position. intros H.
  destruct (list_find _ assets) as [[i x]|] eqn:E; [|discriminate].
  injection H as ->. apply list_find_Some in E as (Hx & -> & _). exact Hx.
Qed.

Lemma position_elem_of (a : asset) (assets : list asset) :
  a ∈ assets -> exists j, position a assets = Some j /\ assets !! j = Some a.
Proof.
  intros Ha. unfold position.
  destruct (list_find_elem_of (fun b => b = a) assets a Ha eq_refl) as [[i x] E].
  rewrite E. exists i. split; [reflexivity|].
  apply list_find_Some in E as (Hx & -> & _). exact Hx.
Qed.

Lemma position_None (a : asset) (assets : list asset) :
  a ∉ assets -> position a assets = None.
Proof.
  intros Ha. unfold position.
  destruct (list_find _ assets) as [[i x]|] eqn:E; [|reflexivity].
  apply list_find_Some in E as (Hx & -> & _).
  exfalso. apply Ha. eapply list_elem_of_lookup_2; eauto.
Qed.

Lemma scatter_outside (assets : list asset) (out : ndarray1) (a : asset) :
  a ∉ assets -> scatter assets out a = nan.
Proof. intros Ha. unfold scatter. now rewrite position_None. Qed.

(** The windows of a masked factor read the cells of the masked assets only. *)
Lemma window_ext (db db' : DataBase) (c : BoundColumn) (d : date) (w : nat)
    (assets : list asset) :
  (forall k a, a ∈ assets -> cell db' c k a = cell db c k a) ->
  window db' c d w assets = window db c d w assets.
Proof.
  intros H. unfold window. f_equal.
  apply map_ext. intros k. apply map_ext_in. intros a Ha.
  rewrite H; [reflexivity|]. now apply list_elem_of_In.
Qed.

(** C3.  A factor built with a mask is computed over the assets of the mask
    alone: its [compute] receives the assets on which the mask is [True] and
    the windows of those assets, so that the cells of the other assets do not
    bear on it; an asset on which the mask is [False] gets no value ([NaN])
    from the factor; and the restriction comes before any combination, since
    a combination with another factor is made entry by entry on the masked
    result, and has no value either where the mask is [False]. *)
Theorem masked_factor_computation (db : DataBase) (compute : Compute)
    (inputs : list BoundColumn) (w : nat) (m : Filter) (d : date)
    (keep : asset -> bool) (v : asset -> float) :
  eval_filter lib db m d = Some keep ->
  eval_factor lib db (CustomFactor compute inputs w (Some m)) d = Some v ->
  let assets := filter (fun a => keep a = true) (securities db d) in
  (exists out,
     compute d assets (replicate (length assets) nan)
       (map (fun c => window db c d w assets) inputs) = Some out
     /\ v = scatter assets out)
  /\ (forall a, keep a = false -> isnan (v a) = true)
  /\ (forall op g x,
        eval_factor lib db g d = Some x ->
        exists y z,
          eval_factor lib db (BinOp op (CustomFactor compute inputs w (Some m)) g) d
          = Some y
          /\ eval_factor lib db (BinOp op g (CustomFactor compute inputs w (Some m))) d
             = Some z
          /\ (forall a, y a = apply_binop op (v a) (x a))
          /\ (forall a, z a = apply_binop op (x a) (v a))
          /\ forall a, keep a = false -> isnan (y a) = true /\ isnan (z a) = true)
  /\ (forall db',
        securities db' d = securities db d ->
        eval_filter lib db' m d = Some keep ->
        (forall c k a, c ∈ inputs -> keep a = true ->
                       cell db' c k a = cell db c k a) ->
        eval_factor lib db' (CustomFactor compute inputs w (Some m)) d = Some v).
Proof.
  intros Hkeep Hv assets.
  assert (Hout : exists out,
     compute d assets (replicate (length assets) nan)
       (map (fun c => window db c d w assets) inputs) = Some out
     /\ v = scatter assets out).
  { simpl in Hv. rewrite Hkeep in Hv. simpl in Hv. fold assets in Hv.
    destruct (compute d assets _ _) as [out|]; [|discriminate].
    injection Hv as <-. eauto. }
  assert (Hnan : forall a, keep a = false -> isnan (v a) = true).
  { intros a Ha. destruct Hout as (out & _ & ->).
    rewrite scatter_outside; [reflexivity|].
    subst assets. rewrite list_elem_of_filter. intros [Hk _]. congruence. }
  split; [exact Hout|]. split; [exact Hnan|]. split.
  - intros op g x Hx.
    exists (fun a => apply_binop op (v a) (x a)), (fun a => apply_binop op (x a) (v a)).
    cbn [eval_factor]. cbn [eval_factor] in Hv. rewrite Hv, Hx. simpl.
    repeat split; try reflexivity.
    + apply binop_nan_l. auto.
    + apply binop_nan_r. auto.
  - intros db' Hsec Hkeep' Hcells.
    destruct Hout as (out & Hc & ->).
    simpl. rewrite Hkeep'. simpl. rewrite Hsec. fold assets.
    replace (map (fun c => window db' c d w assets) inputs)
      with (map (fun c => window db c d w assets) inputs).
    + now rewrite Hc.
    + apply map_ext_in. intros c Hc'. symmetry. apply window_ext.
      intros k a Ha. apply Hcells; [now apply list_elem_of_In|].
      subst assets. apply list_elem_of_filter in Ha. tauto.
Qed.

End Masks.


Section CustomFactorClaims.
Import numpy Terms CustomFactors Binary64.

(** C4.  [StdDev.compute] fills [out] with the standard deviation of each
    column of the window, [NaN] values ignored ([numpy.nanstd] along axis 0):
    for a window of any number of rows and [N] columns, of either memory
    order, [out] keeps its [N] places and place [j] holds the square root of
    the mean squared deviation of the entries of column [j] that are not
    [NaN] from their mean, the sums taken as numpy takes them for an array of
    that order (a [NaN] entry adds zero to a sum and nothing to the count);
    nothing else is written.  Where numpy adds the rows one after the other
    (fewer than 8 rows, or rows that are contiguous), this is the standard
    deviation of the column with its [NaN] entries removed. *)
Theorem StdDev_compute_nanstd (today : date) (asset_ids : list asset)
    (out : ndarray1) (values : ndarray2) :
  well_shaped values -> length out = shape1 values ->
  exists out',
    StdDev_compute today asset_ids out values = Some out'
    /\ length out' = length out
    /\ forall j, (j < shape1 values)%nat ->
         out' !! j
         = Some (std_ignoring_nan (column_sum (axis0_contiguous values))
                   (column j values))
         /\ (sums_in_order values = true ->
             out' !! j = Some (std_of_present (column j values))).
Proof.
  intros Ha Hout.
  destruct (StdDev_compute_lookup today asset_ids out values Ha Hout)
    as (out' & Hc & Hl & Hlook).
  exists out'. split; [exact Hc|]. split; [exact Hl|].
  intros j Hj. split; [now apply Hlook|].
  intros Hs. rewrite (Hlook j Hj). f_equal.
  apply std_in_order; [exact Hs|apply length_column].
Qed.

(** C5.  [ThirtyDayMeanDifference] has the default inputs [close, open] and
    the default window length 30, and its [compute] fills [out], for every
    asset, with the mean over the window of the first input minus the second
    input, [NaN] values ignored ([numpy.nanmean] of [close - open] along
    axis 0): place [j] holds the sum of the differences of column [j] that
    are not [NaN], taken as numpy takes it for the array [close - open],
    over their number.  Where numpy adds the rows one after the other, this
    is the mean of the differences with the [NaN] ones removed. *)
Theorem ThirtyDayMeanDifference_mean_difference (today : date)
    (asset_ids : list asset) (out : ndarray1) (close open : ndarray2) :
  well_shaped close -> well_shaped open ->
  shape1 close = shape1 open -> shape0 close = shape0 open ->
  length out = shape1 close ->
  ThirtyDayMeanDifference None None None
  = CustomFactor (call2 ThirtyDayMeanDifference_compute)
      [USEquityPricing.close; USEquityPricing.open] 30 None
  /\ exists difference out',
       sub2 close open = Some difference
       /\ ThirtyDayMeanDifference_compute today asset_ids out close open = Some out'
       /\ length out' = length out
       /\ forall j, (j < shape1 close)%nat ->
            column j difference
            = zip_with PrimFloat.sub (column j close) (column j open)
            /\ out' !! j
               = Some (mean_ignoring_nan (column_sum (axis0_contiguous difference))
                         (column j difference))
            /\ (sums_in_order difference = true ->
                out' !! j = Some (mean_of_present (column j difference))).
Proof.
  intros Ha Hb H1 H0 Hout. split; [reflexivity|].
  destruct (mean_difference_lookup today asset_ids out close open Ha Hb H1 H0 Hout)
    as (d & out' & Hd & S0 & _ & Hc & Hl & Hlook).
  exists d, out'. split; [exact Hd|]. split; [exact Hc|]. split; [exact Hl|].
  intros j Hj. destruct (Hlook j Hj) as [Hcol Hv].
  split; [exact Hcol|]. split; [exact Hv|].
  intros Hs. rewrite Hv. f_equal.
  apply mean_in_order; [exact Hs|apply length_column].
Qed.

(** C6.  [Momentum.compute] fills [out], for every asset, with the last row
    of the window of close prices divided by its first row: the most recent
    close price over the oldest one of the window. *)
Theorem Momentum_compute_ratio (today : date) (assets : list asset)
    (out : ndarray1) (close : ndarray2) :
  well_shaped close -> (0 < shape0 close)%nat -> length out = shape1 close ->
  exists out',
    Momentum_compute today assets out close = Some out'
    /\ length out' = length out
    /\ forall j, (j < shape1 close)%nat ->
         exists newest oldest,
           last (column j close) = Some newest
           /\ head (column j close) = Some oldest
           /\ out' !! j = Some (newest / oldest)%float.
Proof. apply momentum_lookup. Qed.

(** C10.  [ThirtyDayMeanDifference] instantiated with the inputs
    [high, low] gives a value that is not negative to every asset whose high
    price is, on each day of the window, at least equal to the low price of
    that day, the two not being the same infinity. *)
Theorem high_low_difference_nonneg (today : date) (asset_ids : list asset)
    (out : ndarray1) (high low : ndarray2) (j : nat) :
  well_shaped high -> well_shaped low ->
  shape1 high = shape1 low -> shape0 high = shape0 low ->
  (0 < shape0 high)%nat -> Z.of_nat (shape0 high) < 2 ^ 63 ->
  length out = shape1 high -> (j < shape1 high)%nat ->
  (forall i h l,
     column j high !! i = Some h -> column j low !! i = Some l ->
     (l <=? h)%float = true /\ same_infinity l h = false) ->
  CustomFactorPipelines.HighLow.high_low_diff
  = CustomFactor (call2 ThirtyDayMeanDifference_compute)
      [USEquityPricing.high; USEquityPricing.low] 30 None
  /\ exists out' v,
       ThirtyDayMeanDifference_compute today asset_ids out high low = Some out'
       /\ out' !! j = Some v
       /\ (0 <=? v)%float = true.
Proof.
  intros Hh Hl H1 H0 Hm Hb Hout Hj Hprices. split; [reflexivity|].
  destruct (mean_difference_lookup today asset_ids out high low Hh Hl H1 H0 Hout)
    as (d & out' & _ & S0 & _ & Hc & _ & Hlook).
  destruct (Hlook j Hj) as [Hcol Hv].
  exists out'. eexists. split; [exact Hc|]. split; [exact Hv|].
  assert (Hlen : length (column j d) = shape0 high)
    by (rewrite length_column; exact S0).
  apply mean_nonneg.
  - rewrite Hlen. exact Hm.
  - rewrite Hlen. exact Hb.
  - rewrite Hcol. apply Forall_forall. intros x Hx.
    apply list_elem_of_lookup in Hx as [i Hi].
    apply lookup_zip_with_Some in Hi as (h & l & -> & Hh' & Hl').
    destruct (Hprices i h l Hh' Hl') as (Hle & Hinf).
    now apply sub_nonneg_apart.
Qed.

End CustomFactorClaims.


(** ** Ordinal ranks *)

Section Ranks.
Import numpy Terms Engine Binary64.

(** Every value is before [x], after it, or tied with it, and one only. *)
Lemma rank_partition (x : float) (vs : list float) :
  (length (filter (fun y => ascending y x = true) vs)
   + length (filter (fun y => descending y x = true) vs)
   + length (filter (fun y => tied y x = true) vs))%nat
  = length vs.
Proof.
  induction vs as [|y vs IH]; [reflexivity|].
  rewrite !filter_cons. unfold ascending, descending, tied in *.
  pose proof (ltb_asym y x) as Hasym.
  destruct (y <? x)%float eqn:E1; destruct (x <? y)%float eqn:E2;
    repeat case_decide; simpl in *; try discriminate; try lia.
Qed.

Lemma distinct_values_lookup (vs : list float) : forall i k x y,
  distinct_values vs = true ->
  vs !! i = Some x -> vs !! k = Some y -> i <> k -> tied y x = false.
Proof.
  induction vs as [|z vs IH]; intros i k x y Hd Hi Hk Hne; [discriminate|].
  simpl in Hd. apply andb_prop in Hd as [Hz Hd].
  rewrite forallb_forall in Hz.
  destruct i as [|i], k as [|k]; simpl in Hi, Hk.
  - congruence.
  - injection Hi as ->.
    apply negb_true_iff, Hz, list_elem_of_In. eapply list_elem_of_lookup_2; eauto.
  - injection Hk as ->. rewrite tied_sym.
    apply negb_true_iff, Hz, list_elem_of_In. eapply list_elem_of_lookup_2; eauto.
  - eapply IH; eauto.
Qed.

Lemma filter_nil_Forall {A} (P : A -> Prop) `{forall x, Decision (P x)} (l : list A) :
  Forall (fun x => ~ P x) l -> filter P l = [].
Proof.
  induction 1 as [|x l Hx Hl IH]; [reflexivity|].
  now rewrite filter_cons_False.
Qed.

(** With values pairwise apart, the two ordinal ranks of a value add up to
    one more than the number of values. *)
Lemma rank_sum (vs : list float) (i : nat) (x : float) :
  distinct_values vs = true -> vs !! i = Some x ->
  (ordinal_rank ascending vs i x + ordinal_rank descending vs i x)%nat
  = S (length vs).
Proof.
  intros Hd Hi. unfold ordinal_rank.
  assert (Hbefore : filter (fun y => tied y x = true) (take i vs) = []).
  { apply filter_nil_Forall, Forall_forall. intros y Hy.
    apply list_elem_of_lookup in Hy as [k Hk].
    apply lookup_take_Some in Hk as [Hk Hlt].
    rewrite (distinct_values_lookup vs i k x y Hd Hi Hk) by lia. discriminate. }
  assert (Hafter : filter (fun y => tied y x = true) (drop (S i) vs) = []).
  { apply filter_nil_Forall, Forall_forall. intros y Hy.
    apply list_elem_of_lookup in Hy as [k Hk].
    rewrite lookup_drop in Hk.
    rewrite (distinct_values_lookup vs i (S i + k) x y Hd Hi Hk) by lia. discriminate. }
  assert (Hone : length (filter (fun y => tied y x = true) vs) = 1%nat).
  { rewrite <- (take_drop_middle vs i x Hi), filter_app, filter_cons_True
      by apply tied_refl.
    rewrite Hbefore, Hafter. reflexivity. }
  pose proof (rank_partition x vs) as Hp.
  rewrite Hbefore. simpl. lia.
Qed.

(** With more than twice [n] values, pairwise apart, no asset is both among
    the [n] first and among the [n] last. *)
Lemma select_rank_disjoint (n : nat) (v : asset -> float) (cands : list asset)
    (a : asset) :
  (2 * n <= length cands)%nat ->
  distinct_values (map v cands) = true ->
  select_rank descending n v cands a && select_rank ascending n v cands a = false.
Proof.
  intros Hlen Hd. unfold select_rank. cbv zeta.
  destruct (position a cands) as [i|] eqn:E; [|reflexivity].
  apply position_Some in E.
  assert (Hi : map v cands !! i = Some (v a)).
  { change (map v cands) with (v <$> cands). now rewrite list_lookup_fmap, E. }
  pose proof (rank_sum _ _ _ Hd Hi) as Hs. rewrite length_map in Hs.
  apply andb_false_iff.
  destruct (bool_decide_reflect
              (ordinal_rank descending (map v cands) i (v a) <= n)%nat) as [H1|H1];
    [|now left].
  right. apply bool_decide_eq_false. lia.
Qed.

End Ranks.


(** ** The momentum screen and the long/short pipeline *)

Section Screens.
Import numpy Terms Engine Binary64 CustomFactors.
Context (lib : Library) (db : DataBase).

Lemma filter_all {A} (l : list A) : filter (fun _ : A => true = true) l = l.
Proof.
  induction l as [|x l IH]; [reflexivity|].
  now rewrite filter_cons_True, IH.
Qed.

Lemma window_well_shaped (c : BoundColumn) (d : date) (w : nat) (assets : list asset) :
  well_shaped (window db c d w assets).
Proof.
  unfold well_shaped, window. simpl. apply Forall_forall. intros r Hr.
  apply list_elem_of_In, in_map_iff in Hr as (k & <- & _).
  now rewrite length_map.
Qed.

Lemma window_shape0 (c : BoundColumn) (d : date) (w : nat) (assets : list asset) :
  shape0 (window db c d w assets) = w.
Proof. unfold shape0, window. simpl. now rewrite length_map, length_seq. Qed.

Lemma window_column (c : BoundColumn) (d : date) (w : nat) (assets : list asset)
    (j : nat) (a : asset) :
  assets !! j = Some a ->
  column j (window db c d w assets)
  = map (fun k => as_float (cell db c (d - Z.of_nat w + Z.of_nat k) a)) (seq 0 w).
Proof.
  intros Ha. unfold column, window. simpl. rewrite map_map.
  apply map_ext. intros k. apply nth_lookup_Some.
  change (map ?f assets) with (f <$> assets).
  now rewrite list_lookup_fmap, Ha.
Qed.

(** The factor [Momentum(window_length=w)] has a value on every day, not
    negative for the securities whose closes of the window are prices. *)
Lemma eval_Momentum (w : nat) (d : date) :
  (0 < w)%nat ->
  exists v,
    eval_factor lib db (Momentum w None) d = Some v
    /\ forall a,
         a ∈ securities db d ->
         (forall k, 1 <= k <= Z.of_nat w ->
            positive_price (as_float (cell db USEquityPricing.close (d - k) a)) = true) ->
         (0 <=? v a)%float = true.
Proof.
  intros Hw. unfold Momentum. simpl. rewrite filter_all.
  set (secs := securities db d).
  set (win := window db USEquityPricing.close d w secs).
  assert (Hws : well_shaped win) by apply window_well_shaped.
  assert (Hs0 : (0 < shape0 win)%nat) by (unfold win; now rewrite window_shape0).
  assert (Hout : length (replicate (length secs) nan) = shape1 win)
    by apply length_replicate.
  destruct (momentum_lookup d secs _ win Hws Hs0 Hout) as (out' & Hc & _ & _).
  rewrite Hc. simpl. eexists. split; [reflexivity|].
  intros a Ha Hp.
  destruct (position_elem_of a secs Ha) as (j & Hpos & Hj).
  unfold scatter. rewrite Hpos.
  assert (Hjn : (j < shape1 win)%nat).
  { simpl. apply lookup_lt_is_Some. eauto. }
  destruct (momentum_nonneg d secs _ win j Hws Hs0 Hout Hjn) as (out'' & x & Hc' & Hx & Hn).
  - unfold win. rewrite (window_column _ _ _ _ _ _ Hj).
    apply Forall_forall. intros y Hy.
    apply list_elem_of_In, in_map_iff in Hy as (k & <- & Hk).
    apply in_seq in Hk.
    replace (d - Z.of_nat w + Z.of_nat k) with (d - (Z.of_nat w - Z.of_nat k)) by lia.
    apply Hp. lia.
  - assert (out'' = out') as -> by congruence.
    rewrite Hx. exact Hn.
Qed.

Lemma eval_StdDev (c : BoundColumn) (w : nat) (d : date) :
  is_Some (eval_factor lib db (StdDev [c] w None) d).
Proof.
  unfold StdDev. simpl. rewrite filter_all.
  set (secs := securities db d).
  destruct (StdDev_compute_lookup d secs (replicate (length secs) nan)
              (window db c d w secs)) as (out' & Hc & _).
  - apply window_well_shaped.
  - apply length_replicate.
  - rewrite Hc. simpl. eauto.
Qed.

Lemma eval_columns_is_Some (cols : gmap string Term) (d : date) :
  (forall k t, cols !! k = Some t -> is_Some (eval_term lib db t d)) ->
  is_Some (eval_columns lib db cols d).
Proof.
  intros H. unfold eval_columns. rewrite decide_True; [eauto|].
  intros k o Hk. rewrite lookup_fmap in Hk.
  destruct (cols !! k) as [t|] eqn:E; [|discriminate].
  injection Hk as <-. eauto.
Qed.

Lemma run_pipeline_is_Some (p : pipeline) (s e : date) :
  (forall d, s <= d <= e -> is_Some (run_day lib db p d)) ->
  is_Some (run_pipeline lib db p s e).
Proof.
  intros H. unfold run_pipeline.
  destruct (mapM _ _) as [days|] eqn:E; [simpl; eauto|].
  apply mapM_None_1, Exists_exists in E as (d & Hd & Hnone).
  apply elem_of_sessions in Hd. apply H in Hd as [day Hday]. congruence.
Qed.

(** The evaluation of the combinators, one equation each. *)
Lemma eval_And (l r : Filter) (d : date) :
  eval_filter lib db (And l r) d
  = (x ← eval_filter lib db l d; y ← eval_filter lib db r d;
     Some (fun a => x a && y a)).
Proof. reflexivity. Qed.

Lemma eval_Or (l r : Filter) (d : date) :
  eval_filter lib db (Or l r) d
  = (x ← eval_filter lib db l d; y ← eval_filter lib db r d;
     Some (fun a => x a || y a)).
Proof. reflexivity. Qed.

Lemma eval_Compare (op : cmpop) (g : Factor) (c : float) (d : date) :
  eval_filter lib db (Compare op g c) d
  = (v ← eval_factor lib db g d; Some (fun a => apply_cmpop op (v a) c)).
Proof. reflexivity. Qed.

Lemma eval_Top (n : nat) (g : Factor) (d : date) :
  eval_filter lib db (Top n g None) d
  = (v ← eval_factor lib db g d;
     Some (select_rank descending n v
             (candidates (fun _ => true) v (securities db d)))).
Proof. reflexivity. Qed.

Lemma eval_Bottom (n : nat) (g : Factor) (d : date) :
  eval_filter lib db (Bottom n g None) d
  = (v ← eval_factor lib db g d;
     Some (select_rank ascending n v
             (candidates (fun _ => true) v (securities db d)))).
Proof. reflexivity. Qed.

Lemma eval_TFilter (f : Filter) (d : date) :
  eval_term lib db (TFilter f) d
  = (g ← eval_filter lib db f d; Some (fun a => Boolean (g a))).
Proof. reflexivity. Qed.

Lemma eval_TFactor (f : Factor) (d : date) :
  eval_term lib db (TFactor f) d
  = (g ← eval_factor lib db f d; Some (fun a => Float (g a))).
Proof. reflexivity. Qed.

End Screens.


Section Strategies.
Import numpy Terms Engine Binary64 CustomFactors.
Import CustomFactorPipelines PuttingItAllTogether.
Context (lib : Library) (db : DataBase).

(** C8, as amended.  For an asset whose close prices over the window are
    finite and above zero, the output of [Momentum] is not negative (and not
    [NaN]); so [positive_momentum], the conjunction of the two comparisons
    [>= 0], is [True] for a security whose closes of the sixty days before a
    day are such prices, and the run keeps its row for that day. *)
Theorem positive_momentum_keeps_priced_assets (s e d : date) (a : asset) :
  s <= d <= e -> a ∈ securities db d ->
  (forall k, 1 <= k <= 60 ->
     positive_price (as_float (cell db USEquityPricing.close (d - k) a)) = true) ->
  (forall today assets out close j,
      well_shaped close -> (0 < shape0 close)%nat ->
      length out = shape1 close -> (j < shape1 close)%nat ->
      Forall (fun x => positive_price x = true) (column j close) ->
      exists out' v,
        Momentum_compute today assets out close = Some out'
        /\ out' !! j = Some v /\ (0 <=? v)%float = true)
  /\ (exists v30 v60,
        eval_factor lib db MomentumPipeline.thirty_day_momentum d = Some v30
        /\ eval_factor lib db MomentumPipeline.sixty_day_momentum d = Some v60
        /\ (0 <=? v30 a)%float = true /\ (0 <=? v60 a)%float = true)
  /\ (exists keep,
        eval_filter lib db MomentumPipeline.positive_momentum d = Some keep
        /\ keep a = true)
  /\ exists t,
       run_pipeline lib db MomentumPipeline.make_pipeline s e = Some t
       /\ (d, a) ∈ index t.
Proof.
  intros Hd Ha Hp.
  split; [intros; now apply momentum_nonneg|].
  assert (Hev : forall d', exists v30 v60,
      eval_factor lib db MomentumPipeline.thirty_day_momentum d' = Some v30
      /\ eval_factor lib db MomentumPipeline.sixty_day_momentum d' = Some v60
      /\ eval_filter lib db MomentumPipeline.positive_momentum d'
         = Some (fun a => (0 <=? v30 a)%float && (0 <=? v60 a)%float)
      /\ forall a',
           a' ∈ securities db d' ->
           (forall k, 1 <= k <= 60 ->
              positive_price (as_float (cell db USEquityPricing.close (d' - k) a')) = true) ->
           (0 <=? v30 a')%float = true /\ (0 <=? v60 a')%float = true).
  { intros d'.
    destruct (eval_Momentum lib db 30 d' ltac:(lia)) as (v30 & H30 & P30).
    destruct (eval_Momentum lib db 60 d' ltac:(lia)) as (v60 & H60 & P60).
    exists v30, v60. split; [exact H30|]. split; [exact H60|]. split.
    - unfold MomentumPipeline.positive_momentum.
      rewrite eval_And, !eval_Compare.
      unfold MomentumPipeline.thirty_day_momentum, MomentumPipeline.sixty_day_momentum.
      rewrite H30, H60. reflexivity.
    - intros a' Ha' Hp'. split; [apply P30|apply P60]; auto.
      intros k Hk. apply Hp'. lia. }
  destruct (Hev d) as (v30 & v60 & H30 & H60 & Hf & Hpos).
  destruct (Hpos a Ha Hp) as [P30 P60].
  split; [eauto 10|].
  split; [eexists; split; [exact Hf|]; simpl; now rewrite P30, P60|].
  destruct (run_pipeline_is_Some lib db MomentumPipeline.make_pipeline s e) as [t Ht].
  - intros d' _. unfold run_day.
    destruct (Hev d') as (w30 & w60 & E30 & E60 & Ef & _).
    cbn [screen MomentumPipeline.make_pipeline eval_screen]. rewrite Ef.
    destruct (eval_columns_is_Some lib db
                (columns MomentumPipeline.make_pipeline) d') as [cols Hc].
    + intros k t Hk. cbn [columns MomentumPipeline.make_pipeline] in Hk.
      apply lookup_insert_Some in Hk as [[_ <-]|[_ Hk]].
      { rewrite eval_TFactor.
        destruct (eval_StdDev lib db USEquityPricing.close 5 d') as [x Hx].
        unfold MomentumPipeline.std_dev. rewrite Hx. simpl. eauto. }
      apply lookup_insert_Some in Hk as [[_ <-]|[_ Hk]].
      { rewrite eval_TFactor, E30. simpl. eauto. }
      apply lookup_singleton_Some in Hk as [_ <-].
      rewrite eval_TFactor, E60. simpl. eauto.
    + rewrite Hc. eauto.
  - exists t. split; [exact Ht|].
    apply (index_of_screened_run lib db MomentumPipeline.make_pipeline
             MomentumPipeline.positive_momentum s e t d a eq_refl Ht).
    split; [exact Hd|]. split; [exact Ha|].
    eexists. split; [exact Hf|]. simpl. now rewrite P30, P60.
Qed.

(** C9, as amended.  Every row of the long/short pipeline has [longs] or
    [shorts] [True], the screen being their disjunction; and when more than
    100 securities have a defined [percent_difference] on the day and these
    values are pairwise apart (no two of them tied), no row has both. *)
Theorem long_short_rows (s e : date) (t : Table) (d : date) (a : asset)
    (cells : gmap string value) :
  run_pipeline lib db (LongShort.make_pipeline lib) s e = Some t ->
  (d, a, cells) ∈ table_rows t ->
  exists l sh,
    cells !! "longs" = Some (Boolean l)
    /\ cells !! "shorts" = Some (Boolean sh)
    /\ l || sh = true
    /\ forall v,
         eval_factor lib db (LongShort.percent_difference lib) d = Some v ->
         let defined := candidates (fun _ => true) v (securities db d) in
         (100 < length defined)%nat ->
         distinct_values (map v defined) = true ->
         l && sh = false.
Proof.
  intros Hrun Hrow.
  apply (run_pipeline_row lib db _ _ _ _ _ _ _ Hrun) in Hrow
    as (Hd & Ha & keep & cols & Hs & Hc & Hk & ->).
  cbn [screen LongShort.make_pipeline eval_screen] in Hs.
  unfold LongShort.securities_to_trade, LongShort.shorts, LongShort.longs in Hs.
  rewrite eval_Or, eval_Top, eval_Bottom in Hs.
  destruct (eval_factor lib db (LongShort.percent_difference lib) d) as [v|] eqn:Ev;
    [|discriminate Hs].
  simpl in Hs. injection Hs as <-.
  set (defined := candidates (fun _ => true) v (securities db d)) in *.
  pose proof (eval_columns_lookup lib db _ _ _ "longs" Hc) as Hl.
  pose proof (eval_columns_lookup lib db _ _ _ "shorts" Hc) as Hsh.
  cbn [columns LongShort.make_pipeline] in Hl, Hsh.
  rewrite lookup_insert_eq in Hl.
  rewrite lookup_insert_ne, lookup_singleton_eq in Hsh by discriminate.
  cbn [mbind option_bind] in Hl, Hsh.
  unfold LongShort.shorts in Hsh. unfold LongShort.longs in Hl.
  rewrite eval_TFilter, eval_Bottom, Ev in Hl.
  rewrite eval_TFilter, eval_Top, Ev in Hsh. simpl in Hl, Hsh.
  fold defined in Hl, Hsh.
  exists (select_rank ascending 50 v defined a), (select_rank descending 50 v defined a).
  rewrite !lookup_fmap, Hl, Hsh. simpl.
  split; [reflexivity|]. split; [reflexivity|]. split.
  - now rewrite orb_comm.
  - intros v' Hv'. injection Hv' as <-. fold defined. intros Hlen Hdist.
    rewrite andb_comm. apply select_rank_disjoint; [lia|exact Hdist].
Qed.

End Strategies.


(** ** The theorems on the examples *)

Section Witnesses.
Import numpy Terms Engine Binary64 CustomFactors Examples.
Import CustomFactorPipelines PuttingItAllTogether.

Lemma closes_well_shaped : well_shaped closes.
Proof. repeat constructor. Qed.

Lemma StdDev_compute_nanstd_example :
  (exists out',
     StdDev_compute 100 [2; 24] [nan; nan] Cases.nine_days = Some out'
     /\ length out' = 2%nat
     /\ forall j, (j < 2)%nat ->
          out' !! j
          = Some (std_ignoring_nan (column_sum true) (column j Cases.nine_days)))
  /\ (exists out',
        StdDev_compute 100 [2; 24] [nan; nan] closes = Some out'
        /\ length out' = 2%nat
        /\ forall j, (j < 2)%nat ->
             out' !! j = Some (std_of_present (column j closes))).
Proof.
  split.
  - destruct (StdDev_compute_nanstd 100 [2; 24] [nan; nan] Cases.nine_days)
      as (out' & Hc & Hl & Hlook).
    + repeat constructor.
    + reflexivity.
    + exists out'. split; [exact Hc|]. split; [exact Hl|].
      intros j Hj. exact (proj1 (Hlook j Hj)).
  - destruct (StdDev_compute_nanstd 100 [2; 24] [nan; nan] closes)
      as (out' & Hc & Hl & Hlook).
    + repeat constructor.
    + reflexivity.
    + exists out'. split; [exact Hc|]. split; [exact Hl|].
      intros j Hj. exact (proj2 (Hlook j Hj) eq_refl).
Defined.

Lemma ThirtyDayMeanDifference_example :
  ThirtyDayMeanDifference None None None
  = CustomFactor (call2 ThirtyDayMeanDifference_compute)
      [USEquityPricing.close; USEquityPricing.open] 30 None
  /\ (exists out',
        ThirtyDayMeanDifference_compute 100 [2; 24] [nan; nan]
          Cases.nine_days Cases.nine_zeros = Some out'
        /\ length out' = 2%nat
        /\ forall j, (j < 2)%nat ->
             out' !! j
             = Some (mean_ignoring_nan (column_sum true)
                       (zip_with PrimFloat.sub (column j Cases.nine_days)
                          (column j Cases.nine_zeros))))
  /\ (exists out',
        ThirtyDayMeanDifference_compute 100 [2; 24] [nan; nan] closes opens = Some out'
        /\ length out' = 2%nat
        /\ forall j, (j < 2)%nat ->
             out' !! j
             = Some (mean_of_present
                       (zip_with PrimFloat.sub (column j closes) (column j opens)))).
Proof.
  split; [reflexivity|]. split.
  - destruct (ThirtyDayMeanDifference_mean_difference 100 [2; 24] [nan; nan]
                Cases.nine_days Cases.nine_zeros)
      as (_ & d & out' & Hd & Hc & Hl & Hlook); try reflexivity;
      try (repeat constructor).
    injection Hd as <-.
    exists out'. split; [exact Hc|]. split; [exact Hl|].
    intros j Hj. destruct (Hlook j Hj) as (Hcol & Hv & _).
    rewrite Hv, Hcol. reflexivity.
  - destruct (ThirtyDayMeanDifference_mean_difference 100 [2; 24] [nan; nan]
                closes opens)
      as (_ & d & out' & Hd & Hc & Hl & Hlook); try reflexivity;
      try (repeat constructor).
    injection Hd as <-.
    exists out'. split; [exact Hc|]. split; [exact Hl|].
    intros j Hj. destruct (Hlook j Hj) as (Hcol & _ & Hv).
    rewrite (Hv eq_refl), Hcol. reflexivity.
Defined.

Lemma Momentum_compute_example :
  exists out',
    Momentum_compute 100 [2; 24] [nan; nan] highs = Some out'
    /\ length out' = 2%nat
    /\ forall j, (j < 2)%nat ->
         exists newest oldest,
           last (column j highs) = Some newest
           /\ head (column j highs) = Some oldest
           /\ out' !! j = Some (newest / oldest)%float.
Proof.
  apply (Momentum_compute_ratio 100 [2; 24] [nan; nan] highs).
  - repeat constructor.
  - vm_compute. lia.
  - reflexivity.
Defined.

Lemma high_low_difference_example :
  CustomFactorPipelines.HighLow.high_low_diff
  = CustomFactor (call2 ThirtyDayMeanDifference_compute)
      [USEquityPricing.high; USEquityPricing.low] 30 None
  /\ exists out' v,
       ThirtyDayMeanDifference_compute 100 [2; 24] [nan; nan] highs lows = Some out'
       /\ out' !! 0%nat = Some v
       /\ (0 <=? v)%float = true.
Proof.
  apply (high_low_difference_nonneg 100 [2; 24] [nan; nan] highs lows 0).
  - repeat constructor.
  - repeat constructor.
  - reflexivity.
  - reflexivity.
  - vm_compute. lia.
  - vm_compute. reflexivity.
  - reflexivity.
  - vm_compute. lia.
  - intros [|[|[|i]]] h l Hh Hl; vm_compute in Hh, Hl; try discriminate;
      injection Hh as <-; injection Hl as <-; vm_compute; auto.
Defined.

(** A high and a low that are [+inf] on every day: the high is at least
    equal to the low, their difference is [NaN] on every day, [nanmean] is
    left with nothing, and the factor gives [NaN], which is not [>= 0]. *)
Lemma high_low_difference_of_endless_prices :
  (forall i h l,
     column 0 Cases.endless !! i = Some h -> column 0 Cases.endless !! i = Some l ->
     (l <=? h)%float = true)
  /\ ThirtyDayMeanDifference_compute 100 [24] [0%float] Cases.endless Cases.endless
     = Some [nan]
  /\ (0 <=? nan)%float = false.
Proof.
  split; [|split].
  - intros [|[|i]] h l Hh Hl; vm_compute in Hh, Hl; try discriminate;
      injection Hh as <-; injection Hl as <-; vm_compute; reflexivity.
  - vm_compute. reflexivity.
  - vm_compute. reflexivity.
Qed.

(** The order of the additions shows in the result.  Over the nine days of
    [nine_days] the first asset sums to [2^53 + 2] when the window lies column
    after column ([2^53 + 0] and [1 + 1] meet as two of the eight running
    sums) and to [2^53] when it lies row after row (each [1] is lost when it
    is added to [2^53]). *)
Lemma mean_difference_by_memory_order :
  ThirtyDayMeanDifference_compute 100 [2; 24] [nan; nan]
    Cases.nine_days Cases.nine_zeros
  = Some [(0x1.0000000000001p53 / 9)%float; 4.5%float]
  /\ ThirtyDayMeanDifference_compute 100 [2; 24] [nan; nan]
       Cases.nine_days_by_row Cases.nine_zeros_by_row
     = Some [(0x1p53 / 9)%float; 4.5%float].
Proof. split; vm_compute; reflexivity. Qed.

(** From 8 days on, in a window that lies column after column, a day
    without a value still takes a place among the eight running sums: the
    mean of the other days can change when that day is taken out. *)
Lemma missing_day_moves_the_mean :
  nanmean_axis0
    (mk_ndarray2 F_order 1 ([[0x1p53]] ++ [nan] :: [[0]; [1]; [1]; [0]; [0]; [0]; [0]]))%float
  = [0x1p50%float]
  /\ nanmean_axis0
       (mk_ndarray2 F_order 1 ([[0x1p53]] ++ [[0]; [1]; [1]; [0]; [0]; [0]; [0]]))%float
     = [0x1.0000000000001p50%float].
Proof. split; vm_compute; reflexivity. Qed.

End Witnesses.


Section EngineWitnesses.
Import numpy Terms Engine Binary64 CustomFactors Examples.
Import CustomFactorPipelines PuttingItAllTogether.

Lemma universe_run :
  run_pipeline library small BuiltinUniverse.make_pipeline 100 100
  = Some universe_table.
Proof. vm_compute. reflexivity. Qed.

Lemma screen_selects_rows_example :
  (forall d a,
     (d, a) ∈ index universe_table <->
     100 <= d <= 100 /\ a ∈ securities small d
     /\ exists keep,
          eval_filter library small BuiltinUniverse.base_universe d = Some keep
          /\ keep a = true)
  /\ (forall d a keep,
        eval_filter library small BuiltinUniverse.base_universe d = Some keep ->
        keep a = false -> (d, a) ∉ index universe_table).
Proof.
  apply (screen_selects_rows library small BuiltinUniverse.make_pipeline
           BuiltinUniverse.base_universe 100 100 universe_table).
  - reflexivity.
  - vm_compute. reflexivity.
Defined.

Lemma run_pipeline_table_example :
  table_columns difference_table
  = dom (columns (CombiningFactors.make_pipeline library))
  /\ (forall d a cells,
        (d, a, cells) ∈ table_rows difference_table ->
        100 <= d <= 100 /\ a ∈ securities small d
        /\ dom cells = dom (columns (CombiningFactors.make_pipeline library)))
  /\ exists t0,
       run_pipeline library small CreatingAPipeline.make_pipeline 100 100 = Some t0
       /\ table_columns t0 = ∅
       /\ forall d a, (d, a) ∈ index t0 <-> 100 <= d <= 100 /\ a ∈ securities small d.
Proof.
  apply (run_pipeline_table library small (CombiningFactors.make_pipeline library)
           100 100 difference_table).
  vm_compute. reflexivity.
Defined.

(** The masked moving average of the last lesson, on the small database:
    asset 21 is outside the mask. *)
Lemma masked_factor_example :
  exists keep v,
    eval_filter library small LongShort.base_universe 100 = Some keep
    /\ eval_factor library small (LongShort.mean_30 library) 100 = Some v
    /\ keep 21 = false
    /\ isnan (v 21) = true
    /\ isnan (v 24) = false.
Proof.
  destruct (eval_factor library small (LongShort.mean_30 library) 100) as [v|] eqn:Ev.
  2: { exfalso. vm_compute in Ev. discriminate Ev. }
  exists (builtin small "QTradableStocksUS" 100), v.
  split; [reflexivity|]. split; [reflexivity|]. split; [reflexivity|].
  split.
  - apply (masked_factor_computation library small
             (SimpleMovingAverage_compute library) [USEquityPricing.close] 30
             LongShort.base_universe 100 (builtin small "QTradableStocksUS" 100) v
             eq_refl Ev).
    reflexivity.
  - vm_compute in Ev. injection Ev as <-. vm_compute. reflexivity.
Defined.

Lemma positive_momentum_example :
  exists t,
    run_pipeline library small MomentumPipeline.make_pipeline 100 100 = Some t
    /\ (100, 24) ∈ index t.
Proof.
  apply (positive_momentum_keeps_priced_assets library small 100 100 100 24).
  - lia.
  - apply (bool_decide_unpack _). vm_compute. exact I.
  - intros k Hk.
    assert (Hin : k ∈ seqZ 1 60) by (apply elem_of_seqZ; lia).
    clear Hk. revert k Hin. apply Forall_forall.
    apply (bool_decide_unpack _). vm_compute. exact I.
Defined.

(** Prices above zero whose quotient is zero: the close falls from [2] to the
    least positive number, and [Momentum] gives [0], which is not above zero. *)
Lemma momentum_underflow :
  Forall (fun x => positive_price x = true) (column 0 collapse)
  /\ Momentum_compute 100 [24] [nan] collapse = Some [0%float]
  /\ (0 <? 0)%float = false.
Proof.
  split; [|split].
  - repeat constructor.
  - vm_compute. reflexivity.
  - vm_compute. reflexivity.
Qed.

End EngineWitnesses.


Section LongShortExamples.
Import numpy Terms Engine Binary64 CustomFactors Examples.
Import PuttingItAllTogether.

(** On the wide database the 101 percent differences are defined and
    pairwise apart. *)
Lemma wide_values_apart :
  exists v,
    eval_factor library wide (LongShort.percent_difference library) 100 = Some v
    /\ (100 < length (candidates (fun _ => true) v (securities wide 100%Z)))%nat
    /\ distinct_values (map v (candidates (fun _ => true) v (securities wide 100)))
       = true.
Proof.
  assert (H : match eval_factor library wide (LongShort.percent_difference library) 100 with
              | Some v =>
                  let defined := candidates (fun _ => true) v (securities wide 100) in
                  (100 <? length defined)%nat && distinct_values (map v defined)
              | None => false
              end = true) by (vm_compute; reflexivity).
  destruct (eval_factor library wide (LongShort.percent_difference library) 100)
    as [v|]; [|discriminate H].
  exists v. split; [reflexivity|].
  apply andb_prop in H as [Hlen Hdist]. split; [|exact Hdist].
  apply Nat.ltb_lt. exact Hlen.
Qed.

Lemma long_short_rows_example :
  exists t cells l sh,
    run_pipeline library wide (LongShort.make_pipeline library) 100 100 = Some t
    /\ table_rows t !! 0%nat = Some (100, 1, cells)
    /\ cells !! "longs" = Some (Boolean l)
    /\ cells !! "shorts" = Some (Boolean sh)
    /\ l || sh = true
    /\ l && sh = false.
Proof.
  assert (H : match run_pipeline library wide (LongShort.make_pipeline library) 100 100 with
              | Some t =>
                  match table_rows t !! 0%nat with
                  | Some (d, a, _) => (d =? 100) && (a =? 1)
                  | None => false
                  end
              | None => false
              end = true) by (vm_compute; reflexivity).
  destruct (run_pipeline library wide (LongShort.make_pipeline library) 100 100)
    as [t|] eqn:Hrun; [|discriminate H].
  destruct (table_rows t !! 0%nat) as [[[d a] cells]|] eqn:Hrow; [|discriminate H].
  apply andb_prop in H as [Hd Ha]. apply Z.eqb_eq in Hd, Ha. subst d a.
  destruct (long_short_rows library wide 100 100 t 100 1 cells Hrun
              (list_elem_of_lookup_2 _ _ _ Hrow))
    as (l & sh & Hl & Hsh & Hor & Hand).
  exists t, cells, l, sh. repeat split; try assumption.
  destruct wide_values_apart as (v & Hv & Hlen & Hdist).
  exact (Hand v Hv Hlen Hdist).
Defined.

(** With tied values the two selections meet: on the flat database 101
    securities have the same defined percent difference, and the first of
    them is both among the longs and among the shorts of its row. *)
Lemma long_short_overlap_with_ties :
  exists t v cells,
    run_pipeline library flat (LongShort.make_pipeline library) 100 100 = Some t
    /\ eval_factor library flat (LongShort.percent_difference library) 100 = Some v
    /\ (100 < length (candidates (fun _ => true) v (securities flat 100%Z)))%nat
    /\ (100, 1, cells) ∈ table_rows t
    /\ cells !! "longs" = Some (Boolean true)
    /\ cells !! "shorts" = Some (Boolean true).
Proof.
  assert (H : match run_pipeline library flat (LongShort.make_pipeline library) 100 100,
                    eval_factor library flat (LongShort.percent_difference library) 100 with
              | Some t, Some v =>
                  match table_rows t !! 0%nat with
                  | Some (d, a, cells) =>
                      match cells !! "longs", cells !! "shorts" with
                      | Some (Boolean true), Some (Boolean true) =>
                          (d =? 100) && (a =? 1)
                          && (100 <? length (candidates (fun _ => true) v
                                               (securities flat 100%Z)))%nat
                      | _, _ => false
                      end
                  | None => false
                  end
              | _, _ => false
              end = true) by (vm_compute; reflexivity).
  destruct (run_pipeline library flat (LongShort.make_pipeline library) 100 100)
    as [t|]; [|discriminate H].
  destruct (eval_factor library flat (LongShort.percent_difference library) 100)
    as [v|]; [|discriminate H].
  destruct (table_rows t !! 0%nat) as [[[d a] cells]|] eqn:Hrow; [|discriminate H].
  destruct (cells !! "longs") as [[|[]| |]|] eqn:Hl; try discriminate H.
  destruct (cells !! "shorts") as [[|[]| |]|] eqn:Hsh; try discriminate H.
  apply andb_prop in H as [H Hlen]. apply andb_prop in H as [Hd Ha].
  apply Z.eqb_eq in Hd, Ha. subst d a. apply Nat.ltb_lt in Hlen.
  exists t, v, cells. repeat split; try assumption.
  eapply list_elem_of_lookup_2. exact Hrow.
Qed.

End LongShortExamples.


(** * Further properties of the custom factors and of the pipelines *)

Import Order64.

(** ** Binary64: squares, roots and exact results *)

Section MoreFloats.
Import numpy Terms.

Lemma Prim2SF_inj (x y : float) : Prim2SF x = Prim2SF y -> x = y.
Proof.
  intros H. rewrite <- (FloatAxioms.SF2Prim_Prim2SF x), <- (FloatAxioms.SF2Prim_Prim2SF y).
  now rewrite H.
Qed.

Lemma SFmul_self_sign x :
  SFmul prec emax x x = S754_nan \/ sf_nonneg (SFmul prec emax x x) = true.
Proof.
  destruct x as [s|s| |s m e]; simpl.
  - right. now destruct s.
  - right. now destruct s.
  - now left.
  - right. pose proof (binary_round_aux_sign (xorb s s) (Zpos (m * m)) (e + e) loc_Exact
                         ltac:(lia)) as H.
    destruct (binary_round_aux _ _ _ _ _ _); simpl in *; try tauto;
      subst; now destruct s.
Qed.

Lemma sqrt_core_nonneg m e :
  0 <= fst (fst (SFsqrt_core_binary prec emax (Zpos m) e)).
Proof.
  unfold SFsqrt_core_binary.
  set (s := _ - _).
  set (m' := match s with Zpos _ => _ | Z0 => _ | Zneg _ => _ end).
  assert (Hm : 0 <= m').
  { subst m'. destruct s; try lia. apply Z.shiftl_nonneg. lia. }
  pose proof (Z.sqrtrem_spec m' Hm) as H.
  destruct (Z.sqrtrem m') as [q r]. simpl. lia.
Qed.

Lemma SFsqrt_nonneg x :
  sf_nonneg x = true -> sf_nonneg (SFsqrt prec emax x) = true.
Proof.
  destruct x as [s|[]| |[] m e]; try discriminate; intros _; try reflexivity.
  unfold SFsqrt.
  pose proof (sqrt_core_nonneg m e) as H.
  destruct (SFsqrt_core_binary _ _ _ _) as [[mz ez] lz]. simpl in H.
  pose proof (binary_round_aux_sign false mz ez lz H) as Hs.
  destruct (binary_round_aux _ _ _ _ _ _); simpl in *; subst; tauto.
Qed.

Lemma SFdiv_nonneg_or_nan x y :
  sf_nonneg x = true -> sf_nonneg y = true -> sf_neg_zero y = false ->
  SFdiv prec emax x y = S754_nan \/ sf_nonneg (SFdiv prec emax x y) = true.
Proof.
  intros Hx Hy Hz.
  destruct y as [[]|[]| |[] my ey]; try discriminate.
  - destruct x as [sx|[]| |[] mx ex]; try discriminate; simpl; auto.
  - destruct x as [sx|[]| |[] mx ex]; try discriminate; simpl; auto;
      right; destruct sx; reflexivity.
  - right. now apply SFdiv_nonneg.
Qed.

Lemma of_count_sign (n : nat) :
  sf_nonneg (Prim2SF (of_count n)) = true
  /\ sf_neg_zero (Prim2SF (of_count n)) = false.
Proof.
  unfold of_count. rewrite FloatAxioms.of_uint63_spec.
  pose proof (Uint63.to_Z_bounded (Uint63.of_Z (Z.of_nat n))) as Hb.
  destruct (Uint63.to_Z _) as [|p|p]; [split; reflexivity| |lia].
  simpl. pose proof (binary_round_sign false p 0) as Hs.
  destruct (binary_round _ _ _ _ _); simpl in *; subst; tauto.
Qed.

(** A square is [NaN] or not negative, and so is its root. *)
Lemma mul_self_sign (x : float) :
  isnan (x * x) = true \/ (0 <=? x * x)%float = true.
Proof.
  rewrite isnan_spec, leb_zero_nonneg, FloatAxioms.mul_spec. apply SFmul_self_sign.
Qed.

Lemma sqrt_sign (x : float) :
  isnan x = true \/ (0 <=? x)%float = true ->
  isnan (PrimFloat.sqrt x) = true \/ (0 <=? PrimFloat.sqrt x)%float = true.
Proof.
  rewrite !isnan_spec, !leb_zero_nonneg, FloatAxioms.sqrt_spec.
  intros [->|H]; [now left|right]. now apply SFsqrt_nonneg.
Qed.

Lemma add_sign (x y : float) :
  isnan x = true \/ (0 <=? x)%float = true ->
  isnan y = true \/ (0 <=? y)%float = true ->
  isnan (x + y) = true \/ (0 <=? x + y)%float = true.
Proof.
  intros [Hx|Hx] Hy.
  - left. exact (binop_nan_l OpAdd x y Hx).
  - destruct Hy as [Hy|Hy].
    + left. exact (binop_nan_r OpAdd x y Hy).
    + right. now apply add_nonneg.
Qed.

Lemma div_count_sign (x : float) (n : nat) :
  isnan x = true \/ (0 <=? x)%float = true ->
  isnan (x / of_count n) = true \/ (0 <=? x / of_count n)%float = true.
Proof.
  intros [Hx|Hx].
  - left. exact (binop_nan_l OpDiv x _ Hx).
  - destruct (of_count_sign n) as [Hn Hz].
    rewrite isnan_spec, leb_zero_nonneg, FloatAxioms.div_spec.
    rewrite leb_zero_nonneg in Hx. now apply SFdiv_nonneg_or_nan.
Qed.

(** A sum of values that are [NaN] or not negative is so, in whatever order
    it is taken. *)
Lemma column_sum_sign (pairwise : bool) (xs : ndarray1) :
  Forall (fun x => isnan x = true \/ (0 <=? x)%float = true) xs ->
  isnan (column_sum pairwise xs) = true
  \/ (0 <=? column_sum pairwise xs)%float = true.
Proof.
  apply (column_sum_closed (fun x => isnan x = true \/ (0 <=? x)%float = true)).
  - now right.
  - apply add_sign.
Qed.

(** The standard deviation of a column is [NaN] or not negative. *)
Lemma std_ignoring_nan_sign (pairwise : bool) (col : ndarray1) :
  isnan (std_ignoring_nan (column_sum pairwise) col) = true
  \/ (0 <=? std_ignoring_nan (column_sum pairwise) col)%float = true.
Proof.
  unfold std_ignoring_nan. cbv zeta.
  destruct (decide _) as [_|_]; [now left|].
  apply sqrt_sign, div_count_sign, column_sum_sign.
  apply Forall_forall. intros y Hy.
  apply list_elem_of_In, in_map_iff in Hy as (x & <- & _).
  unfold squared_deviation. apply mul_self_sign.
Qed.

(** A finite value less itself is zero, of positive sign. *)
Lemma sub_self (x : float) : is_finite x = true -> (x - x)%float = 0%float.
Proof.
  rewrite is_finite_spec. intros H. apply Prim2SF_inj.
  rewrite FloatAxioms.sub_spec. change (Prim2SF 0) with (S754_zero false).
  destruct (Prim2SF x) as [[]|s| |s m e]; try discriminate; try reflexivity.
  unfold SF64sub, SFsub. rewrite Z.sub_diag. reflexivity.
Qed.

(** A finite value that is not zero, over itself, is one. *)
Lemma div_self (x : float) :
  is_finite x = true -> (x =? 0)%float = false -> (x / x)%float = 1%float.
Proof.
  rewrite is_finite_spec, FloatAxioms.eqb_spec. change (Prim2SF 0) with (S754_zero false).
  intros H Hz. apply Prim2SF_inj. rewrite FloatAxioms.div_spec.
  destruct (Prim2SF x) as [[]|s| |s m e]; try discriminate.
  unfold SF64div, SFdiv, SFdiv_core_binary.
  replace (Zdigits2 (Zpos m) + e - (Zdigits2 (Zpos m) + e)) with 0 by lia.
  replace (e - e) with 0 by lia.
  change (Z.min (fexp prec emax 0) 0) with (-53).
  change (0 - -53) with 53.
  cbv iota beta.
  assert (Hd : Z.div_eucl (Z.shiftl (Zpos m) 53) (Zpos m) = (2 ^ 53, 0)).
  { rewrite Z.shiftl_mul_pow2 by lia.
    pose proof (Z_div_mod (Zpos m * 2 ^ 53) (Zpos m) ltac:(lia)) as Hdiv.
    destruct (Z.div_eucl _ _) as [q r]. destruct Hdiv as [Heq Hr].
    assert (q = 2 ^ 53) by nia. subst q. f_equal. lia. }
  rewrite Hd. cbv iota beta.
  replace (new_location (Zpos m) 0) with loc_Exact.
  2:{ unfold new_location. destruct (Z.even (Zpos m)); reflexivity. }
  destruct s; vm_compute; reflexivity.
Qed.

(** A sum of zeros is zero, in whatever order it is taken. *)
Lemma column_sum_zeros (pairwise : bool) (xs : ndarray1) :
  Forall (fun x => x = 0%float) xs -> column_sum pairwise xs = 0%float.
Proof.
  apply (column_sum_closed (fun x => x = 0%float)).
  - reflexivity.
  - intros x y -> ->. reflexivity.
Qed.

Lemma zero_div_count (n : nat) :
  (0 < n)%nat -> Z.of_nat n < 2 ^ 63 -> (0 / of_count n)%float = 0%float.
Proof.
  intros Hn Hb. apply Prim2SF_inj. rewrite FloatAxioms.div_spec.
  pose proof (of_count_positive n Hn Hb) as H.
  change (Prim2SF 0) with (S754_zero false).
  destruct (Prim2SF (of_count n)) as [s|s| |[] m e]; try discriminate.
  reflexivity.
Qed.

End MoreFloats.


(** ** The [compute] methods at the edges of their inputs *)

Section ComputeEdges.
Import numpy CustomFactors Terms.

Lemma drop_nan_none (xs : ndarray1) :
  Forall (fun x => isnan x = true) xs -> drop_nan xs = [].
Proof.
  intros H. unfold drop_nan. apply filter_nil_Forall.
  eapply Forall_impl; [exact H|]. intros x Hx. simpl in *. congruence.
Qed.

Lemma replace_nan_none (xs : ndarray1) :
  Forall (fun x => isnan x = true) xs ->
  Forall (fun x => x = 0%float) (map replace_nan xs).
Proof.
  intros H. apply Forall_map. eapply Forall_impl; [exact H|].
  intros x Hx. simpl in *. unfold replace_nan. now rewrite Hx.
Qed.

Lemma mean_ignoring_nan_none (pairwise : bool) (xs : ndarray1) :
  Forall (fun x => isnan x = true) xs ->
  isnan (mean_ignoring_nan (column_sum pairwise) xs) = true.
Proof.
  intros H. unfold mean_ignoring_nan.
  rewrite (drop_nan_none xs H), (column_sum_zeros _ _ (replace_nan_none xs H)).
  reflexivity.
Qed.

Lemma std_ignoring_nan_none (sum : ndarray1 -> float) (xs : ndarray1) :
  Forall (fun x => isnan x = true) xs -> isnan (std_ignoring_nan sum xs) = true.
Proof.
  intros H. unfold std_ignoring_nan. cbv zeta.
  rewrite (drop_nan_none xs H). reflexivity.
Qed.

Lemma zip_with_sub_nan (xs ys : ndarray1) :
  Forall2 (fun x y => isnan x = true \/ isnan y = true) xs ys ->
  Forall (fun z => isnan z = true) (zip_with PrimFloat.sub xs ys).
Proof.
  induction 1 as [|x y xs ys [Hx|Hy] _ IH]; simpl; constructor; try assumption.
  - exact (binop_nan_l OpSub x y Hx).
  - exact (binop_nan_r OpSub x y Hy).
Qed.

Lemma zip_with_sub_self (xs : ndarray1) :
  Forall (fun x => is_finite x = true) xs ->
  zip_with PrimFloat.sub xs xs = replicate (length xs) 0%float.
Proof.
  induction 1 as [|x xs Hx _ IH]; [reflexivity|].
  simpl. now rewrite sub_self, IH.
Qed.

Lemma drop_nan_zeros (n : nat) : drop_nan (replicate n 0%float) = replicate n 0%float.
Proof.
  apply drop_nan_all, Forall_forall. intros x Hx.
  apply elem_of_replicate in Hx as [-> _]. reflexivity.
Qed.

Lemma replace_nan_zeros (n : nat) :
  Forall (fun x => x = 0%float) (map replace_nan (replicate n 0%float)).
Proof.
  apply Forall_map, Forall_forall. intros x Hx.
  apply elem_of_replicate in Hx as [-> _]. reflexivity.
Qed.

Lemma std_of_present_ext (c1 c2 : ndarray1) :
  drop_nan c1 = drop_nan c2 -> std_of_present c1 = std_of_present c2.
Proof.
  intros H. unfold std_of_present, mean_of_present. now rewrite H.
Qed.

Lemma mean_of_present_ext (c1 c2 : ndarray1) :
  drop_nan c1 = drop_nan c2 -> mean_of_present c1 = mean_of_present c2.
Proof. intros H. unfold mean_of_present. now rewrite H. Qed.

Lemma column_app (o : memory_order) (j N : nat) (pre post : list ndarray1) :
  column j (mk_ndarray2 o N (pre ++ post))
  = column j (mk_ndarray2 o N pre) ++ column j (mk_ndarray2 o N post).
Proof. unfold column. simpl. apply map_app. Qed.

Lemma column_middle (o : memory_order) (j N : nat) (pre post : list ndarray1)
    (r : ndarray1) (x : float) :
  r !! j = Some x ->
  column j (mk_ndarray2 o N (pre ++ r :: post))
  = column j (mk_ndarray2 o N pre) ++ x :: column j (mk_ndarray2 o N post).
Proof.
  intros Hx. unfold column. simpl. rewrite map_app. simpl. do 2 f_equal.
  now apply nth_lookup_Some.
Qed.

Lemma drop_nan_middle (pre post : ndarray1) (x : float) :
  isnan x = true -> drop_nan (pre ++ x :: post) = drop_nan (pre ++ post).
Proof.
  intros Hx. unfold drop_nan. rewrite !filter_app, filter_cons_False; [reflexivity|].
  congruence.
Qed.

Lemma Forall_middle {A} (P : A -> Prop) (pre post : list A) (x : A) :
  Forall P (pre ++ x :: post) -> Forall P (pre ++ post).
Proof.
  rewrite !Forall_app, Forall_cons. tauto.
Qed.

(** A window whose sums follow the rows keeps sums that follow the rows
    when a day is taken out of it. *)
Lemma sums_in_order_middle (o : memory_order) (N : nat) (pre post : list ndarray1)
    (r : ndarray1) :
  sums_in_order (mk_ndarray2 o N (pre ++ r :: post)) = true ->
  sums_in_order (mk_ndarray2 o N (pre ++ post)) = true.
Proof.
  unfold sums_in_order, axis0_contiguous, shape0. simpl.
  destruct (negb _); [reflexivity|]. simpl.
  rewrite !Nat.ltb_lt, !length_app. simpl. lia.
Qed.

(** The difference of two windows of the same order has their order. *)
Lemma sub2_sums_in_order (a b d : ndarray2) :
  sub2 a b = Some d -> order a = order b -> sums_in_order d = sums_in_order a.
Proof.
  unfold sub2. case_decide as H; [|discriminate].
  intros [= <-] Ho. destruct H as [_ H0].
  unfold sums_in_order, axis0_contiguous, result_order, shape0 in *. simpl.
  rewrite <- Ho, length_zip_with, <- H0, Nat.min_id.
  destruct (order a); reflexivity.
Qed.

(** X1.  [StdDev.compute] never leaves a negative number in [out]: every
    entry is [NaN] or at least zero, whatever the values of the window
    (infinities and any number of rows included). *)
Theorem StdDev_compute_never_negative (today : date) (asset_ids : list asset)
    (out out' : ndarray1) (values : ndarray2) (j : nat) (x : float) :
  well_shaped values -> length out = shape1 values ->
  StdDev_compute today asset_ids out values = Some out' ->
  out' !! j = Some x ->
  isnan x = true \/ (0 <=? x)%float = true.
Proof.
  intros Ha Hout Hc Hx.
  destruct (StdDev_compute_lookup today asset_ids out values Ha Hout)
    as (out'' & Hc' & Hl & Hlook).
  assert (out'' = out') as -> by congruence.
  assert (Hj : (j < shape1 values)%nat).
  { rewrite <- Hout, <- Hl. apply lookup_lt_is_Some. eauto. }
  rewrite (Hlook j Hj) in Hx. injection Hx as <-.
  apply std_ignoring_nan_sign.
Qed.

(** X2.  For an asset with no value on any day of the window (every entry of
    its column is [NaN], or the window has no day), [StdDev.compute] does
    not raise and leaves [NaN] in the asset's place of [out]. *)
Theorem StdDev_compute_no_data (today : date) (asset_ids : list asset)
    (out : ndarray1) (values : ndarray2) (j : nat) :
  well_shaped values -> length out = shape1 values -> (j < shape1 values)%nat ->
  Forall (fun x => isnan x = true) (column j values) ->
  exists out' x,
    StdDev_compute today asset_ids out values = Some out'
    /\ out' !! j = Some x /\ isnan x = true.
Proof.
  intros Ha Hout Hj Hnan.
  destruct (StdDev_compute_lookup today asset_ids out values Ha Hout)
    as (out' & Hc & _ & Hlook).
  exists out'. eexists.
  split; [exact Hc|]. split; [now apply Hlook|].
  now apply std_ignoring_nan_none.
Qed.

(** X3.  In a window whose sums numpy takes one row after the other (fewer
    than 8 days, or two assets or more laid out row after row), a day on
    which an asset has no value does not count for that asset: the standard
    deviation [StdDev.compute] leaves for it is the one of the window without
    that day, whatever the day holds for the other assets. *)
Theorem StdDev_compute_skips_missing_value (today : date) (asset_ids : list asset)
    (out : ndarray1) (o : memory_order) (N : nat) (pre post : list ndarray1)
    (r : ndarray1) (j : nat) (x : float) :
  Forall (fun r => length r = N) (pre ++ r :: post) -> length out = N ->
  r !! j = Some x -> isnan x = true ->
  sums_in_order (mk_ndarray2 o N (pre ++ r :: post)) = true ->
  exists out1 out2,
    StdDev_compute today asset_ids out (mk_ndarray2 o N (pre ++ r :: post)) = Some out1
    /\ StdDev_compute today asset_ids out (mk_ndarray2 o N (pre ++ post)) = Some out2
    /\ out1 !! j = out2 !! j.
Proof.
  intros Hrs Hout Hx Hnan Hs.
  assert (Hj : (j < N)%nat).
  { apply Forall_app in Hrs as [_ Hrs]. apply Forall_cons in Hrs as [<- _].
    apply lookup_lt_is_Some. eauto. }
  destruct (StdDev_compute_lookup today asset_ids out
              (mk_ndarray2 o N (pre ++ r :: post)) Hrs Hout) as (out1 & H1 & _ & L1).
  destruct (StdDev_compute_lookup today asset_ids out
              (mk_ndarray2 o N (pre ++ post)) (Forall_middle _ _ _ _ Hrs) Hout)
    as (out2 & H2 & _ & L2).
  exists out1, out2. split; [exact H1|]. split; [exact H2|].
  rewrite (L1 j Hj), (L2 j Hj). f_equal.
  rewrite !std_in_order;
    try apply length_column; try exact Hs; try exact (sums_in_order_middle _ _ _ _ _ Hs).
  apply std_of_present_ext.
  rewrite (column_middle o j N pre post r x Hx), column_app.
  now apply drop_nan_middle.
Qed.

(** X4.  For an asset that lacks the close or the open on every day of the
    window (or when the window has no day), [ThirtyDayMeanDifference.compute]
    does not raise and leaves [NaN] in the asset's place of [out]. *)
Theorem ThirtyDayMeanDifference_no_data (today : date) (asset_ids : list asset)
    (out : ndarray1) (close open : ndarray2) (j : nat) :
  well_shaped close -> well_shaped open ->
  shape1 close = shape1 open -> shape0 close = shape0 open ->
  length out = shape1 close -> (j < shape1 close)%nat ->
  Forall2 (fun c o => isnan c = true \/ isnan o = true)
          (column j close) (column j open) ->
  exists out' x,
    ThirtyDayMeanDifference_compute today asset_ids out close open = Some out'
    /\ out' !! j = Some x /\ isnan x = true.
Proof.
  intros Ha Hb H1 H0 Hout Hj Hnan.
  destruct (mean_difference_lookup today asset_ids out close open Ha Hb H1 H0 Hout)
    as (d & out' & _ & _ & _ & Hc & _ & Hlook).
  destruct (Hlook j Hj) as [Hcol Hv].
  exists out'. eexists. split; [exact Hc|]. split; [exact Hv|].
  rewrite Hcol. now apply mean_ignoring_nan_none, zip_with_sub_nan.
Qed.

(** X5.  In windows whose sums numpy takes one row after the other (fewer
    than 8 days, or two assets or more laid out row after row), a day on
    which the close or the open of an asset is missing does not count for
    that asset: the mean difference is the one of the two windows without
    that day. *)
Theorem ThirtyDayMeanDifference_skips_missing_value (today : date)
    (asset_ids : list asset) (out : ndarray1) (o : memory_order) (N : nat)
    (pc qc po qo : list ndarray1) (rc ro : ndarray1) (j : nat) (xc xo : float) :
  Forall (fun r => length r = N) (pc ++ rc :: qc) ->
  Forall (fun r => length r = N) (po ++ ro :: qo) ->
  length pc = length po -> length qc = length qo -> length out = N ->
  rc !! j = Some xc -> ro !! j = Some xo ->
  isnan xc = true \/ isnan xo = true ->
  sums_in_order (mk_ndarray2 o N (pc ++ rc :: qc)) = true ->
  exists out1 out2,
    ThirtyDayMeanDifference_compute today asset_ids out
      (mk_ndarray2 o N (pc ++ rc :: qc)) (mk_ndarray2 o N (po ++ ro :: qo)) = Some out1
    /\ ThirtyDayMeanDifference_compute today asset_ids out
         (mk_ndarray2 o N (pc ++ qc)) (mk_ndarray2 o N (po ++ qo)) = Some out2
    /\ out1 !! j = out2 !! j.
Proof.
  intros Hc Ho Hp Hq Hout Hxc Hxo Hnan Hs.
  assert (Hj : (j < N)%nat).
  { apply Forall_app in Hc as [_ Hc]. apply Forall_cons in Hc as [<- _].
    apply lookup_lt_is_Some. eauto. }
  destruct (mean_difference_lookup today asset_ids out
              (mk_ndarray2 o N (pc ++ rc :: qc)) (mk_ndarray2 o N (po ++ ro :: qo)))
    as (d1 & out1 & D1 & _ & _ & H1 & _ & L1); try assumption; try reflexivity.
  { unfold shape0. simpl. rewrite !length_app. simpl. lia. }
  destruct (mean_difference_lookup today asset_ids out
              (mk_ndarray2 o N (pc ++ qc)) (mk_ndarray2 o N (po ++ qo)))
    as (d2 & out2 & D2 & _ & _ & H2 & _ & L2); try assumption; try reflexivity.
  { exact (Forall_middle _ _ _ _ Hc). }
  { exact (Forall_middle _ _ _ _ Ho). }
  { unfold shape0. simpl. rewrite !length_app. lia. }
  exists out1, out2. split; [exact H1|]. split; [exact H2|].
  destruct (L1 j Hj) as [C1 V1]. destruct (L2 j Hj) as [C2 V2].
  rewrite V1, V2. f_equal.
  rewrite !mean_in_order; try apply length_column.
  2: { rewrite (sub2_sums_in_order _ _ _ D2 eq_refl).
       exact (sums_in_order_middle _ _ _ _ _ Hs). }
  2: { now rewrite (sub2_sums_in_order _ _ _ D1 eq_refl). }
  apply mean_of_present_ext. rewrite C1, C2.
  rewrite (column_middle o j N pc qc rc xc Hxc), (column_middle o j N po qo ro xo Hxo),
    !column_app.
  assert (Hl : length (column j (mk_ndarray2 o N pc))
               = length (column j (mk_ndarray2 o N po)))
    by (unfold column; simpl; now rewrite !length_map).
  rewrite !zip_with_app by exact Hl. simpl.
  apply drop_nan_middle.
  destruct Hnan as [H|H].
  - exact (binop_nan_l OpSub xc xo H).
  - exact (binop_nan_r OpSub xc xo H).
Qed.

(** X6.  When the two inputs of [ThirtyDayMeanDifference.compute] agree on an
    asset over a window of at least one day, with finite values, the mean
    difference of the asset is exactly [0.0]: no rounding residue. *)
Theorem ThirtyDayMeanDifference_of_equal_prices (today : date)
    (asset_ids : list asset) (out : ndarray1) (close open : ndarray2) (j : nat) :
  well_shaped close -> well_shaped open ->
  shape1 close = shape1 open -> shape0 close = shape0 open ->
  length out = shape1 close -> (j < shape1 close)%nat ->
  (0 < shape0 close)%nat -> Z.of_nat (shape0 close) < 2 ^ 63 ->
  column j close = column j open ->
  Forall (fun x => is_finite x = true) (column j close) ->
  exists out',
    ThirtyDayMeanDifference_compute today asset_ids out close open = Some out'
    /\ out' !! j = Some 0%float.
Proof.
  intros Ha Hb H1 H0 Hout Hj Hpos Hbound Hcol Hfin.
  destruct (mean_difference_lookup today asset_ids out close open Ha Hb H1 H0 Hout)
    as (d & out' & _ & _ & _ & Hc & _ & Hlook).
  destruct (Hlook j Hj) as [Hd Hv].
  exists out'. split; [exact Hc|].
  rewrite Hv, Hd, <- Hcol, (zip_with_sub_self _ Hfin). f_equal.
  unfold mean_ignoring_nan.
  rewrite drop_nan_zeros, (column_sum_zeros _ _ (replace_nan_zeros _)), length_replicate.
  rewrite length_column. now apply zero_div_count.
Qed.

(** X7.  [Momentum.compute] raises exactly when the window has no row, where
    [close[-1]] is an [IndexError]; on a window of at least one row it
    returns, a first close of zero included (the division then gives an
    infinity or [NaN], not an exception). *)
Theorem Momentum_compute_fails_on_empty_window (today : date) (assets : list asset)
    (out : ndarray1) (close : ndarray2) :
  well_shaped close -> length out = shape1 close ->
  Momentum_compute today assets out close = None <-> shape0 close = 0%nat.
Proof.
  intros Ha Hout. split.
  - intros Hnone. destruct (shape0 close) as [|n] eqn:E; [reflexivity|].
    destruct (momentum_lookup today assets out close Ha ltac:(lia) Hout)
      as (out' & Hc & _). congruence.
  - unfold shape0. intros H. apply length_zero_iff_nil in H.
    unfold Momentum_compute. rewrite H. reflexivity.
Qed.

(** X8.  An asset whose close at the end of the window is its close at the
    start, finite and not zero, has momentum exactly [1.0]; so has every
    such asset when the window is of one day. *)
Theorem Momentum_of_unchanged_price (today : date) (assets : list asset)
    (out : ndarray1) (close : ndarray2) (j : nat) (x : float) :
  well_shaped close -> length out = shape1 close -> (j < shape1 close)%nat ->
  head (column j close) = Some x -> last (column j close) = Some x ->
  is_finite x = true -> (x =? 0)%float = false ->
  exists out',
    Momentum_compute today assets out close = Some out'
    /\ out' !! j = Some 1%float.
Proof.
  intros Ha Hout Hj Hh Hl Hfin Hnz.
  assert (Hm : (0 < shape0 close)%nat).
  { unfold shape0. destruct (rows close) as [|r rs] eqn:E; [|simpl; lia].
    unfold column in Hh. rewrite E in Hh. discriminate. }
  destruct (momentum_lookup today assets out close Ha Hm Hout)
    as (out' & Hc & _ & Hlook).
  exists out'. split; [exact Hc|].
  destruct (Hlook j Hj) as (newest & oldest & Hn & Ho & Hv).
  assert (newest = x) as -> by congruence.
  assert (oldest = x) as -> by congruence.
  rewrite Hv. f_equal. now apply div_self.
Qed.

End ComputeEdges.


(** ** The order of the floats and the ordinal ranks *)

Section FloatOrder.
Import numpy Terms.

Lemma SFltb_key (x y : spec_float) :
  x <> S754_nan -> y <> S754_nan ->
  SFltb x y = true <-> key_lt (sf_key x) (sf_key y).
Proof.
  intros Hx Hy. unfold SFltb, key_lt.
  destruct x as [sx|sx| |sx mx ex], y as [sy|sy| |sy my ey]; try congruence;
    try (destruct sx); try (destruct sy); simpl; try (split; [discriminate|lia]);
    try (split; [lia|reflexivity]).
  all: change PosDef.Pos.compare_cont with Pos.compare_cont;
    change (Pos.compare_cont Eq ?a ?b) with (Pos.compare a b).
  all: destruct (Z.compare_spec ex ey); destruct (Pos.compare_spec mx my);
    simpl; split; intros; try discriminate; try reflexivity; try lia.
Qed.

Lemma ltb_key (x y : float) :
  isnan x = false -> isnan y = false ->
  (x <? y)%float = true <-> key_lt (key x) (key y).
Proof.
  rewrite !isnan_false_spec, FloatAxioms.ltb_spec. apply SFltb_key.
Qed.

Lemma tied_key (x y : float) :
  isnan x = false -> isnan y = false ->
  tied x y = true <-> key x = key y.
Proof.
  intros Hx Hy. unfold tied.
  rewrite andb_true_iff, !negb_true_iff, <- !not_true_iff_false.
  rewrite (ltb_key x y Hx Hy), (ltb_key y x Hy Hx). unfold key_lt.
  destruct (key x) as [[a1 a2] a3], (key y) as [[b1 b2] b3]. simpl.
  split; [intros [H1 H2]; f_equal; [f_equal|]; lia|].
  intros H. injection H as -> -> ->. lia.
Qed.

Lemma key_lt_irrefl a : ~ key_lt a a.
Proof. unfold key_lt. lia. Qed.

Lemma key_lt_trans a b c : key_lt a b -> key_lt b c -> key_lt a c.
Proof. unfold key_lt. lia. Qed.

Lemma key_lt_total a b : key_lt a b \/ a = b \/ key_lt b a.
Proof.
  destruct a as [[a1 a2] a3], b as [[b1 b2] b3]. unfold key_lt. simpl.
  destruct (Z.lt_trichotomy a1 b1) as [?|[?|?]]; [lia| |lia].
  destruct (Z.lt_trichotomy a2 b2) as [?|[?|?]]; [lia| |lia].
  destruct (Z.lt_trichotomy a3 b3) as [?|[?|?]]; [lia| |lia].
  right. left. congruence.
Qed.

End FloatOrder.

Section Counting.

Lemma filter_length_ext {A} (P Q : A -> Prop)
    `{forall x, Decision (P x)} `{forall x, Decision (Q x)} (l : list A) :
  Forall (fun x => P x <-> Q x) l -> length (filter P l) = length (filter Q l).
Proof.
  induction 1 as [|x l Hx _ IH]; [reflexivity|].
  rewrite !filter_cons. repeat case_decide; simpl; try lia; tauto.
Qed.

(** Two properties that exclude each other and both entail a third are met
    by no more entries than the third. *)
Lemma filter_length_disjoint {A} (P Q S : A -> Prop)
    `{forall x, Decision (P x)} `{forall x, Decision (Q x)}
    `{forall x, Decision (S x)} (l : list A) :
  Forall (fun x => (P x -> S x) /\ (Q x -> S x) /\ (P x -> Q x -> False)) l ->
  (length (filter P l) + length (filter Q l) <= length (filter S l))%nat.
Proof.
  induction 1 as [|x l Hx _ IH]; [reflexivity|].
  rewrite !filter_cons. repeat case_decide; simpl; try lia; tauto.
Qed.

Lemma filter_length_apart {A} (P Q : A -> Prop)
    `{forall x, Decision (P x)} `{forall x, Decision (Q x)} (l : list A) :
  Forall (fun x => P x -> Q x -> False) l ->
  (length (filter P l) + length (filter Q l) <= length l)%nat.
Proof.
  induction 1 as [|x l Hx _ IH]; [reflexivity|].
  rewrite !filter_cons. repeat case_decide; simpl; try lia; tauto.
Qed.

Lemma filter_length_or {A} (P Q : A -> bool) (l : list A) :
  (forall a, P a && Q a = false) ->
  length (filter (fun a => P a || Q a = true) l)
  = (length (filter (fun a => P a = true) l)
     + length (filter (fun a => Q a = true) l))%nat.
Proof.
  intros Hd. induction l as [|x l IH]; [reflexivity|].
  rewrite !filter_cons. specialize (Hd x).
  destruct (P x), (Q x); repeat case_decide; simpl in *; try congruence; lia.
Qed.

Lemma filter_length_within {A} (P Q : A -> Prop)
    `{forall x, Decision (P x)} `{forall x, Decision (Q x)} (l : list A) :
  (forall a, P a -> Q a) ->
  length (filter P (filter Q l)) = length (filter P l).
Proof.
  intros Hsub. induction l as [|x l IH]; [reflexivity|].
  rewrite !filter_cons. specialize (Hsub x).
  repeat case_decide; rewrite ?filter_cons; repeat case_decide; simpl; tauto || lia.
Qed.

Lemma filter_length_imap {A B} (P : A -> Prop) (Q : B -> Prop)
    `{forall x, Decision (P x)} `{forall x, Decision (Q x)} (l : list A) :
  forall f : nat -> A -> B,
    (forall i a, l !! i = Some a -> P a <-> Q (f i a)) ->
    length (filter P l) = length (filter Q (imap f l)).
Proof.
  induction l as [|x l IH]; intros f Hf; [reflexivity|].
  pose proof (Hf 0%nat x eq_refl) as Hhead.
  pose proof (IH (f ∘ S) (fun i a Hi => Hf (S i) a Hi)) as Htail.
  rewrite imap_cons, !filter_cons.
  repeat case_decide; simpl; tauto || lia.
Qed.

Lemma filter_length_take {A} (P : A -> Prop) `{forall x, Decision (P x)}
    (l : list A) (i k : nat) (x : A) :
  l !! i = Some x -> (i < k)%nat -> P x ->
  (S (length (filter P (take i l))) <= length (filter P (take k l)))%nat.
Proof.
  intros Hi Hik Hx.
  assert (Hk : take k l !! i = Some x) by (rewrite lookup_take_lt; assumption).
  rewrite <- (take_drop_middle (take k l) i x Hk).
  rewrite take_take, Nat.min_l by lia.
  rewrite filter_app, filter_cons_True by exact Hx.
  rewrite length_app. simpl. lia.
Qed.

Lemma filter_length_all {A} (P : A -> Prop) `{forall x, Decision (P x)}
    (l : list A) (i : nat) (x : A) :
  l !! i = Some x -> P x ->
  (S (length (filter P (take i l))) <= length (filter P l))%nat.
Proof.
  intros Hi Hx.
  rewrite <- (take_drop_middle l i x Hi) at 2.
  rewrite filter_app, filter_cons_True by exact Hx.
  rewrite length_app. simpl. lia.
Qed.

Lemma filter_id_Forall {A} (P : A -> Prop) `{forall x, Decision (P x)} (l : list A) :
  Forall P l -> filter P l = l.
Proof.
  induction 1 as [|x l Hx _ IH]; [reflexivity|].
  now rewrite filter_cons_True, IH.
Qed.

(** The numbers from 1 to [k] that are at most [n] are [n], when [n <= k]. *)
Lemma filter_seq_le (n k : nat) :
  (n <= k)%nat -> length (filter (fun r => (r <= n)%nat) (seq 1 k)) = n.
Proof.
  intros Hnk. replace k with (n + (k - n))%nat by lia.
  rewrite seq_app, filter_app, length_app.
  rewrite filter_id_Forall.
  2:{ apply Forall_forall. intros r Hr. apply list_elem_of_In, in_seq in Hr. lia. }
  rewrite filter_nil_Forall.
  2:{ apply Forall_forall. intros r Hr. apply list_elem_of_In, in_seq in Hr. lia. }
  rewrite length_seq. simpl. lia.
Qed.

(** Distinct numbers from 1 to [n] are at most [n]. *)
Lemma length_le_of_ranks {A} (g : A -> nat) (n : nat) (l : list A) :
  NoDup l ->
  (forall a b, a ∈ l -> b ∈ l -> g a = g b -> a = b) ->
  (forall a, a ∈ l -> (1 <= g a <= n)%nat) ->
  (length l <= n)%nat.
Proof.
  intros Hnd Hinj Hran.
  assert (Hnd' : NoDup (g <$> l)) by now apply NoDup_fmap_2_strong.
  assert (Hsub : g <$> l ⊆+ seq 1 n).
  { apply NoDup_submseteq; [exact Hnd'|].
    intros k Hk. apply list_elem_of_fmap in Hk as (a & -> & Ha).
    apply list_elem_of_In, in_seq. specialize (Hran a Ha). lia. }
  apply submseteq_length in Hsub.
  now rewrite length_fmap, length_seq in Hsub.
Qed.

Lemma length_filter_split {A} (P : A -> bool) (l : list A) :
  length l = (length (filter (fun a => P a = true) l)
              + length (filter (fun a => P a = false) l))%nat.
Proof.
  induction l as [|x l IH]; [reflexivity|].
  rewrite !filter_cons. destruct (P x) eqn:E; repeat case_decide;
    simpl; try congruence; lia.
Qed.

End Counting.

Section Positions.
Import numpy Terms.

Lemma select_rank_candidate (before : float -> float -> bool) (n : nat)
    (v : asset -> float) (cands : list asset) (a : asset) :
  select_rank before n v cands a = true -> a ∈ cands.
Proof.
  unfold select_rank. cbv zeta.
  destruct (position a cands) as [i|] eqn:E; [|discriminate].
  intros _. apply position_Some in E. eapply list_elem_of_lookup_2; eauto.
Qed.

Lemma position_NoDup (cands : list asset) (i : nat) (a : asset) :
  NoDup cands -> cands !! i = Some a -> position a cands = Some i.
Proof.
  intros Hnd Hi.
  destruct (position_elem_of a cands) as (j & Hp & Hj).
  { eapply list_elem_of_lookup_2; eauto. }
  rewrite Hp. f_equal. eapply NoDup_lookup; eauto.
Qed.

End Positions.

(** The ranks for an order [before] that follows the keys, in one direction
    or the other. *)
Section RankCount.
Import numpy Terms.
Context (before : float -> float -> bool) (R : Z * Z * Z -> Z * Z * Z -> Prop).
Context (before_R : forall y x, isnan y = false -> isnan x = false ->
                      before y x = true <-> R (key y) (key x)).
Context (R_irrefl : forall a, ~ R a a).
Context (R_trans : forall a b c, R a b -> R b c -> R a c).
Context (R_total : forall a b, R a b \/ a = b \/ R b a).

Lemma rank_lt_of_before (vs : list float) (i j : nat) (x y : float) :
  Forall (fun z => isnan z = false) vs ->
  vs !! i = Some x -> vs !! j = Some y -> R (key x) (key y) ->
  (ordinal_rank before vs i x < ordinal_rank before vs j y)%nat.
Proof.
  intros Hvs Hi Hj Hxy. unfold ordinal_rank.
  assert (Hx : isnan x = false).
  { rewrite Forall_forall in Hvs. apply Hvs. eapply list_elem_of_lookup_2; eauto. }
  assert (Hy : isnan y = false).
  { rewrite Forall_forall in Hvs. apply Hvs. eapply list_elem_of_lookup_2; eauto. }
  pose proof (filter_length_all (fun z => tied z x = true) vs i x Hi (tied_refl x)) as H1.
  assert (H2 : (length (filter (fun z => before z x = true) vs)
                + length (filter (fun z => tied z x = true) vs)
                <= length (filter (fun z => before z y = true) vs))%nat).
  { apply filter_length_disjoint.
    eapply Forall_impl; [exact Hvs|]. intros z Hz. simpl.
    rewrite (before_R z x Hz Hx), (before_R z y Hz Hy), (tied_key z x Hz Hx).
    split; [|split].
    - intros H. eapply R_trans; eauto.
    - intros ->. exact Hxy.
    - intros H Heq. rewrite Heq in H. now apply R_irrefl in H. }
  lia.
Qed.

Lemma rank_lt_of_tied (vs : list float) (i j : nat) (x y : float) :
  Forall (fun z => isnan z = false) vs ->
  vs !! i = Some x -> vs !! j = Some y -> key x = key y -> (i < j)%nat ->
  (ordinal_rank before vs i x < ordinal_rank before vs j y)%nat.
Proof.
  intros Hvs Hi Hj Hxy Hij. unfold ordinal_rank.
  assert (Hx : isnan x = false).
  { rewrite Forall_forall in Hvs. apply Hvs. eapply list_elem_of_lookup_2; eauto. }
  assert (Hy : isnan y = false).
  { rewrite Forall_forall in Hvs. apply Hvs. eapply list_elem_of_lookup_2; eauto. }
  assert (H1 : length (filter (fun z => before z x = true) vs)
               = length (filter (fun z => before z y = true) vs)).
  { apply filter_length_ext. eapply Forall_impl; [exact Hvs|]. intros z Hz. simpl.
    rewrite (before_R z x Hz Hx), (before_R z y Hz Hy), Hxy. tauto. }
  assert (H2 : length (filter (fun z => tied z x = true) (take j vs))
               = length (filter (fun z => tied z y = true) (take j vs))).
  { apply filter_length_ext. apply Forall_take.
    eapply Forall_impl; [exact Hvs|]. intros z Hz. simpl.
    rewrite (tied_key z x Hz Hx), (tied_key z y Hz Hy), Hxy. tauto. }
  pose proof (filter_length_take (fun z => tied z x = true) vs i j x Hi Hij (tied_refl x)).
  lia.
Qed.

(** Among values that are not [NaN], no two places have the same ordinal
    rank. *)
Lemma ordinal_rank_inj (vs : list float) (i j : nat) (x y : float) :
  Forall (fun z => isnan z = false) vs ->
  vs !! i = Some x -> vs !! j = Some y ->
  ordinal_rank before vs i x = ordinal_rank before vs j y -> i = j.
Proof.
  intros Hvs Hi Hj Heq.
  destruct (R_total (key x) (key y)) as [H|[H|H]].
  - pose proof (rank_lt_of_before vs i j x y Hvs Hi Hj H). lia.
  - destruct (Nat.lt_trichotomy i j) as [Hlt|[Heqij|Hgt]]; [|exact Heqij|].
    + pose proof (rank_lt_of_tied vs i j x y Hvs Hi Hj H Hlt). lia.
    + pose proof (rank_lt_of_tied vs j i y x Hvs Hj Hi (eq_sym H) Hgt). lia.
  - pose proof (rank_lt_of_before vs j i y x Hvs Hj Hi H). lia.
Qed.

Lemma ordinal_rank_bounds (vs : list float) (i : nat) (x : float) :
  Forall (fun z => isnan z = false) vs -> vs !! i = Some x ->
  (1 <= ordinal_rank before vs i x <= length vs)%nat.
Proof.
  intros Hvs Hi. unfold ordinal_rank. split; [lia|].
  assert (Hx : isnan x = false).
  { rewrite Forall_forall in Hvs. apply Hvs. eapply list_elem_of_lookup_2; eauto. }
  pose proof (filter_length_all (fun z => tied z x = true) vs i x Hi (tied_refl x)) as H1.
  assert (H2 : (length (filter (fun z => before z x = true) vs)
                + length (filter (fun z => tied z x = true) vs) <= length vs)%nat).
  { apply filter_length_apart.
    eapply Forall_impl; [exact Hvs|]. intros z Hz. simpl.
    rewrite (before_R z x Hz Hx), (tied_key z x Hz Hx).
    intros H Heq. rewrite Heq in H. now apply R_irrefl in H. }
  lia.
Qed.

(** The ordinal ranks of [k] values that are not [NaN] are the numbers from
    1 to [k], each once. *)
Lemma ordinal_ranks_permutation (vs : list float) :
  Forall (fun z => isnan z = false) vs ->
  imap (ordinal_rank before vs) vs ≡ₚ seq 1 (length vs).
Proof.
  intros Hvs. apply submseteq_length_Permutation.
  - apply NoDup_submseteq.
    + apply NoDup_alt. intros i j r Hi Hj.
      rewrite list_lookup_imap in Hi, Hj.
      destruct (vs !! i) as [x|] eqn:Ex; [|discriminate].
      destruct (vs !! j) as [y|] eqn:Ey; [|discriminate].
      simpl in Hi, Hj. injection Hi as Hi. injection Hj as Hj.
      eapply ordinal_rank_inj; eauto. congruence.
    + intros r Hr. apply list_elem_of_lookup in Hr as [i Hi].
      rewrite list_lookup_imap in Hi.
      destruct (vs !! i) as [x|] eqn:Ex; [|discriminate].
      simpl in Hi. injection Hi as <-.
      pose proof (ordinal_rank_bounds vs i x Hvs Ex).
      apply list_elem_of_In, in_seq. lia.
  - now rewrite length_imap, length_seq.
Qed.

(** The assets a selection by rank keeps are at most [n]. *)
Lemma select_rank_length (n : nat) (v : asset -> float) (m : asset -> bool)
    (secs l : list asset) :
  NoDup l ->
  (forall a, a ∈ l -> select_rank before n v (candidates m v secs) a = true) ->
  (length l <= n)%nat.
Proof.
  intros Hnd Hsel.
  set (cands := candidates m v secs) in *.
  assert (Hvs : Forall (fun z => isnan z = false) (map v cands)).
  { apply Forall_forall. intros z Hz.
    apply list_elem_of_In, in_map_iff in Hz as (a & <- & Ha).
    apply list_elem_of_In in Ha. unfold cands, candidates in Ha.
    apply list_elem_of_filter in Ha. tauto. }
  set (g := fun a => match position a cands with
                     | Some i => ordinal_rank before (map v cands) i (v a)
                     | None => 0%nat
                     end).
  assert (Hg : forall a, a ∈ l ->
            exists i, position a cands = Some i /\ cands !! i = Some a
                      /\ map v cands !! i = Some (v a)
                      /\ (g a <= n)%nat).
  { intros a Ha. specialize (Hsel a Ha). unfold select_rank in Hsel. cbv zeta in Hsel.
    unfold g. destruct (position a cands) as [i|] eqn:E; [|discriminate].
    exists i. pose proof (position_Some _ _ _ E) as Hi.
    split; [reflexivity|]. split; [exact Hi|]. split.
    - change (map v cands) with (v <$> cands). now rewrite list_lookup_fmap, Hi.
    - now apply bool_decide_eq_true in Hsel. }
  apply (length_le_of_ranks g n l Hnd).
  - intros a b Ha Hb Hab.
    destruct (Hg a Ha) as (i & Hpa & Hia & Hva & _).
    destruct (Hg b Hb) as (j & Hpb & Hjb & Hvb & _).
    unfold g in Hab. rewrite Hpa, Hpb in Hab.
    pose proof (ordinal_rank_inj _ _ _ _ _ Hvs Hva Hvb Hab) as ->.
    congruence.
  - intros a Ha. destruct (Hg a Ha) as (i & Hpa & _ & _ & Hn).
    split; [|exact Hn]. unfold g. rewrite Hpa. unfold ordinal_rank. lia.
Qed.

(** A selection by rank keeps exactly [n] securities when at least [n] have
    a value. *)
Lemma select_rank_exact (n : nat) (v : asset -> float) (m : asset -> bool)
    (secs : list asset) :
  NoDup secs -> (n <= length (candidates m v secs))%nat ->
  length (filter (fun a => select_rank before n v (candidates m v secs) a = true) secs)
  = n.
Proof.
  intros Hnd Hn.
  set (cands := candidates m v secs) in *.
  set (vs := map v cands).
  assert (Hvs : Forall (fun z => isnan z = false) vs).
  { apply Forall_forall. intros z Hz.
    apply list_elem_of_In, in_map_iff in Hz as (a & <- & Ha).
    apply list_elem_of_In in Ha. unfold cands, candidates in Ha.
    apply list_elem_of_filter in Ha. tauto. }
  assert (Hc : NoDup cands) by (unfold cands, candidates; now apply NoDup_filter).
  transitivity (length (filter (fun a => select_rank before n v cands a = true) cands)).
  { symmetry. apply filter_length_within. intros a Hs.
    apply select_rank_candidate in Hs. unfold cands, candidates in Hs.
    apply list_elem_of_filter in Hs. tauto. }
  rewrite (filter_length_imap _ (fun r => (r <= n)%nat) cands
             (fun i a => ordinal_rank before vs i (v a))).
  - replace (imap (fun i a => ordinal_rank before vs i (v a)) cands)
      with (imap (ordinal_rank before vs) vs)
      by (unfold vs; change (map v cands) with (v <$> cands) at 2;
          now rewrite imap_fmap).
    rewrite (ordinal_ranks_permutation vs Hvs), filter_seq_le; [reflexivity|].
    unfold vs. now rewrite length_map.
  - intros i a Hi. unfold select_rank. cbv zeta.
    rewrite (position_NoDup cands i a Hc Hi). fold vs.
    apply bool_decide_eq_true.
Qed.

End RankCount.

Section TopBottom.
Import numpy Terms.

(** [top(n)] and [bottom(n)] keep at most [n] assets. *)
Lemma top_length (n : nat) (v : asset -> float) (m : asset -> bool)
    (secs l : list asset) :
  NoDup l ->
  (forall a, a ∈ l -> select_rank descending n v (candidates m v secs) a = true) ->
  (length l <= n)%nat.
Proof.
  apply (select_rank_length descending (fun a b => key_lt b a)).
  - intros y x Hy Hx. unfold descending. now apply ltb_key.
  - intros a. apply key_lt_irrefl.
  - intros a b c H1 H2. eapply key_lt_trans; eauto.
  - intros a b. destruct (key_lt_total a b) as [?|[?|?]]; auto.
Qed.

Lemma bottom_length (n : nat) (v : asset -> float) (m : asset -> bool)
    (secs l : list asset) :
  NoDup l ->
  (forall a, a ∈ l -> select_rank ascending n v (candidates m v secs) a = true) ->
  (length l <= n)%nat.
Proof.
  apply (select_rank_length ascending key_lt).
  - intros y x Hy Hx. unfold ascending. now apply ltb_key.
  - apply key_lt_irrefl.
  - apply key_lt_trans.
  - apply key_lt_total.
Qed.

Lemma top_exact (n : nat) (v : asset -> float) (m : asset -> bool)
    (secs : list asset) :
  NoDup secs -> (n <= length (candidates m v secs))%nat ->
  length (filter (fun a => select_rank descending n v (candidates m v secs) a = true) secs)
  = n.
Proof.
  apply (select_rank_exact descending (fun a b => key_lt b a)).
  - intros y x Hy Hx. unfold descending. now apply ltb_key.
  - intros a. apply key_lt_irrefl.
  - intros a b c H1 H2. eapply key_lt_trans; eauto.
  - intros a b. destruct (key_lt_total a b) as [?|[?|?]]; auto.
Qed.

Lemma bottom_exact (n : nat) (v : asset -> float) (m : asset -> bool)
    (secs : list asset) :
  NoDup secs -> (n <= length (candidates m v secs))%nat ->
  length (filter (fun a => select_rank ascending n v (candidates m v secs) a = true) secs)
  = n.
Proof.
  apply (select_rank_exact ascending key_lt).
  - intros y x Hy Hx. unfold ascending. now apply ltb_key.
  - apply key_lt_irrefl.
  - apply key_lt_trans.
  - apply key_lt_total.
Qed.

End TopBottom.


(** ** What the pipelines of the lessons emit *)

Section Selections.
Import numpy Terms Engine CustomFactors Builtins.
Context (lib : Library) (db : DataBase).

Lemma elem_of_candidates (m : asset -> bool) (v : asset -> float)
    (secs : list asset) (a : asset) :
  a ∈ candidates m v secs <-> (m a = true /\ isnan (v a) = false) /\ a ∈ secs.
Proof. unfold candidates. now rewrite list_elem_of_filter. Qed.

Lemma eval_Top_mask (n : nat) (g : Factor) (mf : Filter) (d : date) :
  eval_filter lib db (Top n g (Some mf)) d
  = (m ← eval_filter lib db mf d; v ← eval_factor lib db g d;
     Some (select_rank descending n v (candidates m v (securities db d)))).
Proof. reflexivity. Qed.

Lemma eval_PercentileBetween (lo hi : float) (g : Factor) (mask : option Filter)
    (d : date) :
  eval_filter lib db (PercentileBetween lo hi g mask) d
  = (m ← match mask with
         | Some mf => eval_filter lib db mf d
         | None => Some (fun _ => true)
         end;
     v ← eval_factor lib db g d;
     Some (fun a =>
             match position a (candidates m v (securities db d)) with
             | Some _ =>
                 percentile_test lib lo hi
                   (map v (candidates m v (securities db d))) (v a)
             | None => false
             end)).
Proof. reflexivity. Qed.

Lemma eval_CustomFactor (compute : Compute) (inputs : list BoundColumn) (w : nat)
    (mask : option Filter) (d : date) :
  eval_factor lib db (CustomFactor compute inputs w mask) d
  = (m ← match mask with
         | Some mf => eval_filter lib db mf d
         | None => Some (fun _ => true)
         end;
     out ← compute d (filter (fun a => m a = true) (securities db d))
             (replicate (length (filter (fun a => m a = true) (securities db d))) nan)
             (map (fun c => window db c d w
                               (filter (fun a => m a = true) (securities db d)))
                  inputs);
     Some (scatter (filter (fun a => m a = true) (securities db d)) out)).
Proof. reflexivity. Qed.

Lemma eval_BinOp (op : binop) (l r : Factor) (d : date) :
  eval_factor lib db (BinOp op l r) d
  = (x ← eval_factor lib db l d; y ← eval_factor lib db r d;
     Some (fun a => apply_binop op (x a) (y a))).
Proof. reflexivity. Qed.

Lemma eval_Builtin (name : string) (d : date) :
  eval_filter lib db (Builtin name) d = Some (builtin db name d).
Proof. reflexivity. Qed.

Lemma eval_Latest (c : BoundColumn) (d : date) :
  eval_factor lib db (Latest c) d = Some (fun a => as_float (cell db c (d - 1) a)).
Proof. reflexivity. Qed.

Lemma eval_Not (g : Filter) (d : date) :
  eval_filter lib db (Not g) d
  = (x ← eval_filter lib db g d; Some (fun a => negb (x a))).
Proof. reflexivity. Qed.

Lemma eval_StringTest (test : string -> bool) (c : BoundColumn) (d : date) :
  eval_filter lib db (StringTest test c) d
  = Some (fun a => match cell db c (d - 1) a with Text s => test s | _ => false end).
Proof. reflexivity. Qed.

Lemma eval_LatestFilter (c : BoundColumn) (d : date) :
  eval_filter lib db (LatestFilter c) d
  = Some (fun a => as_bool (cell db c (d - 1) a)).
Proof. reflexivity. Qed.

Lemma eval_IsNull (g : Factor) (d : date) :
  eval_filter lib db (IsNull g) d
  = (v ← eval_factor lib db g d; Some (fun a => isnan (v a))).
Proof. reflexivity. Qed.

Lemma eval_NotNull (g : Factor) (d : date) :
  eval_filter lib db (NotNull g) d
  = (v ← eval_factor lib db g d; Some (fun a => negb (isnan (v a)))).
Proof. reflexivity. Qed.

(** [percentile_between] keeps assets of its mask whose value is defined. *)
Lemma percentile_between_candidate (lo hi : float) (g : Factor)
    (mask : option Filter) (d : date) (keep : asset -> bool) (a : asset) :
  eval_filter lib db (PercentileBetween lo hi g mask) d = Some keep ->
  keep a = true ->
  exists m v,
    match mask with
    | Some mf => eval_filter lib db mf d
    | None => Some (fun _ => true)
    end = Some m
    /\ eval_factor lib db g d = Some v
    /\ a ∈ candidates m v (securities db d).
Proof.
  rewrite eval_PercentileBetween.
  destruct (match mask with Some mf => eval_filter lib db mf d | None => _ end)
    as [m|]; [|discriminate 1].
  destruct (eval_factor lib db g d) as [v|]; [|discriminate 1].
  simpl. intros H. injection H as <-. intros Hk.
  exists m, v. split; [reflexivity|]. split; [reflexivity|].
  destruct (position a (candidates m v (securities db d))) as [i|] eqn:E;
    [|discriminate].
  apply position_Some in E. eapply list_elem_of_lookup_2; eauto.
Qed.

(** A factor with a mask has no value outside its mask. *)
Lemma eval_masked_factor (compute : Compute) (inputs : list BoundColumn) (w : nat)
    (mf : Filter) (d : date) (v : asset -> float) (a : asset) :
  eval_factor lib db (CustomFactor compute inputs w (Some mf)) d = Some v ->
  isnan (v a) = false ->
  exists m, eval_filter lib db mf d = Some m /\ m a = true /\ a ∈ securities db d.
Proof.
  rewrite eval_CustomFactor.
  destruct (eval_filter lib db mf d) as [m|]; [|discriminate 1].
  simpl. destruct (compute d _ _ _) as [out|]; [|discriminate 1].
  simpl. intros H. injection H as <-. intros Hv.
  exists m. split; [reflexivity|].
  destruct (decide (a ∈ filter (fun a => m a = true) (securities db d))) as [Hin|Hout].
  - apply list_elem_of_filter in Hin. tauto.
  - rewrite scatter_outside in Hv by exact Hout. discriminate.
Qed.

Lemma binop_not_nan op (x y : float) :
  isnan (apply_binop op x y) = false -> isnan x = false /\ isnan y = false.
Proof.
  intros H. split.
  - destruct (isnan x) eqn:E; [|reflexivity].
    now rewrite (binop_nan_l op x y E) in H.
  - destruct (isnan y) eqn:E; [|reflexivity].
    now rewrite (binop_nan_r op x y E) in H.
Qed.

End Selections.

Section MoreRuns.
Import numpy Terms Engine CustomFactors Builtins.
Import CustomFactorPipelines PuttingItAllTogether.
Context (lib : Library) (db : DataBase).

(** The mean difference of two columns has a value on every day: the two
    windows the engine hands to [compute] have the same shape. *)
Lemma eval_mean_difference (c1 c2 : BoundColumn) (w : nat) (d : date) :
  is_Some (eval_factor lib db
             (CustomFactor (call2 ThirtyDayMeanDifference_compute) [c1; c2] w None) d).
Proof.
  rewrite eval_CustomFactor. simpl. rewrite filter_all.
  set (secs := securities db d).
  destruct (mean_difference_lookup d secs (replicate (length secs) nan)
              (window db c1 d w secs) (window db c2 d w secs))
    as (diff & out' & _ & _ & _ & Hc & _).
  - apply window_well_shaped.
  - apply window_well_shaped.
  - reflexivity.
  - now rewrite !window_shape0.
  - apply length_replicate.
  - rewrite Hc. simpl. eauto.
Qed.

Lemma run_unscreened_column (k : string) (f : Factor) (s e : date) :
  (forall d, is_Some (eval_factor lib db f d)) ->
  is_Some (run_pipeline lib db (Pipeline {[ k := TFactor f ]} None) s e).
Proof.
  intros Hf. apply run_pipeline_is_Some. intros d _. unfold run_day.
  cbn [screen eval_screen columns].
  destruct (eval_columns_is_Some lib db {[ k := TFactor f ]} d) as [cols Hc].
  - intros k' t Hk. apply lookup_singleton_Some in Hk as [_ <-].
    rewrite eval_TFactor. destruct (Hf d) as [v ->]. simpl. eauto.
  - rewrite Hc. eauto.
Qed.

(** X9.  The runs of the three pipelines that show [StdDev] and
    [ThirtyDayMeanDifference] (with its default inputs and with high and
    low) never raise, whatever the data and the dates: the windows handed to
    [compute] are rectangular, of the same shape, and [out] has one place
    per asset. *)
Theorem custom_factor_runs_return (s e : date) :
  is_Some (run_pipeline lib db StdDevPipeline.make_pipeline s e)
  /\ is_Some (run_pipeline lib db CloseOpen.make_pipeline s e)
  /\ is_Some (run_pipeline lib db HighLow.make_pipeline s e).
Proof.
  split; [|split]; apply run_unscreened_column; intros d.
  - apply eval_StdDev.
  - apply eval_mean_difference.
  - apply eval_mean_difference.
Qed.

(** A column that is the screen itself holds [True] in every row. *)
Lemma screen_column_true (p : pipeline) (k : string) (f : Filter)
    (s e : date) (t : Table) (d : date) (a : asset) (cells : gmap string value) :
  columns p !! k = Some (TFilter f) -> screen p = Some f ->
  run_pipeline lib db p s e = Some t ->
  (d, a, cells) ∈ table_rows t ->
  cells !! k = Some (Boolean true).
Proof.
  intros Hk Hf Hrun Hrow.
  apply (run_pipeline_row lib db _ _ _ _ _ _ _ Hrun) in Hrow
    as (_ & _ & keep & cols & Hs & Hc & Hka & ->).
  rewrite Hf in Hs. simpl in Hs.
  pose proof (eval_columns_lookup lib db _ _ _ k Hc) as Hl.
  rewrite Hk in Hl. cbn [mbind option_bind] in Hl.
  rewrite eval_TFilter, Hs in Hl. simpl in Hl.
  rewrite lookup_fmap, Hl. simpl. now rewrite Hka.
Qed.

(** X10.  In the two universe pipelines of the last lesson the only column is
    the screen itself, so it holds [True] in every row of the result. *)
Theorem universe_rows_are_flagged (s e : date) (d : date) (a : asset) :
  (forall t cells,
     run_pipeline lib db (BaseUniverse.make_pipeline lib) s e = Some t ->
     (d, a, cells) ∈ table_rows t ->
     cells !! "base universe" = Some (Boolean true))
  /\ (forall t cells,
        run_pipeline lib db BuiltinUniverse.make_pipeline s e = Some t ->
        (d, a, cells) ∈ table_rows t ->
        cells !! "QTradableStockUS" = Some (Boolean true)).
Proof.
  split; intros t cells Hrun Hrow.
  - eapply screen_column_true; [| |exact Hrun|exact Hrow].
    + apply lookup_singleton_eq.
    + reflexivity.
  - eapply screen_column_true; [| |exact Hrun|exact Hrow].
    + apply lookup_singleton_eq.
    + reflexivity.
Qed.

End MoreRuns.

Section PipelineRows.
Import numpy Terms Engine CustomFactors Builtins.
Import CustomFactorPipelines PuttingItAllTogether.
Context (lib : Library) (db : DataBase).

(** The assets of a day that a run with a screen emits pass the screen of
    that day, which has a value. *)
Lemma screened_assets (p : pipeline) (f : Filter) (s e : date) (t : Table)
    (d : date) (l : list asset) :
  screen p = Some f ->
  run_pipeline lib db p s e = Some t ->
  (forall a, a ∈ l -> (d, a) ∈ index t) ->
  l = [] \/ exists keep,
    eval_filter lib db f d = Some keep /\ forall a, a ∈ l -> keep a = true.
Proof.
  intros Hf Hrun Hl. destruct l as [|a0 l]; [now left|right].
  destruct (proj1 (index_of_screened_run lib db p f s e t d a0 Hf Hrun)
              (Hl a0 ltac:(left))) as (_ & _ & keep & Hk & _).
  exists keep. split; [exact Hk|]. intros a Ha.
  destruct (proj1 (index_of_screened_run lib db p f s e t d a Hf Hrun) (Hl a Ha))
    as (_ & _ & keep' & Hk' & Ha'). congruence.
Qed.

(** The cell of a row under a column that is a factor. *)
Lemma factor_cell (p : pipeline) (k : string) (f : Factor) (d : date) (a : asset)
    (cols : gmap string (asset -> value)) :
  columns p !! k = Some (TFactor f) ->
  eval_columns lib db (columns p) d = Some cols ->
  exists v,
    eval_factor lib db f d = Some v
    /\ ((fun g : asset -> value => g a) <$> cols) !! k = Some (Float (v a)).
Proof.
  intros Hk Hc.
  pose proof (eval_columns_lookup lib db _ _ _ k Hc) as Hl.
  rewrite Hk in Hl. cbn [mbind option_bind] in Hl. rewrite eval_TFactor in Hl.
  destruct (eval_factor lib db f d) as [v|].
  - exists v. split; [reflexivity|]. rewrite lookup_fmap, Hl. reflexivity.
  - exfalso. simpl in Hl.
    apply eval_columns_dom in Hc.
    assert (Hin : k ∈ dom cols) by (rewrite Hc; apply elem_of_dom; eauto).
    apply elem_of_dom in Hin as [x Hx]. congruence.
Qed.

(** A run over one day is the run of that day. *)
Lemma run_pipeline_one_day (p : pipeline) (d : date) (t : Table) :
  run_pipeline lib db p d d = Some t ->
  exists day, run_day lib db p d = Some day /\ table_rows t = day.
Proof.
  unfold run_pipeline, sessions.
  replace (d - d + 1) with 1 by lia.
  change (seqZ d 1) with [d]. simpl.
  destruct (run_day lib db p d) as [day|]; [|discriminate 1].
  simpl. intros H. injection H as <-. simpl. exists day.
  split; [reflexivity|]. apply app_nil_r.
Qed.

(** The screen of the long/short pipeline, on the values of
    [percent_difference]. *)
Lemma long_short_screen (d : date) (keep : asset -> bool) :
  eval_filter lib db (LongShort.securities_to_trade lib) d = Some keep ->
  exists v,
    eval_factor lib db (LongShort.percent_difference lib) d = Some v
    /\ keep = fun a =>
         select_rank descending 50 v (candidates (fun _ => true) v (securities db d)) a
         || select_rank ascending 50 v (candidates (fun _ => true) v (securities db d)) a.
Proof.
  unfold LongShort.securities_to_trade, LongShort.shorts, LongShort.longs.
  rewrite eval_Or, eval_Top, eval_Bottom.
  destruct (eval_factor lib db (LongShort.percent_difference lib) d) as [v|];
    [|discriminate 1].
  simpl. intros H. injection H as <-. eauto.
Qed.

Lemma percent_difference_defined (d : date) (v : asset -> float) (a : asset) :
  eval_factor lib db (LongShort.percent_difference lib) d = Some v ->
  isnan (v a) = false ->
  builtin db "QTradableStocksUS" d a = true.
Proof.
  unfold LongShort.percent_difference. rewrite !eval_BinOp.
  destruct (eval_factor lib db (LongShort.mean_30 lib) d) as [x30|]; [|discriminate 1].
  destruct (eval_factor lib db (LongShort.mean_60 lib) d) as [x60|] eqn:E60;
    [|discriminate 1].
  simpl. intros H. injection H as <-. intros Hv.
  apply (binop_not_nan OpDiv) in Hv as [_ Hv].
  destruct (eval_masked_factor lib db _ _ _ _ _ _ a E60 Hv) as (m & Hm & Hma & _).
  unfold LongShort.base_universe, QTradableStocksUS in Hm.
  rewrite eval_Builtin in Hm. injection Hm as <-. exact Hma.
Qed.

(** X11.  Every security the long/short pipeline emits belongs to the universe
    [QTradableStocksUS] of its day, although the screen does not mention the
    universe: the moving averages are masked by it, so [percent_difference]
    has no value outside it, and [top] and [bottom] rank defined values
    only. *)
Theorem long_short_rows_in_universe (s e : date) (t : Table) (d : date) (a : asset) :
  run_pipeline lib db (LongShort.make_pipeline lib) s e = Some t ->
  (d, a) ∈ index t ->
  builtin db "QTradableStocksUS" d a = true.
Proof.
  intros Hrun Hin.
  apply (index_of_screened_run lib db (LongShort.make_pipeline lib)
           (LongShort.securities_to_trade lib) s e t d a eq_refl Hrun) in Hin
    as (_ & _ & keep & Hk & Ha).
  apply long_short_screen in Hk as (v & Hv & ->).
  assert (Hc : a ∈ candidates (fun _ => true) v (securities db d)).
  { apply orb_true_iff in Ha as [Ha|Ha]; eapply select_rank_candidate; eauto. }
  apply elem_of_candidates in Hc as [[_ Hc] _].
  eapply percent_difference_defined; eauto.
Qed.

(** X12.  On each day the long/short pipeline emits at most 100 distinct
    securities: at most 50 shorts and at most 50 longs, ties included. *)
Theorem long_short_at_most_100 (s e : date) (t : Table) (d : date)
    (l : list asset) :
  run_pipeline lib db (LongShort.make_pipeline lib) s e = Some t ->
  NoDup l -> (forall a, a ∈ l -> (d, a) ∈ index t) ->
  (length l <= 100)%nat.
Proof.
  intros Hrun Hnd Hl.
  destruct (screened_assets (LongShort.make_pipeline lib)
              (LongShort.securities_to_trade lib) s e t d l eq_refl Hrun Hl)
    as [->|(keep & Hk & Hkeep)]; [simpl; lia|].
  apply long_short_screen in Hk as (v & Hv & ->).
  set (cands := candidates (fun _ => true) v (securities db d)) in *.
  rewrite (length_filter_split (select_rank descending 50 v cands) l).
  assert (H1 : (length (filter (fun a => select_rank descending 50 v cands a = true) l)
                <= 50)%nat).
  { apply (top_length 50 v (fun _ => true) (securities db d)).
    - now apply NoDup_filter.
    - intros a Ha. apply list_elem_of_filter in Ha. tauto. }
  assert (H2 : (length (filter (fun a => select_rank descending 50 v cands a = false) l)
                <= 50)%nat).
  { apply (bottom_length 50 v (fun _ => true) (securities db d)).
    - now apply NoDup_filter.
    - intros a Ha. apply list_elem_of_filter in Ha as [Hf Ha].
      specialize (Hkeep a Ha). simpl in Hkeep. fold cands.
      rewrite Hf in Hkeep. exact Hkeep. }
  lia.
Qed.

(** X13.  The second pipeline of the masking lesson emits, on each day, at
    most 50 distinct securities, each of them among the 50 highest opens
    ([top_open_price], the mask of its screen). *)
Theorem high_close_price_at_most_50 (s e : date) (t : Table) (d : date)
    (l : list asset) :
  run_pipeline lib db (Masking.Filters.make_pipeline lib) s e = Some t ->
  NoDup l -> (forall a, a ∈ l -> (d, a) ∈ index t) ->
  (length l <= 50)%nat
  /\ forall a, a ∈ l ->
       exists top, eval_filter lib db (Masking.Filters.top_open_price lib) d = Some top
                   /\ top a = true.
Proof.
  intros Hrun Hnd Hl.
  destruct (screened_assets (Masking.Filters.make_pipeline lib)
              (Masking.Filters.high_close_price lib) s e t d l eq_refl Hrun Hl)
    as [->|(keep & Hk & Hkeep)].
  { split; [simpl; lia|]. intros a Ha. inversion Ha. }
  assert (Htop : forall a, a ∈ l ->
            exists top, eval_filter lib db (Masking.Filters.top_open_price lib) d = Some top
                        /\ top a = true).
  { intros a Ha.
    destruct (percentile_between_candidate lib db _ _ _ _ _ _ a Hk (Hkeep a Ha))
      as (m & v & Hm & _ & Hc).
    apply elem_of_candidates in Hc as [[Hma _] _]. eauto. }
  split; [|exact Htop].
  destruct l as [|a0 l']; [simpl; lia|].
  destruct (Htop a0 ltac:(left)) as (top & Ht & _).
  pose proof Ht as Ht'.
  unfold Masking.Filters.top_open_price in Ht'. rewrite eval_Top_mask in Ht'.
  destruct (eval_filter lib db (Masking.Filters.high_dollar_volume lib) d) as [m|];
    [|discriminate Ht'].
  rewrite eval_Latest in Ht'. simpl in Ht'. injection Ht' as <-.
  eapply top_length; [exact Hnd|].
  intros a Ha. destruct (Htop a Ha) as (top' & Ht'' & Hta).
  rewrite Ht in Ht''. injection Ht'' as <-. exact Hta.
Qed.

(** X14.  Every row of the pipeline of the lesson on combining filters holds,
    in its column [close], the latest close of its security, and that close
    is above 90. *)
Theorem tradeable_rows_close_above_90 (s e : date) (t : Table) (d : date)
    (a : asset) (cells : gmap string value) :
  run_pipeline lib db (CombiningFilters.make_pipeline lib) s e = Some t ->
  (d, a, cells) ∈ table_rows t ->
  cells !! "close" = Some (Float (as_float (cell db USEquityPricing.close (d - 1) a)))
  /\ (90 <? as_float (cell db USEquityPricing.close (d - 1)%Z a))%float = true.
Proof.
  intros Hrun Hrow.
  apply (run_pipeline_row lib db _ _ _ _ _ _ _ Hrun) in Hrow
    as (_ & _ & keep & cols & Hs & Hc & Hk & ->).
  split.
  - destruct (factor_cell (CombiningFilters.make_pipeline lib) "close"
                (Latest USEquityPricing.close) d a cols) as (v & Hv & Hcell).
    + cbn [columns CombiningFilters.make_pipeline].
      rewrite lookup_insert_ne by discriminate. apply lookup_singleton_eq.
    + exact Hc.
    + rewrite eval_Latest in Hv. injection Hv as <-. exact Hcell.
  - cbn [screen CombiningFilters.make_pipeline eval_screen] in Hs.
    unfold CombiningFilters.tradeable_filter, CombiningFilters.above_90,
      CombiningFilters.latest_close in Hs.
    rewrite eval_And, eval_Compare, eval_Latest in Hs.
    destruct (eval_filter lib db (CombiningFilters.high_dollar_volume lib) d) as [x|];
      [|discriminate Hs].
    simpl in Hs. injection Hs as <-.
    apply andb_prop in Hk as [_ Hk]. exact Hk.
Qed.

(** X15.  Every row of the momentum pipeline holds, in its two momentum
    columns, values that are at least zero (and so not [NaN]). *)
Theorem positive_momentum_rows (s e : date) (t : Table) (d : date)
    (a : asset) (cells : gmap string value) :
  run_pipeline lib db MomentumPipeline.make_pipeline s e = Some t ->
  (d, a, cells) ∈ table_rows t ->
  exists m30 m60,
    cells !! "thirty day momentum" = Some (Float m30)
    /\ cells !! "sixty day momentum" = Some (Float m60)
    /\ (0 <=? m30)%float = true /\ (0 <=? m60)%float = true.
Proof.
  intros Hrun Hrow.
  apply (run_pipeline_row lib db _ _ _ _ _ _ _ Hrun) in Hrow
    as (_ & _ & keep & cols & Hs & Hc & Hk & ->).
  destruct (factor_cell MomentumPipeline.make_pipeline "thirty day momentum"
              MomentumPipeline.thirty_day_momentum d a cols) as (v30 & H30 & C30).
  { cbn [columns MomentumPipeline.make_pipeline].
    rewrite lookup_insert_ne by discriminate. apply lookup_insert_eq. }
  { exact Hc. }
  destruct (factor_cell MomentumPipeline.make_pipeline "sixty day momentum"
              MomentumPipeline.sixty_day_momentum d a cols) as (v60 & H60 & C60).
  { cbn [columns MomentumPipeline.make_pipeline].
    rewrite !lookup_insert_ne by discriminate. apply lookup_singleton_eq. }
  { exact Hc. }
  exists (v30 a), (v60 a). split; [exact C30|]. split; [exact C60|].
  cbn [screen MomentumPipeline.make_pipeline eval_screen] in Hs.
  unfold MomentumPipeline.positive_momentum in Hs.
  rewrite eval_And, !eval_Compare, H30, H60 in Hs.
  simpl in Hs. injection Hs as <-.
  now apply andb_prop in Hk.
Qed.

(** X16.  The first pipeline of the masking lesson has no screen, and a mask
    is not one: its run over a day has one row for each security of the
    database, in their order; in the rows of the securities whose dollar
    volume is not above 20000000 the percent difference is [NaN]. *)
Theorem masked_pipeline_keeps_every_security (d : date) (t : Table) :
  run_pipeline lib db (Masking.Factors.make_pipeline lib) d d = Some t ->
  index t = map (fun a => (d, a)) (securities db d)
  /\ forall a cells dv,
       (d, a, cells) ∈ table_rows t ->
       eval_factor lib db (Masking.Factors.dollar_volume lib) d = Some dv ->
       (20000000 <? dv a)%float = false ->
       exists x, cells !! "percent difference" = Some (Float x) /\ isnan x = true.
Proof.
  intros Hrun. split.
  - destruct (run_pipeline_one_day _ _ _ Hrun) as (day & Hday & Hrows).
    apply run_day_Some in Hday as (keep & cols & Hs & _ & ->).
    cbn [screen Masking.Factors.make_pipeline eval_screen] in Hs.
    injection Hs as <-. rewrite filter_all in Hrows.
    unfold index. rewrite Hrows, map_map. reflexivity.
  - intros a cells dv Hrow Hdv Hlow.
    apply (run_pipeline_row lib db _ _ _ _ _ _ _ Hrun) in Hrow
      as (_ & _ & keep & cols & _ & Hc & _ & ->).
    destruct (factor_cell (Masking.Factors.make_pipeline lib) "percent difference"
                (Masking.Factors.percent_difference lib) d a cols) as (v & Hv & Hcell).
    { cbn [columns Masking.Factors.make_pipeline]. apply lookup_singleton_eq. }
    { exact Hc. }
    exists (v a). split; [exact Hcell|].
    unfold Masking.Factors.percent_difference in Hv. rewrite !eval_BinOp in Hv.
    destruct (eval_factor lib db (Masking.Factors.mean_close_30 lib) d) as [x30|];
      [|discriminate Hv].
    destruct (eval_factor lib db (Masking.Factors.mean_close_60 lib) d) as [x60|] eqn:E60;
      [|discriminate Hv].
    simpl in Hv. injection Hv as <-.
    apply (binop_nan_r OpDiv).
    destruct (isnan (x60 a)) eqn:En; [reflexivity|exfalso].
    destruct (eval_masked_factor lib db _ _ _ _ _ _ a E60 En) as (m & Hm & Hma & _).
    unfold Masking.Factors.high_dollar_volume in Hm.
    rewrite eval_Compare, Hdv in Hm. simpl in Hm. injection Hm as <-.
    congruence.
Qed.

(** The filter [tradeable_stocks], criterion by criterion. *)
Lemma eval_tradeable_stocks (d : date) :
  eval_filter lib db (tradeable_stocks lib) d
  = Some (fun a =>
      builtin db "IsPrimaryShare" d a
      && match cell db Fundamentals.security_type (d - 1) a with
         | Text s => String.eqb "ST00000001" s | _ => false end
      && negb (as_bool (cell db Fundamentals.is_depositary_receipt (d - 1) a))
      && negb match cell db Fundamentals.exchange_id (d - 1) a with
              | Text s => String.prefix "OTC" s | _ => false end
      && negb match cell db Fundamentals.symbol (d - 1) a with
              | Text s => endswith ".WI" s | _ => false end
      && negb match cell db Fundamentals.standard_name (d - 1) a with
              | Text s => regex_matches lib ".* L[. ]?P.?$" s | _ => false end
      && isnan (as_float (cell db Fundamentals.limited_partnership (d - 1) a))
      && negb (isnan (as_float (cell db Fundamentals.market_cap (d - 1) a)))).
Proof.
  unfold tradeable_stocks, primary_share, common_stock, not_depositary, not_otc,
    not_wi, not_lp_name, not_lp_balance_sheet, have_market_cap, IsPrimaryShare.
  rewrite !eval_And, !eval_Not, eval_IsNull, eval_NotNull, !eval_StringTest,
    eval_LatestFilter, eval_Builtin, !eval_Latest.
  reflexivity.
Qed.

(** X17.  Every security the first pipeline of the last lesson emits passes
    each of the eight criteria of [tradeable_stocks], though that filter is
    only the mask of the dollar volume: a security outside the mask has no
    dollar volume, and [percentile_between] keeps no security without a
    value. *)
Theorem base_universe_rows_are_tradeable (s e : date) (t : Table) (d : date)
    (a : asset) :
  run_pipeline lib db (BaseUniverse.make_pipeline lib) s e = Some t ->
  (d, a) ∈ index t ->
  builtin db "IsPrimaryShare" d a = true
  /\ cell db Fundamentals.security_type (d - 1) a = Text "ST00000001"
  /\ as_bool (cell db Fundamentals.is_depositary_receipt (d - 1) a) = false
  /\ (forall x, cell db Fundamentals.exchange_id (d - 1) a = Text x ->
                String.prefix "OTC" x = false)
  /\ (forall x, cell db Fundamentals.symbol (d - 1) a = Text x ->
                endswith ".WI" x = false)
  /\ (forall x, cell db Fundamentals.standard_name (d - 1) a = Text x ->
                regex_matches lib ".* L[. ]?P.?$" x = false)
  /\ isnan (as_float (cell db Fundamentals.limited_partnership (d - 1) a)) = true
  /\ isnan (as_float (cell db Fundamentals.market_cap (d - 1) a)) = false.
Proof.
  intros Hrun Hin.
  apply (index_of_screened_run lib db (BaseUniverse.make_pipeline lib)
           (BaseUniverse.base_universe lib) s e t d a eq_refl Hrun) in Hin
    as (_ & _ & keep & Hk & Ha).
  destruct (percentile_between_candidate lib db _ _ _ _ _ _ a Hk Ha)
    as (m & v & _ & Hv & Hc).
  apply elem_of_candidates in Hc as [[_ Hc] _].
  destruct (eval_masked_factor lib db _ _ _ _ _ _ a Hv Hc) as (m' & Hm & Hma & _).
  rewrite eval_tradeable_stocks in Hm. injection Hm as <-.
  repeat (apply andb_prop in Hma as [Hma ?]).
  repeat match goal with H : negb _ = true |- _ => apply negb_true_iff in H end.
  split; [exact Hma|]. split.
  { destruct (cell db Fundamentals.security_type (d - 1) a) as [| |x|];
      try discriminate.
    f_equal. symmetry. now apply String.eqb_eq. }
  split; [assumption|].
  split; [intros x Hx; now rewrite Hx in *|].
  split; [intros x Hx; now rewrite Hx in *|].
  split; [intros x Hx; now rewrite Hx in *|].
  split; assumption.
Qed.

(** X18.  When the database lists each security once and at least 50
    securities have a defined [percent_difference] on a day, [shorts] is
    [True] on exactly 50 securities of the day and [longs] on exactly 50,
    ties or not; when at least 100 have one and the values are pairwise
    apart, the run of the long/short pipeline over the day has exactly 100
    rows. *)
Theorem long_short_selects_exactly_50 (d : date) (v : asset -> float) :
  NoDup (securities db d) ->
  eval_factor lib db (LongShort.percent_difference lib) d = Some v ->
  (50 <= length (candidates (fun _ => true) v (securities db d)))%nat ->
  exists sh lo,
    eval_filter lib db (LongShort.shorts lib) d = Some sh
    /\ eval_filter lib db (LongShort.longs lib) d = Some lo
    /\ length (filter (fun a => sh a = true) (securities db d)) = 50%nat
    /\ length (filter (fun a => lo a = true) (securities db d)) = 50%nat
    /\ forall t,
         run_pipeline lib db (LongShort.make_pipeline lib) d d = Some t ->
         (100 <= length (candidates (fun _ => true) v (securities db d)))%nat ->
         distinct_values (map v (candidates (fun _ => true) v (securities db d))) = true ->
         length (table_rows t) = 100%nat.
Proof.
  intros Hnd Hv Hlen.
  set (cands := candidates (fun _ => true) v (securities db d)) in *.
  exists (select_rank descending 50 v cands), (select_rank ascending 50 v cands).
  assert (Hsh : length (filter (fun a => select_rank descending 50 v cands a = true)
                          (securities db d)) = 50%nat)
    by (apply top_exact; assumption).
  assert (Hlo : length (filter (fun a => select_rank ascending 50 v cands a = true)
                          (securities db d)) = 50%nat)
    by (apply bottom_exact; assumption).
  split.
  { unfold LongShort.shorts. rewrite eval_Top, Hv. reflexivity. }
  split.
  { unfold LongShort.longs. rewrite eval_Bottom, Hv. reflexivity. }
  split; [exact Hsh|]. split; [exact Hlo|].
  intros t Hrun Hmany Hdist.
  destruct (run_pipeline_one_day _ _ _ Hrun) as (day & Hday & ->).
  apply run_day_Some in Hday as (keep & cols & Hs & _ & ->).
  cbn [screen LongShort.make_pipeline eval_screen] in Hs.
  apply long_short_screen in Hs as (v' & Hv' & ->).
  assert (v' = v) as -> by congruence. fold cands.
  rewrite length_map, filter_length_or, Hsh, Hlo; [reflexivity|].
  intros a. apply select_rank_disjoint; [lia|exact Hdist].
Qed.

End PipelineRows.


(** ** The further properties on the examples *)

Section MoreWitnesses.
Import numpy Terms Engine CustomFactors Builtins Examples Cases.
Import CustomFactorPipelines PuttingItAllTogether.

Lemma emits_rows (db : DataBase) (p : pipeline) (d : date) (l : list asset) :
  emits db p d l = true ->
  exists t,
    run_pipeline library db p d d = Some t
    /\ forall a, a ∈ l -> (d, a) ∈ index t.
Proof.
  unfold emits. destruct (run_pipeline library db p d d) as [t|]; [|discriminate].
  intros H. exists t. split; [reflexivity|]. intros a Ha.
  rewrite forallb_forall in H. apply list_elem_of_In, H in Ha.
  apply existsb_exists in Ha as ([d' a'] & Hin & Heq). simpl in Heq.
  apply andb_prop in Heq as [Hd Hq]. apply Z.eqb_eq in Hd, Hq. subst.
  now apply list_elem_of_In.
Qed.

Lemma emits_row (db : DataBase) (p : pipeline) (d : date) (a : asset) :
  emits db p d [a] = true ->
  exists t cells,
    run_pipeline library db p d d = Some t /\ (d, a, cells) ∈ table_rows t.
Proof.
  intros H. apply emits_rows in H as (t & Hrun & Hin).
  destruct (proj1 (elem_of_index t d a) (Hin a ltac:(left))) as [cells Hc].
  eauto.
Qed.

Lemma StdDev_never_negative_example :
  exists out' x,
    StdDev_compute 100 [2; 24] [nan; nan] closes = Some out'
    /\ out' !! 0%nat = Some x
    /\ (isnan x = true \/ (0 <=? x)%float = true).
Proof.
  destruct (StdDev_compute 100 [2; 24] [nan; nan] closes) as [out'|] eqn:E.
  2:{ exfalso. vm_compute in E. discriminate E. }
  destruct (out' !! 0%nat) as [x|] eqn:Ex.
  2:{ exfalso. vm_compute in E. injection E as <-. discriminate Ex. }
  exists out', x. split; [reflexivity|]. split; [exact Ex|].
  apply (StdDev_compute_never_negative 100 [2; 24] [nan; nan] out' closes 0 x).
  - repeat constructor.
  - reflexivity.
  - exact E.
  - exact Ex.
Defined.

Lemma StdDev_no_data_example :
  exists out' x,
    StdDev_compute 100 [2; 24] [nan; nan] no_closes = Some out'
    /\ out' !! 0%nat = Some x /\ isnan x = true.
Proof.
  apply (StdDev_compute_no_data 100 [2; 24] [nan; nan] no_closes 0).
  - repeat constructor.
  - reflexivity.
  - vm_compute. lia.
  - repeat constructor.
Defined.

Lemma StdDev_skips_missing_value_example :
  exists out1 out2,
    StdDev_compute 100 [2; 24] [nan; nan]
      (mk_ndarray2 F_order 2 ([[1; 2]] ++ [3; nan] :: [[5; 1]]))%float = Some out1
    /\ StdDev_compute 100 [2; 24] [nan; nan]
         (mk_ndarray2 F_order 2 ([[1; 2]] ++ [[5; 1]]))%float = Some out2
    /\ out1 !! 1%nat = out2 !! 1%nat.
Proof.
  apply (StdDev_compute_skips_missing_value 100 [2; 24] [nan; nan] F_order 2
           [[1; 2]]%float [[5; 1]]%float [3; nan]%float 1 nan).
  - repeat constructor.
  - reflexivity.
  - reflexivity.
  - reflexivity.
  - reflexivity.
Defined.

Lemma ThirtyDayMeanDifference_no_data_example :
  exists out' x,
    ThirtyDayMeanDifference_compute 100 [2; 24] [nan; nan] no_closes opens = Some out'
    /\ out' !! 0%nat = Some x /\ isnan x = true.
Proof.
  apply (ThirtyDayMeanDifference_no_data 100 [2; 24] [nan; nan] no_closes opens 0).
  - repeat constructor.
  - repeat constructor.
  - reflexivity.
  - reflexivity.
  - reflexivity.
  - vm_compute. lia.
  - repeat constructor; left; reflexivity.
Defined.

Lemma ThirtyDayMeanDifference_skips_missing_value_example :
  exists out1 out2,
    ThirtyDayMeanDifference_compute 100 [2; 24] [nan; nan]
      (mk_ndarray2 F_order 2 ([[1; 2]] ++ [3; nan] :: [[5; 1]]))%float
      (mk_ndarray2 F_order 2 ([[1; 2]] ++ [3; 3] :: [[0.5; 1]]))%float = Some out1
    /\ ThirtyDayMeanDifference_compute 100 [2; 24] [nan; nan]
         (mk_ndarray2 F_order 2 ([[1; 2]] ++ [[5; 1]]))%float
         (mk_ndarray2 F_order 2 ([[1; 2]] ++ [[0.5; 1]]))%float = Some out2
    /\ out1 !! 1%nat = out2 !! 1%nat.
Proof.
  apply (ThirtyDayMeanDifference_skips_missing_value 100 [2; 24] [nan; nan] F_order 2
           [[1; 2]]%float [[5; 1]]%float [[1; 2]]%float [[0.5; 1]]%float
           [3; nan]%float [3; 3]%float 1 nan 3%float).
  - repeat constructor.
  - repeat constructor.
  - reflexivity.
  - reflexivity.
  - reflexivity.
  - reflexivity.
  - reflexivity.
  - left. reflexivity.
  - reflexivity.
Defined.

Lemma ThirtyDayMeanDifference_equal_prices_example :
  exists out',
    ThirtyDayMeanDifference_compute 100 [2; 24] [nan; nan] opens opens = Some out'
    /\ out' !! 0%nat = Some 0%float.
Proof.
  apply (ThirtyDayMeanDifference_of_equal_prices 100 [2; 24] [nan; nan] opens opens 0).
  - repeat constructor.
  - repeat constructor.
  - reflexivity.
  - reflexivity.
  - reflexivity.
  - vm_compute. lia.
  - vm_compute. lia.
  - vm_compute. reflexivity.
  - reflexivity.
  - repeat constructor.
Defined.

Lemma Momentum_empty_window_example :
  Momentum_compute 100 [2; 24] [nan; nan] no_day = None <-> shape0 no_day = 0%nat.
Proof.
  apply (Momentum_compute_fails_on_empty_window 100 [2; 24] [nan; nan] no_day).
  - constructor.
  - reflexivity.
Defined.

Lemma Momentum_unchanged_price_example :
  exists out',
    Momentum_compute 100 [2; 24] [nan; nan] there_and_back = Some out'
    /\ out' !! 0%nat = Some 1%float.
Proof.
  apply (Momentum_of_unchanged_price 100 [2; 24] [nan; nan] there_and_back 0 5%float).
  - repeat constructor.
  - reflexivity.
  - vm_compute. lia.
  - reflexivity.
  - reflexivity.
  - reflexivity.
  - reflexivity.
Defined.

Lemma universe_rows_flagged_example :
  exists t1 c1 t2 c2,
    run_pipeline library listed (BaseUniverse.make_pipeline library) 100 100 = Some t1
    /\ (100, 24, c1) ∈ table_rows t1
    /\ c1 !! "base universe" = Some (Boolean true)
    /\ run_pipeline library listed BuiltinUniverse.make_pipeline 100 100 = Some t2
    /\ (100, 24, c2) ∈ table_rows t2
    /\ c2 !! "QTradableStockUS" = Some (Boolean true).
Proof.
  destruct (emits_row listed (BaseUniverse.make_pipeline library) 100 24)
    as (t1 & c1 & Hrun1 & Hrow1).
  { vm_compute. reflexivity. }
  destruct (emits_row listed BuiltinUniverse.make_pipeline 100 24)
    as (t2 & c2 & Hrun2 & Hrow2).
  { vm_compute. reflexivity. }
  destruct (universe_rows_are_flagged library listed 100 100 100 24) as [H1 H2].
  exists t1, c1, t2, c2.
  split; [exact Hrun1|]. split; [exact Hrow1|].
  split; [exact (H1 t1 c1 Hrun1 Hrow1)|].
  split; [exact Hrun2|]. split; [exact Hrow2|].
  exact (H2 t2 c2 Hrun2 Hrow2).
Defined.

Lemma long_short_in_universe_example :
  exists t,
    run_pipeline library small (LongShort.make_pipeline library) 100 100 = Some t
    /\ (100, 24) ∈ index t
    /\ builtin small "QTradableStocksUS" 100 24 = true.
Proof.
  destruct (emits_rows small (LongShort.make_pipeline library) 100 [24])
    as (t & Hrun & Hin).
  { vm_compute. reflexivity. }
  exists t. split; [exact Hrun|]. split; [apply Hin; left|].
  apply (long_short_rows_in_universe library small 100 100 t 100 24 Hrun).
  apply Hin. left.
Defined.

Lemma long_short_at_most_100_example :
  exists t,
    run_pipeline library wide (LongShort.make_pipeline library) 100 100 = Some t
    /\ (forall a, a ∈ seqZ 1 50 ++ seqZ 52 50 -> (100, a) ∈ index t)
    /\ (length (seqZ 1 50 ++ seqZ 52 50) <= 100)%nat.
Proof.
  destruct (emits_rows wide (LongShort.make_pipeline library) 100
              (seqZ 1 50 ++ seqZ 52 50))
    as (t & Hrun & Hin).
  { vm_compute. reflexivity. }
  exists t. split; [exact Hrun|]. split; [exact Hin|].
  apply (long_short_at_most_100 library wide 100 100 t 100
           (seqZ 1 50 ++ seqZ 52 50) Hrun).
  - apply (bool_decide_unpack _). vm_compute. exact I.
  - exact Hin.
Defined.

Lemma high_close_price_example :
  exists t,
    run_pipeline library flat (Masking.Filters.make_pipeline library) 100 100 = Some t
    /\ (forall a, a ∈ seqZ 1 50 -> (100, a) ∈ index t)
    /\ (length (seqZ 1 50) <= 50)%nat
    /\ forall a, a ∈ seqZ 1 50 ->
         exists top,
           eval_filter library flat (Masking.Filters.top_open_price library) 100
           = Some top
           /\ top a = true.
Proof.
  destruct (emits_rows flat (Masking.Filters.make_pipeline library) 100 (seqZ 1 50))
    as (t & Hrun & Hin).
  { vm_compute. reflexivity. }
  exists t. split; [exact Hrun|]. split; [exact Hin|].
  apply (high_close_price_at_most_50 library flat 100 100 t 100 (seqZ 1 50) Hrun).
  - apply NoDup_seqZ.
  - exact Hin.
Defined.

Lemma tradeable_rows_example :
  exists t cells,
    run_pipeline library small (CombiningFilters.make_pipeline library) 100 100 = Some t
    /\ (100, 24, cells) ∈ table_rows t
    /\ cells !! "close"
       = Some (Float (as_float (cell small USEquityPricing.close (100 - 1) 24)))
    /\ (90 <? as_float (cell small USEquityPricing.close (100 - 1)%Z 24%Z))%float = true.
Proof.
  destruct (emits_row small (CombiningFilters.make_pipeline library) 100 24)
    as (t & cells & Hrun & Hrow).
  { vm_compute. reflexivity. }
  exists t, cells. split; [exact Hrun|]. split; [exact Hrow|].
  apply (tradeable_rows_close_above_90 library small 100 100 t 100 24 cells Hrun Hrow).
Defined.

Lemma positive_momentum_rows_example :
  exists t cells m30 m60,
    run_pipeline library small MomentumPipeline.make_pipeline 100 100 = Some t
    /\ (100, 2, cells) ∈ table_rows t
    /\ cells !! "thirty day momentum" = Some (Float m30)
    /\ cells !! "sixty day momentum" = Some (Float m60)
    /\ (0 <=? m30)%float = true /\ (0 <=? m60)%float = true.
Proof.
  destruct (emits_row small MomentumPipeline.make_pipeline 100 2)
    as (t & cells & Hrun & Hrow).
  { vm_compute. reflexivity. }
  destruct (positive_momentum_rows library small 100 100 t 100 2 cells Hrun Hrow)
    as (m30 & m60 & H).
  exists t, cells, m30, m60. split; [exact Hrun|]. split; [exact Hrow|]. exact H.
Defined.

Lemma masked_pipeline_example :
  exists t,
    run_pipeline library small (Masking.Factors.make_pipeline library) 100 100 = Some t
    /\ index t = map (fun a => (100, a)) (securities small 100)
    /\ forall a cells dv,
         (100, a, cells) ∈ table_rows t ->
         eval_factor library small (Masking.Factors.dollar_volume library) 100 = Some dv ->
         (20000000 <? dv a)%float = false ->
         exists x, cells !! "percent difference" = Some (Float x) /\ isnan x = true.
Proof.
  destruct (emits_rows small (Masking.Factors.make_pipeline library) 100 [])
    as (t & Hrun & _).
  { vm_compute. reflexivity. }
  exists t. split; [exact Hrun|].
  apply (masked_pipeline_keeps_every_security library small 100 t Hrun).
Defined.

Lemma base_universe_tradeable_example :
  exists t,
    run_pipeline library listed (BaseUniverse.make_pipeline library) 100 100 = Some t
    /\ (100, 24) ∈ index t
    /\ cell listed Fundamentals.security_type (100 - 1) 24 = Text "ST00000001"
    /\ isnan (as_float (cell listed Fundamentals.limited_partnership (100 - 1) 24)) = true.
Proof.
  destruct (emits_rows listed (BaseUniverse.make_pipeline library) 100 [24])
    as (t & Hrun & Hin).
  { vm_compute. reflexivity. }
  exists t. split; [exact Hrun|]. split; [apply Hin; left|].
  destruct (base_universe_rows_are_tradeable library listed 100 100 t 100 24 Hrun
              (Hin 24 ltac:(left))) as (_ & H2 & _ & _ & _ & _ & H7 & _).
  split; assumption.
Defined.

Lemma long_short_selects_example :
  exists v sh lo t,
    eval_factor library wide (LongShort.percent_difference library) 100 = Some v
    /\ eval_filter library wide (LongShort.shorts library) 100 = Some sh
    /\ eval_filter library wide (LongShort.longs library) 100 = Some lo
    /\ length (filter (fun a => sh a = true) (securities wide 100)) = 50%nat
    /\ length (filter (fun a => lo a = true) (securities wide 100)) = 50%nat
    /\ run_pipeline library wide (LongShort.make_pipeline library) 100 100 = Some t
    /\ length (table_rows t) = 100%nat.
Proof.
  destruct wide_values_apart as (v & Hv & Hlen & Hdist).
  destruct (emits_rows wide (LongShort.make_pipeline library) 100 [])
    as (t & Hrun & _).
  { vm_compute. reflexivity. }
  destruct (long_short_selects_exactly_50 library wide 100 v)
    as (sh & lo & Hsh & Hlo & Nsh & Nlo & Hrows).
  - apply NoDup_seqZ.
  - exact Hv.
  - lia.
  - exists v, sh, lo, t. repeat (split; [assumption|]).
    apply Hrows; [exact Hrun|lia|exact Hdist].
Defined.

End MoreWitnesses.


(** ** Missing days and memory order *)

Section MemoryOrder.
Import numpy Terms CustomFactors Binary64 Examples Cases.

(** The mean of a column whose values are [NaN] or not negative, one at
    least not [NaN], is not negative. *)
Lemma mean_ignoring_nan_nonneg (pairwise : bool) (xs : ndarray1) :
  Z.of_nat (length xs) < 2 ^ 63 ->
  Forall (fun x => isnan x = true \/ (0 <=? x)%float = true) xs ->
  Exists (fun x => isnan x = false) xs ->
  (0 <=? mean_ignoring_nan (column_sum pairwise) xs)%float = true.
Proof.
  intros Hb Hxs Hex. unfold mean_ignoring_nan. apply div_nonneg.
  - apply (column_sum_closed (fun x => (0 <=? x)%float = true));
      [reflexivity|apply add_nonneg|].
    apply Forall_map. eapply Forall_impl; [exact Hxs|].
    intros x Hx. simpl in *. unfold replace_nan.
    destruct (isnan x) eqn:E; [reflexivity|].
    destruct Hx as [Hx|Hx]; [discriminate Hx|exact Hx].
  - apply of_count_positive.
    + apply Exists_exists in Hex as (x & Hin & Hx).
      assert (Hd : x ∈ drop_nan xs) by (apply list_elem_of_filter; auto).
      destruct (drop_nan xs); [inversion Hd|simpl; lia].
    + pose proof (length_filter (fun x => isnan x = false) xs) as Hl.
      unfold drop_nan. lia.
Qed.

(** X19.  Days on which the high or the low of an asset is missing are left
    out of the mean: when on every other day of the window the high is at
    least equal to the low (the two not the same infinity), and there is
    such a day, the factor built on [high, low] gives the asset a value that
    is not negative. *)
Theorem high_low_difference_skips_missing_days (today : date)
    (asset_ids : list asset) (out : ndarray1) (high low : ndarray2) (j : nat) :
  well_shaped high -> well_shaped low ->
  shape1 high = shape1 low -> shape0 high = shape0 low ->
  Z.of_nat (shape0 high) < 2 ^ 63 ->
  length out = shape1 high -> (j < shape1 high)%nat ->
  (forall i h l,
     column j high !! i = Some h -> column j low !! i = Some l ->
     isnan h = true \/ isnan l = true
     \/ ((l <=? h)%float = true /\ same_infinity l h = false)) ->
  (exists i h l,
     column j high !! i = Some h /\ column j low !! i = Some l
     /\ (l <=? h)%float = true /\ same_infinity l h = false) ->
  exists out' v,
    ThirtyDayMeanDifference_compute today asset_ids out high low = Some out'
    /\ out' !! j = Some v
    /\ (0 <=? v)%float = true.
Proof.
  intros Hh Hl H1 H0 Hb Hout Hj Hdays (i0 & h0 & l0 & Hh0 & Hl0 & Hle0 & Hinf0).
  destruct (mean_difference_lookup today asset_ids out high low Hh Hl H1 H0 Hout)
    as (d & out' & _ & S0 & _ & Hc & _ & Hlook).
  destruct (Hlook j Hj) as [Hcol Hv].
  exists out'. eexists. split; [exact Hc|]. split; [exact Hv|].
  apply mean_ignoring_nan_nonneg.
  - rewrite length_column, S0. exact Hb.
  - rewrite Hcol. apply Forall_forall. intros x Hx.
    apply list_elem_of_lookup in Hx as [i Hi].
    apply lookup_zip_with_Some in Hi as (h & l & -> & Hh' & Hl').
    destruct (Hdays i h l Hh' Hl') as [Hn|[Hn|[Hle Hinf]]].
    + left. exact (binop_nan_l OpSub h l Hn).
    + left. exact (binop_nan_r OpSub h l Hn).
    + right. now apply sub_nonneg_apart.
  - rewrite Hcol. apply Exists_exists. exists (h0 - l0)%float. split.
    + apply (list_elem_of_lookup_2 _ i0).
      rewrite lookup_zip_with, Hh0, Hl0. reflexivity.
    + apply nonneg_not_nan. now apply sub_nonneg_apart.
Qed.

Lemma short_sums_in_order (a : ndarray2) :
  (shape0 a < 8)%nat -> sums_in_order a = true.
Proof.
  intros H. unfold sums_in_order. apply orb_true_iff. right. now apply Nat.ltb_lt.
Qed.

Lemma nanstd_axis0_short (N : nat) (rs : list ndarray1) :
  Forall (fun r => length r = N) rs -> (length rs < 8)%nat ->
  nanstd_axis0 (mk_ndarray2 F_order N rs) = nanstd_axis0 (mk_ndarray2 C_order N rs).
Proof.
  intros Hrs Hlen. apply list_eq. intros j.
  destruct (decide (j < N)%nat) as [Hj|Hj].
  - rewrite !nanstd_axis0_lookup by assumption.
    rewrite !std_in_order; try apply length_column; try reflexivity.
    + now apply short_sums_in_order.
    + now apply short_sums_in_order.
  - rewrite !lookup_ge_None_2; [reflexivity| |];
      rewrite length_nanstd_axis0 by assumption; simpl; lia.
Qed.

Lemma nanmean_axis0_short (N : nat) (rs : list ndarray1) :
  Forall (fun r => length r = N) rs -> (length rs < 8)%nat ->
  nanmean_axis0 (mk_ndarray2 F_order N rs) = nanmean_axis0 (mk_ndarray2 C_order N rs).
Proof.
  intros Hrs Hlen. apply list_eq. intros j.
  destruct (decide (j < N)%nat) as [Hj|Hj].
  - rewrite !nanmean_axis0_lookup by assumption.
    rewrite !mean_in_order; try apply length_column; try reflexivity.
    + now apply short_sums_in_order.
    + now apply short_sums_in_order.
  - rewrite !lookup_ge_None_2; [reflexivity| |];
      rewrite length_nanmean_axis0 by assumption; simpl; lia.
Qed.

(** X20.  On windows of fewer than 8 days the memory order of the windows
    does not show: [StdDev.compute] and [ThirtyDayMeanDifference.compute]
    leave the same [out], bit for bit, whether the windows lie column after
    column or row after row. *)
Theorem short_windows_in_any_order (today : date) (asset_ids : list asset)
    (out : ndarray1) (N : nat) (values close open : list ndarray1) :
  Forall (fun r => length r = N) values ->
  Forall (fun r => length r = N) close -> Forall (fun r => length r = N) open ->
  (length values < 8)%nat -> (length close < 8)%nat ->
  StdDev_compute today asset_ids out (mk_ndarray2 F_order N values)
  = StdDev_compute today asset_ids out (mk_ndarray2 C_order N values)
  /\ ThirtyDayMeanDifference_compute today asset_ids out
       (mk_ndarray2 F_order N close) (mk_ndarray2 F_order N open)
     = ThirtyDayMeanDifference_compute today asset_ids out
         (mk_ndarray2 C_order N close) (mk_ndarray2 C_order N open).
Proof.
  intros Hv Hc Ho Lv Lc. split.
  - unfold StdDev_compute. now rewrite nanstd_axis0_short.
  - unfold ThirtyDayMeanDifference_compute, sub2, shape0, result_order. simpl.
    case_decide as Hs; [|reflexivity]. simpl.
    rewrite nanmean_axis0_short; [reflexivity| |].
    + apply Forall_forall. intros r Hr.
      apply list_elem_of_lookup in Hr as [i Hi].
      apply lookup_zip_with_Some in Hi as (x & y & -> & Hx & Hy).
      unfold sub1. rewrite length_zip_with.
      rewrite Forall_forall in Hc, Ho.
      rewrite (Hc x), (Ho y) by (eapply list_elem_of_lookup_2; eauto). lia.
    + rewrite length_zip_with. lia.
Qed.

Lemma high_low_missing_day_example :
  exists out' v,
    ThirtyDayMeanDifference_compute 100 [24] [nan] gapped_highs gapped_lows = Some out'
    /\ out' !! 0%nat = Some v
    /\ (0 <=? v)%float = true.
Proof.
  apply (high_low_difference_skips_missing_days 100 [24] [nan]
           gapped_highs gapped_lows 0).
  - repeat constructor.
  - repeat constructor.
  - reflexivity.
  - reflexivity.
  - vm_compute. reflexivity.
  - reflexivity.
  - vm_compute. lia.
  - intros [|[|[|i]]] h l Hh Hl; vm_compute in Hh, Hl; try discriminate;
      injection Hh as <-; injection Hl as <-;
      first [left; reflexivity | right; right; split; reflexivity].
  - exists 0%nat, 3%float, 1%float. repeat split; reflexivity.
Defined.

Lemma short_windows_example :
  StdDev_compute 100 [2; 24] [nan; nan] (mk_ndarray2 F_order 2 (rows closes))
  = StdDev_compute 100 [2; 24] [nan; nan] (mk_ndarray2 C_order 2 (rows closes))
  /\ ThirtyDayMeanDifference_compute 100 [2; 24] [nan; nan]
       (mk_ndarray2 F_order 2 (rows closes)) (mk_ndarray2 F_order 2 (rows opens))
     = ThirtyDayMeanDifference_compute 100 [2; 24] [nan; nan]
         (mk_ndarray2 C_order 2 (rows closes)) (mk_ndarray2 C_order 2 (rows opens)).
Proof.
  apply (short_windows_in_any_order 100 [2; 24] [nan; nan] 2
           (rows closes) (rows closes) (rows opens)).
  - repeat constructor.
  - repeat constructor.
  - repeat constructor.
  - vm_compute. lia.
  - vm_compute. lia.
Defined.

End MemoryOrder.
